(** * WQ-Simulator: the strategies, the aggregator, the risk battery, the
      position manager and the packet normaliser

    The definitions follow the C++ sources function by function.  A C++
    [double] is an IEEE-754 binary64; it is modelled by the primitive
    [float], which is the same format with the same round-to-nearest-even
    arithmetic (with a single NaN).  A decimal literal such as [0.3]
    denotes the nearest binary64 value, as it does for the C++ compiler.
    [std::tanh] and [std::to_string] belong to the C++ library and are
    parameters. *)

From Stdlib Require Import ZArith List Bool Lia Floats Uint63 Sorted.
From Stdlib.Strings Require Import Byte.
From stdpp Require Import base list gmap strings.
Import ListNotations.

Set Warnings "-inexact-float".
Local Open Scope Z_scope.

(** ** C++ arithmetic on [double], [int] and [size_t] *)

Module Cpp.

(** [a > b] and [a >= b] on doubles: false as soon as one side is NaN. *)
Definition gtb (a b : float) : bool := PrimFloat.ltb b a.
Definition geb (a b : float) : bool := PrimFloat.leb b a.

(** [std::min(a, b)] is [(b < a) ? b : a]; [std::max(a, b)] is
    [(a < b) ? b : a]. *)
Definition std_min (a b : float) : float := if PrimFloat.ltb b a then b else a.
Definition std_max (a b : float) : float := if PrimFloat.ltb a b then b else a.

(** [static_cast<size_t>(n)] for an [int] on a 64-bit target. *)
Definition size_t_of_int (n : Z) : Z := n mod 2 ^ 64.

(** A container size as a [size_t]. *)
Definition vec_size {A} (l : list A) : Z := Z.of_nat (length l).

(** Conversion of a [size_t] to [double]. *)
Definition double_of_size (n : Z) : float := PrimFloat.of_uint63 (Uint63.of_Z n).

(** Conversion to [int]: wrap-around on 32 bits, two's complement. *)
Definition int_of_Z (n : Z) : Z := (n + 2 ^ 31) mod 2 ^ 32 - 2 ^ 31.

(** [static_cast<double>(n)] for an [int]. *)
Definition double_of_int (n : Z) : float :=
  if n <? 0 then PrimFloat.opp (PrimFloat.of_uint63 (Uint63.of_Z (- n)))
  else PrimFloat.of_uint63 (Uint63.of_Z n).

(** [std::accumulate(first, last, init)] with [+] on doubles. *)
Definition accumulate (l : list float) (init : float) : float :=
  fold_left PrimFloat.add l init.

(** [v.erase(v.begin())] as it is used here, on a vector that has just
    been pushed to. *)
Definition erase_begin {A} (l : list A) : list A := tl l.

(** Closeness of a computed double to a decimal quoted to three places. *)
Definition near (x c : float) : bool :=
  PrimFloat.ltb (PrimFloat.abs (PrimFloat.sub x c)) 0.001%float.

End Cpp.

(** ** alpha-engine: alpha_strategy.hpp / alpha_strategy.cpp *)

Module Alpha.
Import Cpp.

Record MarketData := mkMarketData {
  md_symbol : string;
  md_price : float;
  md_volume : Z;
  md_timestampNs : Z
}.

Record AlphaSignal := mkAlphaSignal {
  alphaId : string;
  symbol : string;
  signal : float;
  confidence : float;
  timestampNs : Z
}.

Module AlphaConfig.
Definition MIN_SIGNAL : float := (-1.0)%float.
Definition MAX_SIGNAL : float := 1.0%float.
End AlphaConfig.

(** The documented ranges of an [AlphaSignal]: [signal] in [-1, +1] and
    [confidence] in [0, 1], with the comparisons of C++ (a NaN is in no
    range). *)
Definition signal_in_range (s : AlphaSignal) : bool :=
  PrimFloat.leb (-1.0)%float (signal s) && PrimFloat.leb (signal s) 1.0%float.
Definition confidence_in_range (s : AlphaSignal) : bool :=
  PrimFloat.leb 0%float (confidence s) && PrimFloat.leb (confidence s) 1.0%float.

(** *** MeanReversionAlpha *)

Record MeanReversionAlpha := mkMeanReversionAlpha {
  mr_alphaId_ : string;
  mr_windowSize_ : Z;
  mr_priceHistory_ : list float;
  mr_initialized_ : bool;
  mr_lastUpdateTime_ : Z
}.

(** The constructor: empty history, [initialized_{false}],
    [lastUpdateTime_{0}]. *)
Definition MeanReversionAlpha_new (id : string) (windowSize : Z) : MeanReversionAlpha :=
  mkMeanReversionAlpha id windowSize [] false 0.

Definition MeanReversionAlpha_initialize (a : MeanReversionAlpha) : MeanReversionAlpha :=
  mkMeanReversionAlpha (mr_alphaId_ a) (mr_windowSize_ a) [] true (mr_lastUpdateTime_ a).

Definition MeanReversionAlpha_shutdown (a : MeanReversionAlpha) : MeanReversionAlpha :=
  mkMeanReversionAlpha (mr_alphaId_ a) (mr_windowSize_ a) [] false (mr_lastUpdateTime_ a).

(** [IAlphaStrategy::isActive] returns [true]. *)
Definition MeanReversionAlpha_isActive (a : MeanReversionAlpha) : bool :=
  mr_initialized_ a && true.

Definition calculateMean (priceHistory : list float) : float :=
  PrimFloat.div (accumulate priceHistory 0%float) (double_of_size (vec_size priceHistory)).

Definition calculateStdDev (priceHistory : list float) : float :=
  let mean := calculateMean priceHistory in
  let variance :=
    PrimFloat.div
      (fold_left (fun acc price =>
                    let diff := PrimFloat.sub price mean in
                    PrimFloat.add acc (PrimFloat.mul diff diff))
                 priceHistory 0%float)
      (double_of_size (vec_size priceHistory)) in
  PrimFloat.sqrt variance.

(** The local [zScore] of [onMarketData]. *)
Definition zScore (priceHistory : list float) (price : float) : float :=
  PrimFloat.div (PrimFloat.sub price (calculateMean priceHistory))
                (calculateStdDev priceHistory).

Definition MeanReversionAlpha_onMarketData (a : MeanReversionAlpha) (data : MarketData)
  : MeanReversionAlpha * option AlphaSignal :=
  if negb (mr_initialized_ a) then (a, None)
  else
    let pushed := mr_priceHistory_ a ++ [md_price data] in
    let history :=
      if vec_size pushed >? size_t_of_int (mr_windowSize_ a)
      then erase_begin pushed else pushed in
    let a1 := mkMeanReversionAlpha (mr_alphaId_ a) (mr_windowSize_ a) history
                                   (mr_initialized_ a) (mr_lastUpdateTime_ a) in
    if vec_size history <? size_t_of_int (mr_windowSize_ a) then (a1, None)
    else
      let stdDev := calculateStdDev history in
      if PrimFloat.ltb stdDev 1e-6%float then (a1, None)
      else
        let z := zScore history (md_price data) in
        let sig := std_max AlphaConfig.MIN_SIGNAL
                           (std_min AlphaConfig.MAX_SIGNAL (PrimFloat.opp z)) in
        let conf := std_min 1.0%float (PrimFloat.div (PrimFloat.abs z) 3.0%float) in
        (mkMeanReversionAlpha (mr_alphaId_ a) (mr_windowSize_ a) history
                              (mr_initialized_ a) (md_timestampNs data),
         Some (mkAlphaSignal (mr_alphaId_ a) (md_symbol data) sig conf
                             (md_timestampNs data))).

(** Feeding a sequence of ticks, oldest first; the outputs come back in
    the same order. *)
Fixpoint MeanReversionAlpha_feed (a : MeanReversionAlpha) (ticks : list MarketData)
  : MeanReversionAlpha * list (option AlphaSignal) :=
  match ticks with
  | [] => (a, [])
  | d :: rest =>
      let '(a1, o) := MeanReversionAlpha_onMarketData a d in
      let '(a2, os) := MeanReversionAlpha_feed a1 rest in
      (a2, o :: os)
  end.



(** A tick that carries only a price. *)
Definition tick (p : float) : MarketData := mkMarketData "AAPL" p 0 0.

(** *** MomentumAlpha *)

Record MomentumAlpha := mkMomentumAlpha {
  mo_alphaId_ : string;
  mo_lookbackPeriod_ : Z;
  mo_returns_ : list float;
  mo_lastPrice_ : option float;
  mo_lastUpdateTime_ : Z
}.

Definition MomentumAlpha_new (id : string) (lookbackPeriod : Z) : MomentumAlpha :=
  mkMomentumAlpha id lookbackPeriod [] None 0.

Definition MomentumAlpha_initialize (a : MomentumAlpha) : MomentumAlpha :=
  mkMomentumAlpha (mo_alphaId_ a) (mo_lookbackPeriod_ a) [] None (mo_lastUpdateTime_ a).

Definition MomentumAlpha_shutdown (a : MomentumAlpha) : MomentumAlpha :=
  mkMomentumAlpha (mo_alphaId_ a) (mo_lookbackPeriod_ a) [] None (mo_lastUpdateTime_ a).

(** The class does not override [isActive]: the default of
    [IAlphaStrategy] applies. *)
Definition MomentumAlpha_isActive (a : MomentumAlpha) : bool := true.

(** [std::count_if(..., [](double r) { return r > 0; })] stored in an [int]. *)
Definition count_positive (returns : list float) : Z :=
  int_of_Z (vec_size (List.filter (fun r => gtb r 0%float) returns)).

Section Momentum.

(** [std::tanh] of the C library, which is not part of the repository. *)
Variable tanh : float -> float.

Definition MomentumAlpha_onMarketData (a : MomentumAlpha) (data : MarketData)
  : MomentumAlpha * option AlphaSignal :=
  let returns :=
    match mo_lastPrice_ a with
    | Some lastPrice =>
        let ret := PrimFloat.div (PrimFloat.sub (md_price data) lastPrice) lastPrice in
        let pushed := mo_returns_ a ++ [ret] in
        if vec_size pushed >? size_t_of_int (mo_lookbackPeriod_ a)
        then erase_begin pushed else pushed
    | None => mo_returns_ a
    end in
  let a1 := mkMomentumAlpha (mo_alphaId_ a) (mo_lookbackPeriod_ a) returns
                            (Some (md_price data)) (mo_lastUpdateTime_ a) in
  if vec_size returns <? size_t_of_int (mo_lookbackPeriod_ a) then (a1, None)
  else
    let cumulativeReturn := accumulate returns 0%float in
    let sig := tanh (PrimFloat.mul cumulativeReturn 10.0%float) in
    let positiveReturns := count_positive returns in
    let consistency :=
      PrimFloat.mul
        (PrimFloat.abs
           (PrimFloat.sub
              (PrimFloat.div (double_of_int positiveReturns)
                             (double_of_size (vec_size returns)))
              0.5%float))
        2.0%float in
    (mkMomentumAlpha (mo_alphaId_ a) (mo_lookbackPeriod_ a) returns
                     (Some (md_price data)) (md_timestampNs data),
     Some (mkAlphaSignal (mo_alphaId_ a) (md_symbol data) sig consistency
                         (md_timestampNs data))).

Fixpoint MomentumAlpha_feed (a : MomentumAlpha) (ticks : list MarketData)
  : MomentumAlpha * list (option AlphaSignal) :=
  match ticks with
  | [] => (a, [])
  | d :: rest =>
      let '(a1, o) := MomentumAlpha_onMarketData a d in
      let '(a2, os) := MomentumAlpha_feed a1 rest in
      (a2, o :: os)
  end.

End Momentum.

(** A stand-in for [std::tanh] that has its two properties used below: a
    NaN argument gives NaN, any other argument gives a value in [-1, 1].
    It only shows that those properties can be met together. *)
Definition tanh_sign (x : float) : float :=
  if PrimFloat.ltb x 0%float then (-1.0)%float
  else if PrimFloat.ltb 0%float x then 1.0%float
  else x.

End Alpha.

(** ** signal-aggregator: signal_aggregator.hpp / signal_aggregator.cpp *)

Module Aggregator.
Import Cpp.

Record AlphaSignal := mkAlphaSignal {
  alphaId : string;
  symbol : string;
  signal : float;
  confidence : float;
  timestampNs : Z
}.

Record TargetPosition := mkTargetPosition {
  tp_symbol : string;
  targetQuantity : float;
  currentQuantity : float;
  tp_timestampNs : Z
}.

Module AggregatorConfig.
Definition MIN_CONFIDENCE_THRESHOLD : float := 0.3%float.
Definition MAX_SIGNALS_PER_SYMBOL : Z := 1000.
Definition SIGNAL_EXPIRY_NS : Z := 60000000000.
End AggregatorConfig.

(** The predicate of both filters:
    [sig.confidence >= AggregatorConfig::MIN_CONFIDENCE_THRESHOLD]. *)
Definition confident (sig : AlphaSignal) : bool :=
  geb (confidence sig) AggregatorConfig.MIN_CONFIDENCE_THRESHOLD.

Definition WeightedAverageAggregation_aggregate (signals : list AlphaSignal) : float :=
  match signals with
  | [] => 0%float
  | _ =>
      let filtered := List.filter confident signals in
      match filtered with
      | [] => 0%float
      | _ =>
          let weightedSum :=
            fold_left (fun sum sig =>
                         PrimFloat.add sum (PrimFloat.mul (signal sig) (confidence sig)))
                      filtered 0%float in
          let totalWeight :=
            fold_left (fun sum sig => PrimFloat.add sum (confidence sig))
                      filtered 0%float in
          PrimFloat.div weightedSum totalWeight
      end
  end.

(** [v.erase(std::remove(v.begin(), v.end(), x), v.end())]: drops every
    element that compares [==] to [x]. *)
Definition erase_remove (x : float) (v : list float) : list float :=
  List.filter (fun y => negb (PrimFloat.eqb y x)) v.

(** [std::sort] with the comparator [a < b].  Any sorting algorithm gives
    the same vector on doubles without NaN and without zeros of both
    signs; insertion sort stands for it.  With a NaN among the values
    [<] is no strict weak ordering and C++ does not define what
    [std::sort] returns: there the vector below is one rearrangement
    among others, and what is proved of it for all values relies on its
    being a rearrangement and on nothing else. *)
Fixpoint sort_insert (x : float) (v : list float) : list float :=
  match v with
  | [] => [x]
  | y :: rest => if PrimFloat.ltb x y then x :: y :: rest else y :: sort_insert x rest
  end.

Definition std_sort (v : list float) : list float := fold_right sort_insert [] v.

(** The tail of [MedianAggregation::aggregate], from the emptiness test
    on: the middle of the sorted values. *)
Definition median_of (values : list float) : float :=
  match values with
  | [] => 0%float
  | _ =>
      let sorted := std_sort values in
      let mid := vec_size sorted / 2 in
      if vec_size sorted mod 2 =? 0
      then PrimFloat.div
             (PrimFloat.add (nth (Z.to_nat (mid - 1)) sorted 0%float)
                            (nth (Z.to_nat mid) sorted 0%float))
             2.0%float
      else nth (Z.to_nat mid) sorted 0%float
  end.

Definition MedianAggregation_aggregate (signals : list AlphaSignal) : float :=
  match signals with
  | [] => 0%float
  | _ =>
      let values :=
        map (fun sig => if confident sig then signal sig else 0.0%float) signals in
      let values := erase_remove 0.0%float values in
      median_of values
  end.

(** The Median policy in the words of the specification: filter as
    WeightedAverage does, sort, take the middle. *)
Definition median_as_specified (signals : list AlphaSignal) : float :=
  median_of (map signal (List.filter confident signals)).

(** [IAggregationStrategy] and its two implementations. *)
Inductive AggregationStrategy := WeightedAverage | Median.

Definition aggregate (s : AggregationStrategy) (signals : list AlphaSignal) : float :=
  match s with
  | WeightedAverage => WeightedAverageAggregation_aggregate signals
  | Median => MedianAggregation_aggregate signals
  end.

(** [signalsBySymbol_] is a [std::unordered_map]; its iteration order is
    unspecified, and the order of [map_to_list] stands for it. *)
Record SignalAggregator := mkSignalAggregator {
  strategy_ : AggregationStrategy;
  signalsBySymbol_ : gmap string (list AlphaSignal)
}.

Definition SignalAggregator_new (s : AggregationStrategy) : SignalAggregator :=
  mkSignalAggregator s ∅.

(** [signalsBySymbol_[signal.symbol]] creates an empty vector for a new
    symbol. *)
Definition addSignal (agg : SignalAggregator) (sig : AlphaSignal) : SignalAggregator :=
  let pushed := default [] (signalsBySymbol_ agg !! symbol sig) ++ [sig] in
  let signals :=
    if vec_size pushed >? size_t_of_int AggregatorConfig.MAX_SIGNALS_PER_SYMBOL
    then erase_begin pushed else pushed in
  mkSignalAggregator (strategy_ agg) (<[symbol sig := signals]> (signalsBySymbol_ agg)).

(** [clock i] is the reading of the clock for the [i]-th entry. *)
Definition generateTargetPortfolio (agg : SignalAggregator) (clock : nat -> Z)
  : list TargetPosition :=
  imap (fun i pair =>
          mkTargetPosition (fst pair)
            (PrimFloat.mul (aggregate (strategy_ agg) (snd pair)) 1000.0%float)
            0.0%float
            (clock i))
       (map_to_list (signalsBySymbol_ agg)).

Definition getAggregatedSignal (agg : SignalAggregator) (sym : string) : option float :=
  match signalsBySymbol_ agg !! sym with
  | None => None
  | Some [] => None
  | Some signals => Some (aggregate (strategy_ agg) signals)
  end.

Definition clearSignalsOlderThan (agg : SignalAggregator) (ts : Z) : SignalAggregator :=
  mkSignalAggregator (strategy_ agg)
    (List.filter (fun sig => negb (timestampNs sig <? ts)) <$> signalsBySymbol_ agg).

End Aggregator.


(** ** risk-guardian: risk_checks.hpp / risk_checks.cpp *)

Module Risk.
Import Cpp.

Inductive OrderSide := BUY | SELL.

Inductive ViolationType :=
  FAT_FINGER | DRAWDOWN | CONCENTRATION | POSITION_LIMIT | NONE.

Record Order := mkOrder {
  orderId : string;
  symbol : string;
  quantity : float;
  side : OrderSide;
  price : float;
  timestampNs : Z
}.

Record FatFingerCheck := mkFatFingerCheck {
  ff_enabled_ : bool;
  maxAdvPercentage_ : float;
  advMap_ : gmap string float
}.

Record DrawdownCheck := mkDrawdownCheck {
  dd_enabled_ : bool;
  maxDrawdownPercentage_ : float;
  startOfDayNAV_ : float;
  currentPnL_ : float
}.

Record ConcentrationCheck := mkConcentrationCheck {
  cc_enabled_ : bool;
  maxConcentrationPercentage_ : float;
  positionValues_ : gmap string float;
  totalNAV_ : float
}.

(** The constructors: [enabled_{true}], empty maps, zero NAV and PnL. *)
Definition FatFingerCheck_new (maxAdvPercentage : float) : FatFingerCheck :=
  mkFatFingerCheck true maxAdvPercentage ∅.
Definition DrawdownCheck_new (maxDrawdownPercentage : float) : DrawdownCheck :=
  mkDrawdownCheck true maxDrawdownPercentage 0%float 0%float.
Definition ConcentrationCheck_new (maxConcentrationPercentage : float) : ConcentrationCheck :=
  mkConcentrationCheck true maxConcentrationPercentage ∅ 0%float.

Definition setADV (c : FatFingerCheck) (sym : string) (adv : float) : FatFingerCheck :=
  mkFatFingerCheck (ff_enabled_ c) (maxAdvPercentage_ c) (<[sym := adv]> (advMap_ c)).
Definition updatePnL (c : DrawdownCheck) (pnl : float) : DrawdownCheck :=
  mkDrawdownCheck (dd_enabled_ c) (maxDrawdownPercentage_ c) (startOfDayNAV_ c) pnl.
Definition updateStartOfDayNAV (c : DrawdownCheck) (nav : float) : DrawdownCheck :=
  mkDrawdownCheck (dd_enabled_ c) (maxDrawdownPercentage_ c) nav (currentPnL_ c).
Definition updatePosition (c : ConcentrationCheck) (sym : string) (qty value : float)
  : ConcentrationCheck :=
  mkConcentrationCheck (cc_enabled_ c) (maxConcentrationPercentage_ c)
                       (<[sym := value]> (positionValues_ c)) (totalNAV_ c).
Definition updateTotalNAV (c : ConcentrationCheck) (nav : float) : ConcentrationCheck :=
  mkConcentrationCheck (cc_enabled_ c) (maxConcentrationPercentage_ c)
                       (positionValues_ c) nav.

(** [IRiskCheck] and its three implementations. *)
Inductive RiskCheck :=
| CheckFatFinger (c : FatFingerCheck)
| CheckDrawdown (c : DrawdownCheck)
| CheckConcentration (c : ConcentrationCheck).

Definition isEnabled (check : RiskCheck) : bool :=
  match check with
  | CheckFatFinger c => ff_enabled_ c
  | CheckDrawdown c => dd_enabled_ c
  | CheckConcentration c => cc_enabled_ c
  end.

(** The violation kind that names a check. *)
Definition kind_of (check : RiskCheck) : ViolationType :=
  match check with
  | CheckFatFinger _ => FAT_FINGER
  | CheckDrawdown _ => DRAWDOWN
  | CheckConcentration _ => CONCENTRATION
  end.

Definition setEnabled (check : RiskCheck) (enabled : bool) : RiskCheck :=
  match check with
  | CheckFatFinger c =>
      CheckFatFinger (mkFatFingerCheck enabled (maxAdvPercentage_ c) (advMap_ c))
  | CheckDrawdown c =>
      CheckDrawdown (mkDrawdownCheck enabled (maxDrawdownPercentage_ c)
                                     (startOfDayNAV_ c) (currentPnL_ c))
  | CheckConcentration c =>
      CheckConcentration (mkConcentrationCheck enabled (maxConcentrationPercentage_ c)
                                               (positionValues_ c) (totalNAV_ c))
  end.

Record RiskCheckResult := mkRiskCheckResult {
  approved : bool;
  violations : list ViolationType;
  reason : string
}.

(** [RiskCheckResult() : approved(true) {}]. *)
Definition RiskCheckResult_new : RiskCheckResult := mkRiskCheckResult true [] "".

Definition addViolation (r : RiskCheckResult) (type : ViolationType) (msg : string)
  : RiskCheckResult :=
  let sep := match reason r with
             | EmptyString => reason r
             | _ => String.append (reason r) "; "
             end in
  mkRiskCheckResult false (violations r ++ [type]) (String.append sep msg).

Section Checks.

(** [std::to_string(double)] of the C++ library, which is not part of the
    repository. *)
Variable to_string : float -> string.

(** [validate(order, reason)]: the verdict and the content of the
    caller's [reason] afterwards; [reason] is written only on rejection. *)
Definition FatFingerCheck_validate (c : FatFingerCheck) (order : Order) (reason : string)
  : bool * string :=
  match advMap_ c !! symbol order with
  | None => (true, reason)
  | Some adv =>
      let maxAllowedQty := PrimFloat.mul adv (maxAdvPercentage_ c) in
      if gtb (PrimFloat.abs (quantity order)) maxAllowedQty
      then (false,
            String.append "Order quantity "
              (String.append (to_string (quantity order))
                 (String.append " exceeds "
                    (String.append (to_string (PrimFloat.mul (maxAdvPercentage_ c) 100%float))
                       (String.append "% of ADV ("
                          (String.append (to_string maxAllowedQty) ")"))))))
      else (true, reason)
  end.

Definition DrawdownCheck_validate (c : DrawdownCheck) (order : Order) (reason : string)
  : bool * string :=
  if PrimFloat.leb (startOfDayNAV_ c) 0%float then (true, reason)
  else
    let currentDrawdown := PrimFloat.div (PrimFloat.opp (currentPnL_ c)) (startOfDayNAV_ c) in
    if gtb currentDrawdown (maxDrawdownPercentage_ c)
    then match side order with
         | BUY =>
             (false,
              String.append "Strategy is in "
                (String.append (to_string (PrimFloat.mul currentDrawdown 100%float))
                   (String.append "% drawdown, exceeds limit of "
                      (String.append
                         (to_string (PrimFloat.mul (maxDrawdownPercentage_ c) 100%float))
                         "%"))))
         | SELL => (true, reason)
         end
    else (true, reason).

Definition ConcentrationCheck_validate (c : ConcentrationCheck) (order : Order)
  (reason : string) : bool * string :=
  if PrimFloat.leb (totalNAV_ c) 0%float then (true, reason)
  else
    let currentValue := default 0%float (positionValues_ c !! symbol order) in
    let newValue :=
      PrimFloat.add currentValue (PrimFloat.mul (quantity order) (price order)) in
    let concentration := PrimFloat.div (PrimFloat.abs newValue) (totalNAV_ c) in
    if gtb concentration (maxConcentrationPercentage_ c)
    then (false,
          String.append "Order would result in "
            (String.append (to_string (PrimFloat.mul concentration 100%float))
               (String.append "% concentration in "
                  (String.append (symbol order)
                     (String.append ", exceeds limit of "
                        (String.append
                           (to_string
                              (PrimFloat.mul (maxConcentrationPercentage_ c) 100%float))
                           "%"))))))
    else (true, reason).

Definition validate (check : RiskCheck) (order : Order) (reason : string) : bool * string :=
  match check with
  | CheckFatFinger c => FatFingerCheck_validate c order reason
  | CheckDrawdown c => DrawdownCheck_validate c order reason
  | CheckConcentration c => ConcentrationCheck_validate c order reason
  end.

(** The loop of [RiskCheckAggregator::validateAll], from a given
    [result] and local [reason]. *)
Fixpoint validateAll_loop (checks : list RiskCheck) (order : Order)
  (result : RiskCheckResult) (reason : string) : RiskCheckResult :=
  match checks with
  | [] => result
  | check :: rest =>
      if negb (isEnabled check) then validateAll_loop rest order result reason
      else
        let '(ok, reason') := validate check order reason in
        if negb ok
        then validateAll_loop rest order (addViolation result NONE reason') reason'
        else validateAll_loop rest order result reason'
  end.

Definition validateAll (checks : list RiskCheck) (order : Order) : RiskCheckResult :=
  validateAll_loop checks order RiskCheckResult_new "".

(** The enabled checks that reject [order], in the order of [checks_]. *)
Definition failing (checks : list RiskCheck) (order : Order) : list RiskCheck :=
  List.filter (fun check => isEnabled check && negb (fst (validate check order ""))) checks.

(** What [validateAll] adds to [result] for a failing check whose
    message does not depend on the previous [reason]. *)
Definition record_failure (order : Order) (result : RiskCheckResult) (check : RiskCheck)
  : RiskCheckResult :=
  addViolation result NONE (snd (validate check order "")).

End Checks.

(** A stand-in for [std::to_string], to run the checks on examples. *)
Definition to_string_opaque (x : float) : string := "<double>".

End Risk.

(** ** risk-guardian: risk_guardian.hpp / risk_guardian.cpp *)

Module Guardian.
Import Cpp.

Record Position := mkPosition {
  symbol : string;
  quantity : float;
  avgCost : float;
  unrealizedPnL : float;
  realizedPnL : float
}.

(** [Position() : quantity(0), avgCost(0), unrealizedPnL(0), realizedPnL(0) {}]. *)
Definition Position_new : Position := mkPosition "" 0%float 0%float 0%float 0%float.

(** [positions_]: each [shared_ptr<Position>] is the entry of its symbol;
    a write through the pointer is a write to that entry. *)
Record PositionManager := mkPositionManager {
  positions_ : gmap string Position
}.

Definition PositionManager_new : PositionManager := mkPositionManager ∅.

(** [getPosition]: the manager afterwards and the position pointed to. *)
Definition getPosition (pm : PositionManager) (sym : string) : PositionManager * Position :=
  match positions_ pm !! sym with
  | None =>
      let position :=
        mkPosition sym (quantity Position_new) (avgCost Position_new)
                   (unrealizedPnL Position_new) (realizedPnL Position_new) in
      (mkPositionManager (<[sym := position]> (positions_ pm)), position)
  | Some position => (pm, position)
  end.

(** The fields written by [updatePosition]. *)
Definition updated (position : Position) (qty price : float) : Position :=
  let oldQty := quantity position in
  let newQty := PrimFloat.add oldQty qty in
  let avg :=
    if negb (PrimFloat.eqb newQty 0%float)
    then PrimFloat.div
           (PrimFloat.add (PrimFloat.mul oldQty (avgCost position))
                          (PrimFloat.mul qty price))
           newQty
    else 0%float in
  mkPosition (symbol position) newQty avg (unrealizedPnL position) (realizedPnL position).

Definition updatePosition (pm : PositionManager) (sym : string) (qty price : float)
  : PositionManager :=
  let '(pm1, position) := getPosition pm sym in
  mkPositionManager (<[sym := updated position qty price]> (positions_ pm1)).

(** The operations of the repository that write [positions_]. *)
Inductive Operation :=
| OpGetPosition (sym : string)
| OpUpdatePosition (sym : string) (qty price : float).

Definition run_operation (pm : PositionManager) (op : Operation) : PositionManager :=
  match op with
  | OpGetPosition sym => fst (getPosition pm sym)
  | OpUpdatePosition sym qty price => updatePosition pm sym qty price
  end.

Definition run_operations (ops : list Operation) : PositionManager :=
  fold_left run_operation ops PositionManager_new.

(** [getAllPositions]: the positions, in the iteration order of the
    map. *)
Definition getAllPositions (pm : PositionManager) : list Position :=
  map snd (map_to_list (positions_ pm)).

(** [calculateTotalExposure]: [totalExposure += std::abs(quantity *
    avgCost)] over the map, from 0.0. *)
Definition calculateTotalExposure (pm : PositionManager) : float :=
  fold_left (fun totalExposure pair =>
               PrimFloat.add totalExposure
                 (PrimFloat.abs (PrimFloat.mul (quantity (snd pair)) (avgCost (snd pair)))))
            (map_to_list (positions_ pm)) 0.0%float.

(** [getStats]: the number of positions, a [size_t], and the exposure. *)
Definition getStats (pm : PositionManager) : Z * float :=
  (Z.of_nat (size (positions_ pm)), calculateTotalExposure pm).

(** The symbol an operation names. *)
Definition operation_symbol (op : Operation) : string :=
  match op with
  | OpGetPosition sym => sym
  | OpUpdatePosition sym _ _ => sym
  end.

(** [RiskGuardian]; the three counters are [uint64_t]. *)
Record RiskGuardian := mkRiskGuardian {
  positionManager_ : PositionManager;
  checkAggregator_ : list Risk.RiskCheck;
  validationCount_ : Z;
  approvedCount_ : Z;
  rejectedCount_ : Z;
  marketPrices_ : gmap string float;
  currentNAV_ : float
}.

Record RiskGuardianBuilder := mkRiskGuardianBuilder {
  initialNAV_ : float;
  fatFingerEnabled_ : bool;
  fatFingerMaxAdv_ : float;
  drawdownEnabled_ : bool;
  drawdownMax_ : float;
  concentrationEnabled_ : bool;
  concentrationMax_ : float
}.

Definition RiskGuardianBuilder_new : RiskGuardianBuilder :=
  mkRiskGuardianBuilder 1000000.0%float false 0.05%float false 0.05%float false 0.10%float.

Definition withInitialNAV (b : RiskGuardianBuilder) (nav : float) : RiskGuardianBuilder :=
  mkRiskGuardianBuilder nav (fatFingerEnabled_ b) (fatFingerMaxAdv_ b) (drawdownEnabled_ b)
                        (drawdownMax_ b) (concentrationEnabled_ b) (concentrationMax_ b).

Definition withFatFingerCheck (b : RiskGuardianBuilder) (maxAdvPercentage : float)
  : RiskGuardianBuilder :=
  mkRiskGuardianBuilder (initialNAV_ b) true maxAdvPercentage (drawdownEnabled_ b)
                        (drawdownMax_ b) (concentrationEnabled_ b) (concentrationMax_ b).

Definition withDrawdownCheck (b : RiskGuardianBuilder) (maxDrawdownPercentage : float)
  : RiskGuardianBuilder :=
  mkRiskGuardianBuilder (initialNAV_ b) (fatFingerEnabled_ b) (fatFingerMaxAdv_ b) true
                        maxDrawdownPercentage (concentrationEnabled_ b) (concentrationMax_ b).

Definition withConcentrationCheck (b : RiskGuardianBuilder) (maxConcentrationPercentage : float)
  : RiskGuardianBuilder :=
  mkRiskGuardianBuilder (initialNAV_ b) (fatFingerEnabled_ b) (fatFingerMaxAdv_ b)
                        (drawdownEnabled_ b) (drawdownMax_ b) true maxConcentrationPercentage.

(** [RiskGuardianBuilder::build]: the checks are constructed here and
    added in this order. *)
Definition build (b : RiskGuardianBuilder) : RiskGuardian :=
  let checks1 :=
    if fatFingerEnabled_ b
    then [Risk.CheckFatFinger (Risk.FatFingerCheck_new (fatFingerMaxAdv_ b))] else [] in
  let checks2 :=
    if drawdownEnabled_ b
    then checks1 ++ [Risk.CheckDrawdown (Risk.DrawdownCheck_new (drawdownMax_ b))]
    else checks1 in
  let checks3 :=
    if concentrationEnabled_ b
    then checks2 ++ [Risk.CheckConcentration
                       (Risk.ConcentrationCheck_new (concentrationMax_ b))]
    else checks2 in
  mkRiskGuardian PositionManager_new checks3 0 0 0 ∅ (initialNAV_ b).

Section GuardianCalls.

Variable to_string : float -> string.

(** [validateOrder(order)]: the guardian afterwards and the result.  The
    clock readings only feed a comparison whose branch is empty. *)
Definition validateOrder (g : RiskGuardian) (order : Risk.Order)
  : RiskGuardian * Risk.RiskCheckResult :=
  let result := Risk.validateAll to_string (checkAggregator_ g) order in
  let validations := (validationCount_ g + 1) mod 2 ^ 64 in
  (if Risk.approved result
   then mkRiskGuardian (positionManager_ g) (checkAggregator_ g) validations
                       ((approvedCount_ g + 1) mod 2 ^ 64) (rejectedCount_ g)
                       (marketPrices_ g) (currentNAV_ g)
   else mkRiskGuardian (positionManager_ g) (checkAggregator_ g) validations
                       (approvedCount_ g) ((rejectedCount_ g + 1) mod 2 ^ 64)
                       (marketPrices_ g) (currentNAV_ g),
   result).

(** [validateOrder(symbol, quantity, side, price)]; [now] is the reading
    of the clock, and [orderId] is left empty. *)
Definition validateOrder_fields (g : RiskGuardian) (sym : string) (qty : float)
  (side : Risk.OrderSide) (price : float) (now : Z)
  : RiskGuardian * Risk.RiskCheckResult :=
  validateOrder g (Risk.mkOrder "" sym qty side price now).

Definition RiskGuardian_updatePosition (g : RiskGuardian) (sym : string)
  (executedQty executedPrice : float) : RiskGuardian :=
  mkRiskGuardian (updatePosition (positionManager_ g) sym executedQty executedPrice)
                 (checkAggregator_ g) (validationCount_ g) (approvedCount_ g)
                 (rejectedCount_ g) (marketPrices_ g) (currentNAV_ g).

Definition updateMarketPrice (g : RiskGuardian) (sym : string) (price : float)
  : RiskGuardian :=
  mkRiskGuardian (positionManager_ g) (checkAggregator_ g) (validationCount_ g)
                 (approvedCount_ g) (rejectedCount_ g)
                 (<[sym := price]> (marketPrices_ g)) (currentNAV_ g).

(** The calls of a client of the guardian, and a run of them from a
    guardian just built, with the results of the validations. *)
Inductive Call :=
| CallValidateOrder (order : Risk.Order)
| CallUpdatePosition (sym : string) (executedQty executedPrice : float)
| CallUpdateMarketPrice (sym : string) (price : float).

Definition call (st : RiskGuardian * list Risk.RiskCheckResult) (c : Call)
  : RiskGuardian * list Risk.RiskCheckResult :=
  let '(g, results) := st in
  match c with
  | CallValidateOrder order =>
      let '(g1, result) := validateOrder g order in (g1, results ++ [result])
  | CallUpdatePosition sym qty price => (RiskGuardian_updatePosition g sym qty price, results)
  | CallUpdateMarketPrice sym price => (updateMarketPrice g sym price, results)
  end.

Definition run_calls (b : RiskGuardianBuilder) (calls : list Call)
  : RiskGuardian * list Risk.RiskCheckResult :=
  fold_left call calls (build b, []).

Definition is_validation (c : Call) : bool :=
  match c with CallValidateOrder _ => true | _ => false end.

End GuardianCalls.

(** A check as [build] constructs it: no ADV, no start-of-day NAV, no
    total NAV. *)
Definition without_data (check : Risk.RiskCheck) : Prop :=
  match check with
  | Risk.CheckFatFinger c => Risk.advMap_ c = ∅
  | Risk.CheckDrawdown c => Risk.startOfDayNAV_ c = 0%float
  | Risk.CheckConcentration c => Risk.totalNAV_ c = 0%float
  end.

End Guardian.


(** ** data-feed-handler: data_types.hpp / data_types.cpp *)

Module DataFeed.
Import Cpp.

Inductive AssetType := EQUITY | FUTURE | OPTION | UNKNOWN_ASSET.
Inductive Exchange := NYSE | NASDAQ | CME | UNKNOWN_EXCHANGE.

Record MarketData := mkMarketData {
  symbol : string;
  bidPrice : float;
  askPrice : float;
  lastPrice : float;
  bidSize : Z;
  askSize : Z;
  volume : Z;
  timestampNs : Z;
  assetType : AssetType;
  exchange : Exchange
}.

Definition midPrice (d : MarketData) : float :=
  PrimFloat.div (PrimFloat.add (bidPrice d) (askPrice d)) 2.0%float.

Definition spread (d : MarketData) : float :=
  PrimFloat.sub (askPrice d) (bidPrice d).

(** The byte at [rawData + i].  The caller owns at least [length] bytes;
    a position past the end of the list reads as zero. *)
Definition byte_at (rawData : list byte) (i : Z) : Z :=
  Z.of_N (Byte.to_N (nth (Z.to_nat i) rawData x00)).

(** [memcpy] of eight bytes into a 64-bit object on a little-endian
    target: the bit pattern as an unsigned integer. *)
Definition load64 (rawData : list byte) (offset : Z) : Z :=
  fold_right (fun i acc => byte_at rawData (offset + i) + 256 * acc) 0
             [0; 1; 2; 3; 4; 5; 6; 7].

(** The binary64 value of a bit pattern: sign bit, 11 exponent bits, 52
    fraction bits. *)
Definition double_of_bits (bits : Z) : float :=
  let s := Z.testbit bits 63 in
  let e := Z.land (Z.shiftr bits 52) 2047 in
  let m := Z.land bits (2 ^ 52 - 1) in
  if (e =? 2047)%Z then
    if (m =? 0)%Z then (if s then neg_infinity else infinity) else nan
  else if (e =? 0)%Z then
    match m with
    | Zpos p => SF2Prim (S754_finite s p (-1074))
    | _ => if s then neg_zero else zero
    end
  else
    match (m + 2 ^ 52)%Z with
    | Zpos p => SF2Prim (S754_finite s p (e - 1075)%Z)
    | _ => nan
    end.

(** The [int64_t] value of a bit pattern: two's complement. *)
Definition int64_of_bits (bits : Z) : Z :=
  if bits <? 2 ^ 63 then bits else bits - 2 ^ 64.

(** [parseField<double>] and [parseField<int64_t>]. *)
Definition parseField_double (rawData : list byte) (offset : Z) : float :=
  double_of_bits (load64 rawData offset).
Definition parseField_int64 (rawData : list byte) (offset : Z) : Z :=
  int64_of_bits (load64 rawData offset).

(** The [std::string] built from a zero-terminated [char] buffer. *)
Fixpoint c_string (buf : list byte) : string :=
  match buf with
  | [] => EmptyString
  | b :: rest =>
      match b with
      | x00 => EmptyString
      | _ => String (Ascii.ascii_of_byte b) (c_string rest)
      end
  end.

(** [char symbolBuf[16] = {0}; memcpy(symbolBuf, rawData + 56,
    min(length - 56, sizeof(symbolBuf) - 1)); data.symbol = symbolBuf]. *)
Definition parse_symbol (rawData : list byte) (length : Z) : string :=
  let n := Z.min (length - 56) (16 - 1) in
  c_string (map (fun i => nth (56 + i)%nat rawData x00) (seq 0 (Z.to_nat n))).

(** [DataNormalizer::validate]. *)
Definition DataNormalizer_validate (data : MarketData) : bool :=
  gtb (bidPrice data) 0%float && gtb (askPrice data) 0%float
  && geb (askPrice data) (bidPrice data).

Definition NYSENormalizer_validate (data : MarketData) : bool :=
  if negb (DataNormalizer_validate data) then false
  else if gtb (spread data) (PrimFloat.mul (midPrice data) 0.1%float) then false
  else true.

(** The fields of [data] as [NYSENormalizer::normalize] has parsed them
    when it calls [validate]. *)
Definition NYSENormalizer_parse (rawData : list byte) (length : Z) : MarketData :=
  mkMarketData
    (parse_symbol rawData length)
    (parseField_double rawData 0)
    (parseField_double rawData 8)
    (parseField_double rawData 16)
    (parseField_int64 rawData 24)
    (parseField_int64 rawData 32)
    (parseField_int64 rawData 40)
    (parseField_int64 rawData 48)
    EQUITY NYSE.

Definition NYSENormalizer_normalize (rawData : list byte) (length : Z) : option MarketData :=
  if length <? 64 then None
  else
    let data := NYSENormalizer_parse rawData length in
    if negb (NYSENormalizer_validate data) then None else Some data.

(** The spread bound of the specification on a tick:
    [ask - bid <= 0.1 * (ask + bid) / 2]. *)
Definition spread_within_bound (d : MarketData) : bool :=
  PrimFloat.leb (spread d) (PrimFloat.mul (midPrice d) 0.1%float).

(** Eight little-endian bytes of a 64-bit pattern, to build frames. *)
Definition bytes_of_bits (bits : Z) : list byte :=
  map (fun i => default x00 (Byte.of_N (Z.to_N (Z.land (Z.shiftr bits (8 * i)) 255))))
      [0; 1; 2; 3; 4; 5; 6; 7].

(** A 64-byte NYSE frame from the bit patterns of its three prices, with
    sizes and volume 1, timestamp 0 and the symbol AAPL. *)
Definition nyse_frame (bid ask last : Z) : list byte :=
  bytes_of_bits bid ++ bytes_of_bits ask ++ bytes_of_bits last
  ++ bytes_of_bits 1 ++ bytes_of_bits 1 ++ bytes_of_bits 1 ++ bytes_of_bits 0
  ++ ["A"; "A"; "P"; "L"; x00; x00; x00; x00]%byte.

(** [NASDAQNormalizer::normalize]: the NASDAQ layout, and the base
    [validate], which the class does not override. *)
Definition NASDAQNormalizer_parse (rawData : list byte) (length : Z) : MarketData :=
  mkMarketData
    (parse_symbol rawData length)
    (parseField_double rawData 8)
    (parseField_double rawData 16)
    (parseField_double rawData 0)
    (parseField_int64 rawData 32)
    (parseField_int64 rawData 40)
    (parseField_int64 rawData 24)
    (parseField_int64 rawData 48)
    EQUITY NASDAQ.

Definition NASDAQNormalizer_normalize (rawData : list byte) (length : Z) : option MarketData :=
  if length <? 64 then None
  else
    let data := NASDAQNormalizer_parse rawData length in
    if negb (DataNormalizer_validate data) then None else Some data.

(** ** data-feed-handler: data_feed_handler.hpp / data_feed_handler.cpp *)

(** The two classes derived from [DataNormalizer]. *)
Inductive Normalizer := NYSENormalizer | NASDAQNormalizer.

Definition normalize (n : Normalizer) (rawData : list byte) (length : Z) : option MarketData :=
  match n with
  | NYSENormalizer => NYSENormalizer_normalize rawData length
  | NASDAQNormalizer => NASDAQNormalizer_normalize rawData length
  end.

(** The normalizer objects that [std::make_shared] has created, each with
    its number of owning [shared_ptr]s; an object is destroyed when the
    number reaches zero.  The position in the list is the address. *)
Definition Objects := list (Normalizer * nat).

(** [std::make_shared<N>()]: a new object with one owner, the pointer
    returned. *)
Definition make_shared (objects : Objects) (n : Normalizer) : Objects * nat :=
  (objects ++ [(n, 1%nat)], length objects).

(** The destruction of an owning [shared_ptr] to the object. *)
Definition release (objects : Objects) (p : nat) : Objects :=
  match objects !! p with
  | Some (n, owners) => <[p := (n, Nat.pred owners)]> objects
  | None => objects
  end.

(** [weak_ptr::lock]: the object, if it still has an owner. *)
Definition lock (objects : Objects) (p : nat) : option Normalizer :=
  match objects !! p with
  | Some (n, S _) => Some n
  | _ => None
  end.

(** The counters are [std::atomic<int64_t>]; [++] wraps around. *)
Definition int64_incr (n : Z) : Z := (n + 1 + 2 ^ 63) mod 2 ^ 64 - 2 ^ 63.

(** The handler: the callbacks, known by a name of type [Callback], and
    the weak pointers to the normalizers. *)
Record DataFeedHandler (Callback : Type) := mkDataFeedHandler {
  callbacks_ : list Callback;
  normalizers_ : list nat;
  packetsReceived_ : Z;
  packetsProcessed_ : Z
}.
Arguments mkDataFeedHandler {Callback}.
Arguments callbacks_ {Callback}.
Arguments normalizers_ {Callback}.
Arguments packetsReceived_ {Callback}.
Arguments packetsProcessed_ {Callback}.

Module Config.
Definition MAX_PACKET_SIZE : Z := 65536.
End Config.

Section Handler.

Context {Callback : Type}.

(** [DataFeedHandlerFactory::createHandler]. *)
Definition createHandler : DataFeedHandler Callback := mkDataFeedHandler [] [] 0 0.

Definition registerCallback (h : DataFeedHandler Callback) (callback : Callback)
  : DataFeedHandler Callback :=
  mkDataFeedHandler (callbacks_ h ++ [callback]) (normalizers_ h)
                    (packetsReceived_ h) (packetsProcessed_ h).

(** [registerNormalizer(exchange, normalizer)] stores a weak pointer; the
    exchange is not used.  The argument [normalizer] is a [shared_ptr]
    passed by value: when the caller passes a pointer it keeps, the owners
    of the object are the same after the call. *)
Definition registerNormalizer (h : DataFeedHandler Callback) (exchange : Exchange) (p : nat)
  : DataFeedHandler Callback :=
  mkDataFeedHandler (callbacks_ h) (normalizers_ h ++ [p])
                    (packetsReceived_ h) (packetsProcessed_ h).

(** [handler->registerNormalizer(exchange, std::make_shared<N>())], as in
    [main]: the only owner of the new object is the argument, which is
    destroyed when the call returns. *)
Definition registerNormalizer_temporary (st : DataFeedHandler Callback * Objects)
  (exchange : Exchange) (n : Normalizer) : DataFeedHandler Callback * Objects :=
  let '(h, objects) := st in
  let '(objects1, p) := make_shared objects n in
  (registerNormalizer h exchange p, release objects1 p).

(** The loop of [processPacket] over the weak pointers: the first
    normalizer that is alive and returns a tick. *)
Fixpoint first_tick (objects : Objects) (normalizers : list nat) (data : list byte)
  (length : Z) : option MarketData :=
  match normalizers with
  | [] => None
  | p :: rest =>
      match lock objects p with
      | Some n =>
          match normalize n data length with
          | Some tick => Some tick
          | None => first_tick objects rest data length
          end
      | None => first_tick objects rest data length
      end
  end.

(** [processPacket]: the handler afterwards and the callback calls made. *)
Definition processPacket (h : DataFeedHandler Callback) (objects : Objects)
  (data : list byte) (length : Z) : DataFeedHandler Callback * list (Callback * MarketData) :=
  match first_tick objects (normalizers_ h) data length with
  | Some tick =>
      (mkDataFeedHandler (callbacks_ h) (normalizers_ h) (packetsReceived_ h)
                         (int64_incr (packetsProcessed_ h)),
       map (fun callback => (callback, tick)) (callbacks_ h))
  | None => (h, [])
  end.

(** [recvfrom] into the buffer of [MAX_PACKET_SIZE] bytes that
    [listenerLoop] reuses: the bytes of the datagram that fit replace the
    beginning of the buffer, the rest of the buffer is as the earlier
    datagrams left it, and the number of bytes stored is returned. *)
Definition recvfrom (buffer datagram : list byte) : list byte * Z :=
  let stored := take (Z.to_nat Config.MAX_PACKET_SIZE) datagram in
  (stored ++ drop (Datatypes.length stored) buffer, Z.of_nat (Datatypes.length stored)).

(** One turn of the loop of [listenerLoop] in which a datagram arrives. *)
Definition listenerLoop_turn (h : DataFeedHandler Callback) (objects : Objects)
  (buffer datagram : list byte)
  : DataFeedHandler Callback * list byte * list (Callback * MarketData) :=
  let '(buffer1, recvLen) := recvfrom buffer datagram in
  if recvLen >? 0
  then
    let h1 := mkDataFeedHandler (callbacks_ h) (normalizers_ h)
                                (int64_incr (packetsReceived_ h)) (packetsProcessed_ h) in
    let '(h2, calls) := processPacket h1 objects buffer1 recvLen in
    (h2, buffer1, calls)
  else (h, buffer1, []).

(** The datagrams of a run, received in order by a handler whose
    normalizers and callbacks are registered, from a zeroed buffer. *)
Fixpoint listen (h : DataFeedHandler Callback) (objects : Objects) (buffer : list byte)
  (datagrams : list (list byte))
  : DataFeedHandler Callback * list (Callback * MarketData) :=
  match datagrams with
  | [] => (h, [])
  | datagram :: rest =>
      let '(h1, buffer1, calls) := listenerLoop_turn h objects buffer datagram in
      let '(h2, calls') := listen h1 objects buffer1 rest in
      (h2, calls ++ calls')
  end.

(** The handler of [main]: both normalizers are registered from
    temporaries, then the callback. *)
Definition main_handler (callback : Callback) : DataFeedHandler Callback * Objects :=
  let st := registerNormalizer_temporary (createHandler, []) NYSE NYSENormalizer in
  let '(h, objects) := registerNormalizer_temporary st NASDAQ NASDAQNormalizer in
  (registerCallback h callback, objects).

(** The calls that deliver each tick of [ticks], in order, to every
    callback of [callbacks], in order. *)
Definition deliveries (callbacks : list Callback) (ticks : list MarketData)
  : list (Callback * MarketData) :=
  flat_map (fun tick => map (fun callback => (callback, tick)) callbacks) ticks.

End Handler.

(** The datagrams that carry at least one byte. *)
Definition carrying (datagrams : list (list byte)) : list (list byte) :=
  List.filter (fun datagram => match datagram with [] => false | _ => true end) datagrams.

(** The tick that a datagram gives: that of the first normalizer, in the
    order of registration, that is alive and returns one for the bytes
    received, which are those of the datagram that fit the buffer. *)
Definition tick_of_datagram (objects : Objects) (normalizers : list nat)
  (datagram : list byte) : option MarketData :=
  let received := take (Z.to_nat Config.MAX_PACKET_SIZE) datagram in
  head (omap (fun p => match lock objects p with
                       | Some n => normalize n received (vec_size received)
                       | None => None
                       end)
             normalizers).

(** The ticks that the datagrams give, in the order of arrival. *)
Definition ticks_of (objects : Objects) (normalizers : list nat)
  (datagrams : list (list byte)) : list MarketData :=
  omap (tick_of_datagram objects normalizers) (carrying datagrams).

(** The buffer of [listenerLoop] as it is constructed: 65536 zero bytes. *)
Definition fresh_buffer : list byte := repeat x00 (Z.to_nat Config.MAX_PACKET_SIZE).

End DataFeed.


(** ** The scenarios and the properties stated of them *)

(** Scenario 1: MeanReversion with W = 3, initialised, fed 10, 10, 10 and
    then 13.  The property: the first three ticks emit nothing, the fourth
    emits a signal of value -1 whose window has mean [mu], standard
    deviation about [sigma] and z-score about [z], with confidence about
    [conf]. *)
Definition scenario1_start : Alpha.MeanReversionAlpha :=
  Alpha.MeanReversionAlpha_initialize (Alpha.MeanReversionAlpha_new "MeanReversion_0" 3).

Definition scenario1_holds (mu sigma z conf : float) : Prop :=
  let '(a3, outs) :=
    Alpha.MeanReversionAlpha_feed scenario1_start (map Alpha.tick [10; 10; 10]%float) in
  outs = [None; None; None] /\
  let '(a4, out4) := Alpha.MeanReversionAlpha_onMarketData a3 (Alpha.tick 13%float) in
  exists sig,
    out4 = Some sig /\
    PrimFloat.eqb (Alpha.calculateMean (Alpha.mr_priceHistory_ a4)) mu = true /\
    Cpp.near (Alpha.calculateStdDev (Alpha.mr_priceHistory_ a4)) sigma = true /\
    Cpp.near (Alpha.zScore (Alpha.mr_priceHistory_ a4) 13%float) z = true /\
    PrimFloat.eqb (Alpha.signal sig) (-1.0)%float = true /\
    Cpp.near (Alpha.confidence sig) conf = true.

(** Three signals above the confidence threshold, one of value zero. *)
Definition signals_with_zero : list Aggregator.AlphaSignal :=
  [ Aggregator.mkAlphaSignal "Alpha_0" "AAPL" 0.0%float 0.9%float 1;
    Aggregator.mkAlphaSignal "Alpha_1" "AAPL" 0.5%float 0.9%float 2;
    Aggregator.mkAlphaSignal "Alpha_2" "AAPL" 1.0%float 0.9%float 3 ].

(** An aggregator that received one AAPL signal stamped 100 and then
    evicted everything older than 101. *)
Definition evicted_signal : Aggregator.AlphaSignal :=
  Aggregator.mkAlphaSignal "Alpha_0" "AAPL" 0.8%float 0.9%float 100.

Definition evicted_state (s : Aggregator.AggregationStrategy) : Aggregator.SignalAggregator :=
  Aggregator.clearSignalsOlderThan
    (Aggregator.addSignal (Aggregator.SignalAggregator_new s) evicted_signal) 101.

(** The target portfolio as the specification describes it: an entry for
    exactly the symbols with a non-empty buffer, each with the scaled
    aggregate as target and a current quantity of zero. *)
Definition has_entry (portfolio : list Aggregator.TargetPosition) (sym : string) : Prop :=
  exists pos, In pos portfolio /\ Aggregator.tp_symbol pos = sym.

Definition entry_of_buffer (agg : Aggregator.SignalAggregator)
  (pos : Aggregator.TargetPosition) : Prop :=
  exists buf,
    Aggregator.signalsBySymbol_ agg !! Aggregator.tp_symbol pos = Some buf /\
    Aggregator.targetQuantity pos =
      PrimFloat.mul (Aggregator.aggregate (Aggregator.strategy_ agg) buf) 1000.0%float /\
    Aggregator.currentQuantity pos = 0.0%float.

Definition portfolio_of_nonempty_buffers (agg : Aggregator.SignalAggregator)
  (clock : nat -> Z) : Prop :=
  let portfolio := Aggregator.generateTargetPortfolio agg clock in
  (forall sym, has_entry portfolio sym <->
               exists buf, Aggregator.signalsBySymbol_ agg !! sym = Some buf /\ buf <> []) /\
  (forall pos, In pos portfolio -> entry_of_buffer agg pos).

(** A battery of the three checks with the data of scenarios 3 to 5: ADV
    of AAPL 1 000 000 and a 5% cap, start-of-day NAV 1 000 000 with a PnL
    of -60 000 and a 5% drawdown limit, total NAV 1 000 000 and a 10%
    concentration limit; and orders of AAPL at 150, the large one of
    60 000. *)
Definition scenario_fat_finger : Risk.FatFingerCheck :=
  Risk.setADV (Risk.FatFingerCheck_new 0.05%float) "AAPL" 1000000%float.

Definition scenario_drawdown : Risk.DrawdownCheck :=
  Risk.updatePnL (Risk.updateStartOfDayNAV (Risk.DrawdownCheck_new 0.05%float) 1000000%float)
                 (-60000)%float.

Definition scenario_concentration : Risk.ConcentrationCheck :=
  Risk.updateTotalNAV (Risk.ConcentrationCheck_new 0.10%float) 1000000%float.

Definition scenario_battery : list Risk.RiskCheck :=
  [ Risk.CheckFatFinger scenario_fat_finger;
    Risk.CheckDrawdown scenario_drawdown;
    Risk.CheckConcentration scenario_concentration ].

Definition order_of (qty : float) (s : Risk.OrderSide) : Risk.Order :=
  Risk.mkOrder "Order_0" "AAPL" qty s 150%float 0.

Definition large_order (s : Risk.OrderSide) : Risk.Order := order_of 60000%float s.

(** The result the violations of which name the failing checks. *)
Definition violations_name_checks (to_string : float -> string)
  (checks : list Risk.RiskCheck) (order : Risk.Order) : Prop :=
  Risk.violations (Risk.validateAll to_string checks order)
  = map Risk.kind_of (Risk.failing to_string checks order).

(** No output of a run is a signal. *)
Definition silent (outs : list (option Alpha.AlphaSignal)) : Prop :=
  Forall (fun out => out = None) outs.

(** After [shutdown()], no tick makes the strategy emit: the consequence
    of being marked uninitialised, for each of the two strategies. *)
Definition shutdown_silences_mean_reversion : Prop :=
  forall (a : Alpha.MeanReversionAlpha) (ticks : list Alpha.MarketData),
    silent (snd (Alpha.MeanReversionAlpha_feed (Alpha.MeanReversionAlpha_shutdown a) ticks)).

Definition shutdown_silences_momentum : Prop :=
  forall (tanh : float -> float) (a : Alpha.MomentumAlpha) (ticks : list Alpha.MarketData),
    silent (snd (Alpha.MomentumAlpha_feed tanh (Alpha.MomentumAlpha_shutdown a) ticks)).

(** The ticks of a momentum strategy that count towards its lookback:
    the returns it holds, and the price it holds. *)
Definition seen (a : Alpha.MomentumAlpha) : Z :=
  match Alpha.mo_lastPrice_ a with
  | None => Cpp.vec_size (Alpha.mo_returns_ a)
  | Some _ => Cpp.vec_size (Alpha.mo_returns_ a) + 1
  end.

(** Scenario 2: Momentum with L = 3 and the prices 100, 101, 102, 103. *)
Definition scenario2_start : Alpha.MomentumAlpha := Alpha.MomentumAlpha_new "Momentum_0" 3.
Definition scenario2_ticks : list Alpha.MarketData :=
  map Alpha.tick [100; 101; 102; 103]%float.

(** Momentum with L = 1 and two ticks whose price is zero. *)
Definition zero_price_start : Alpha.MomentumAlpha :=
  Alpha.MomentumAlpha_initialize (Alpha.MomentumAlpha_new "Momentum_0" 1).
Definition zero_price_ticks : list Alpha.MarketData := map Alpha.tick [0; 0]%float.

(** A 64-byte NYSE frame whose bid and ask are both +infinity (bit
    pattern 7FF0000000000000) and whose last price is 100, and one that
    quotes 100 / 101. *)
Definition infinite_quote_frame : list byte :=
  DataFeed.nyse_frame 0x7FF0000000000000 0x7FF0000000000000 0x4059000000000000.

Definition plain_quote_frame : list byte :=
  DataFeed.nyse_frame 0x4059000000000000 0x4059400000000000 0x4059000000000000.

(** A 64-byte NYSE frame of finite prices whose sum overflows: bid 1e308
    and ask 1.7e308. *)
Definition overflowing_quote_frame : list byte :=
  DataFeed.nyse_frame 0x7FE1CCF385EBC8A0 0x7FEE42D130773B76 0x4059000000000000.

(** The invariants of a canonical NYSE tick. *)
Definition tick_invariants (t : DataFeed.MarketData) : Prop :=
  Cpp.gtb (DataFeed.bidPrice t) 0%float = true /\
  Cpp.gtb (DataFeed.askPrice t) 0%float = true /\
  Cpp.geb (DataFeed.askPrice t) (DataFeed.bidPrice t) = true /\
  DataFeed.spread_within_bound t = true.

(** A manager in which every position carries the symbol it is filed
    under and has both PnL fields at zero. *)
Definition pnl_untouched (pm : Guardian.PositionManager) : Prop :=
  forall sym pos,
    Guardian.positions_ pm !! sym = Some pos ->
    Guardian.symbol pos = sym /\
    Guardian.unrealizedPnL pos = 0%float /\
    Guardian.realizedPnL pos = 0%float.

(** The position of [sym] after an update. *)
Definition position_after (pm : Guardian.PositionManager) (sym : string) (qty price : float)
  : option Guardian.Position :=
  Guardian.positions_ (Guardian.updatePosition pm sym qty price) !! sym.

(** Updating a position that does not exist yet with quantity [q] at
    price [p] leaves quantity [q] and average cost [p]. *)
Definition fresh_update_gives_price : Prop :=
  forall (pm : Guardian.PositionManager) (sym : string) (q p : float),
    Guardian.positions_ pm !! sym = None ->
    exists pos,
      position_after pm sym q p = Some pos /\
      Guardian.quantity pos = q /\ Guardian.avgCost pos = p.

(** Scenario 6: three AAPL signals, the third below the confidence
    threshold. *)
Definition scenario6_signals : list Aggregator.AlphaSignal :=
  [ Aggregator.mkAlphaSignal "Alpha_0" "AAPL" 0.8%float 0.9%float 1;
    Aggregator.mkAlphaSignal "Alpha_1" "AAPL" (-0.4)%float 0.5%float 2;
    Aggregator.mkAlphaSignal "Alpha_2" "AAPL" 0.2%float 0.2%float 3 ].

(** ** alpha-engine: alpha_engine.hpp / alpha_engine.cpp *)

Module Engine.
Import Cpp.

(** A [std::unique_ptr<IAlphaStrategy>]: one of the two strategy classes
    of the repository. *)
Inductive IAlphaStrategy :=
| MeanReversion (a : Alpha.MeanReversionAlpha)
| Momentum (a : Alpha.MomentumAlpha).

Definition initialize (alpha : IAlphaStrategy) : IAlphaStrategy :=
  match alpha with
  | MeanReversion a => MeanReversion (Alpha.MeanReversionAlpha_initialize a)
  | Momentum a => Momentum (Alpha.MomentumAlpha_initialize a)
  end.

Definition isActive (alpha : IAlphaStrategy) : bool :=
  match alpha with
  | MeanReversion a => Alpha.MeanReversionAlpha_isActive a
  | Momentum a => Alpha.MomentumAlpha_isActive a
  end.

(** [AlphaFactory::create(alphaType, alphaId)] and
    [AlphaFactory::create(alphaType, alphaId, param)]; [None] is
    [nullptr].  The constructors default to a window of 20 and a lookback
    of 10. *)
Definition AlphaFactory_create_param (alphaType alphaId : string) (param : Z)
  : option IAlphaStrategy :=
  if String.eqb alphaType "MeanReversion"
  then Some (MeanReversion (Alpha.MeanReversionAlpha_new alphaId param))
  else if String.eqb alphaType "Momentum"
  then Some (Momentum (Alpha.MomentumAlpha_new alphaId param))
  else None.

Definition AlphaFactory_create (alphaType alphaId : string) : option IAlphaStrategy :=
  if String.eqb alphaType "MeanReversion"
  then Some (MeanReversion (Alpha.MeanReversionAlpha_new alphaId 20))
  else if String.eqb alphaType "Momentum"
  then Some (Momentum (Alpha.MomentumAlpha_new alphaId 10))
  else None.

(** What a worker thread of the thread pool is about to do.  The threads
    run [workerThread] side by side: between two steps of one of them any
    other thread may take steps of its own.  A callback is opaque and is
    known by a name of type [Callback]. *)
Inductive Worker (Callback : Type) :=
| Waiting
    (* at [condition_.wait], holding no task *)
| Taken (i : nat) (data : Alpha.MarketData)
    (* has left the locked block with a task and is about to run it:
       [processAlpha(alpha, data)], [alpha] being the strategy at index [i] *)
| Produced (sig : Alpha.AlphaSignal)
    (* in [processAlpha]: [onMarketData] has returned [sig] *)
| Notifying (sig : Alpha.AlphaSignal) (pending : list Callback)
    (* in the [for_each] of [notifyCallbacks]: the callbacks of
       [first, last) that are still to be called *)
| Exited.
    (* has returned from [workerThread] *)
Arguments Waiting {Callback}.
Arguments Taken {Callback}.
Arguments Produced {Callback}.
Arguments Notifying {Callback}.
Arguments Exited {Callback}.

(** The pool, with the members of its [ThreadPool]: the worker threads,
    the queue and the stop flag.  A task of the queue is the pair captured
    by the lambda of [processMarketData], the strategy pointer being the
    index of the strategy in [alphas_], which only grows.
    [numSignalsGenerated_] is a [size_t]. *)
Record AlphaEnginePool (Callback : Type) := mkAlphaEnginePool {
  alphas_ : list IAlphaStrategy;
  signalCallbacks_ : list Callback;
  numSignalsGenerated_ : Z;
  running_ : bool;
  workers_ : list (Worker Callback);
  tasks_ : list (nat * Alpha.MarketData);
  stop_ : bool
}.
Arguments mkAlphaEnginePool {Callback}.
Arguments alphas_ {Callback}.
Arguments signalCallbacks_ {Callback}.
Arguments numSignalsGenerated_ {Callback}.
Arguments running_ {Callback}.
Arguments workers_ {Callback}.
Arguments tasks_ {Callback}.
Arguments stop_ {Callback}.

Section Pool.

Variable tanh : float -> float.
Context {Callback : Type}.

Definition onMarketData (alpha : IAlphaStrategy) (data : Alpha.MarketData)
  : IAlphaStrategy * option Alpha.AlphaSignal :=
  match alpha with
  | MeanReversion a =>
      let '(a1, out) := Alpha.MeanReversionAlpha_onMarketData a data in
      (MeanReversion a1, out)
  | Momentum a =>
      let '(a1, out) := Alpha.MomentumAlpha_onMarketData tanh a data in
      (Momentum a1, out)
  end.

(** [AlphaEnginePool(numThreads)]: the constructor of the thread pool
    starts [numThreads] workers, 8 by default. *)
Definition AlphaEnginePool_new (numThreads : Z) : AlphaEnginePool Callback :=
  mkAlphaEnginePool [] [] 0 false (repeat Waiting (Z.to_nat numThreads)) [] false.

Definition addAlpha (e : AlphaEnginePool Callback) (alpha : IAlphaStrategy)
  : AlphaEnginePool Callback :=
  mkAlphaEnginePool (alphas_ e ++ [initialize alpha]) (signalCallbacks_ e)
                    (numSignalsGenerated_ e) (running_ e) (workers_ e) (tasks_ e) (stop_ e).

Definition registerSignalCallback (e : AlphaEnginePool Callback) (callback : Callback)
  : AlphaEnginePool Callback :=
  mkAlphaEnginePool (alphas_ e) (signalCallbacks_ e ++ [callback])
                    (numSignalsGenerated_ e) (running_ e) (workers_ e) (tasks_ e) (stop_ e).

Definition start (e : AlphaEnginePool Callback) : AlphaEnginePool Callback :=
  mkAlphaEnginePool (alphas_ e) (signalCallbacks_ e) (numSignalsGenerated_ e)
                    true (workers_ e) (tasks_ e) (stop_ e).

(** [stop()] clears [running_] and sets the stop flag of the thread pool.
    It then joins the workers, which run the queued tasks before they
    exit: the caller is held, the other threads go on, so that the steps
    that follow [stop()] in a run are theirs. *)
Definition stop (e : AlphaEnginePool Callback) : AlphaEnginePool Callback :=
  mkAlphaEnginePool (alphas_ e) (signalCallbacks_ e) (numSignalsGenerated_ e)
                    false (workers_ e) (tasks_ e) true.

(** The tasks enqueued for a tick: one per active strategy, in the order
    of [alphas_]. *)
Definition tasks_for (alphas : list IAlphaStrategy) (data : Alpha.MarketData)
  : list (nat * Alpha.MarketData) :=
  map (fun entry => (fst entry, data))
      (List.filter (fun entry => isActive (snd entry)) (imap pair alphas)).

(** [processMarketData] holds [alphasMutex_] throughout; the queue is
    first in, first out, so that a worker that takes a task while the
    later ones are being enqueued takes the task it would take
    afterwards. *)
Definition processMarketData (e : AlphaEnginePool Callback) (data : Alpha.MarketData)
  : AlphaEnginePool Callback :=
  if negb (running_ e) then e
  else mkAlphaEnginePool (alphas_ e) (signalCallbacks_ e) (numSignalsGenerated_ e)
                         (running_ e) (workers_ e)
                         (tasks_ e ++ tasks_for (alphas_ e) data) (stop_ e).

(** The block of [workerThread] under [queueMutex_]: the wait returns
    when the pool is stopped or a task is queued; the thread returns if
    the pool is stopped and the queue empty, and takes the front task
    otherwise. *)
Definition workerThread_take (e : AlphaEnginePool Callback)
  : AlphaEnginePool Callback * Worker Callback :=
  match tasks_ e with
  | [] => (e, if stop_ e then Exited else Waiting)
  | (i, data) :: rest =>
      (mkAlphaEnginePool (alphas_ e) (signalCallbacks_ e) (numSignalsGenerated_ e)
                         (running_ e) (workers_ e) rest (stop_ e),
       Taken i data)
  end.

(** [processAlpha], first statement: [auto signal =
    alpha->onMarketData(data)], for the strategy at index [i].  The call
    is one step: nothing in the code keeps two workers from running two
    tasks of one strategy at once, and C++ gives no meaning to the run in
    which they do (both write the history of the strategy); the runs
    described are those in which the calls of a strategy follow one
    another. *)
Definition processAlpha_call (e : AlphaEnginePool Callback) (i : nat)
  (data : Alpha.MarketData) : AlphaEnginePool Callback * Worker Callback :=
  match alphas_ e !! i with
  | None => (e, Waiting)
  | Some alpha =>
      let '(alpha1, out) := onMarketData alpha data in
      (mkAlphaEnginePool (<[i := alpha1]> (alphas_ e)) (signalCallbacks_ e)
                         (numSignalsGenerated_ e) (running_ e) (workers_ e) (tasks_ e)
                         (stop_ e),
       match out with
       | Some sig => Produced sig
       | None => Waiting
       end)
  end.

(** [processAlpha], with a signal: [numSignalsGenerated_++], an atomic
    increment, and the entry into [notifyCallbacks], where [for_each]
    receives [signalCallbacks_.begin()] and [signalCallbacks_.end()]. *)
Definition processAlpha_count (e : AlphaEnginePool Callback) (sig : Alpha.AlphaSignal)
  : AlphaEnginePool Callback * Worker Callback :=
  (mkAlphaEnginePool (alphas_ e) (signalCallbacks_ e)
                     ((numSignalsGenerated_ e + 1) mod 2 ^ 64)
                     (running_ e) (workers_ e) (tasks_ e) (stop_ e),
   Notifying sig (signalCallbacks_ e)).

(** [notifyCallbacks], one application of the lambda of [for_each]: the
    next callback is called with its own copy of the signal; after the
    last one the thread is back at the head of its loop. *)
Definition notifyCallbacks_next (sig : Alpha.AlphaSignal) (pending : list Callback)
  : Worker Callback * list (Callback * Alpha.AlphaSignal) :=
  match pending with
  | [] => (Waiting, [])
  | callback :: rest =>
      (Notifying sig rest,
       [(callback,
         Alpha.mkAlphaSignal (Alpha.alphaId sig) (Alpha.symbol sig) (Alpha.signal sig)
                             (Alpha.confidence sig) (Alpha.timestampNs sig))])
  end.

(** The next step of a thread that runs [workerThread]: the pool and the
    thread afterwards, and the callback call made, if any. *)
Definition workerThread (e : AlphaEnginePool Callback) (worker : Worker Callback)
  : AlphaEnginePool Callback * Worker Callback * list (Callback * Alpha.AlphaSignal) :=
  match worker with
  | Waiting => (workerThread_take e, [])
  | Taken i data => (processAlpha_call e i data, [])
  | Produced sig => (processAlpha_count e sig, [])
  | Notifying sig pending =>
      let '(worker1, made) := notifyCallbacks_next sig pending in (e, worker1, made)
  | Exited => (e, Exited, [])
  end.

(** [getStats]: the number of strategies and of signals. *)
Definition getStats (e : AlphaEnginePool Callback) : Z * Z :=
  (vec_size (alphas_ e), numSignalsGenerated_ e).

(** The calls of the clients of the pool and the steps of its workers,
    [StepWorker w] being the next step of the worker of index [w], and a
    run of them, in any order, from a new pool of [numThreads] workers,
    with the callback calls made, in the order in which they are made. *)
Inductive Step :=
| StepAddAlpha (alpha : IAlphaStrategy)
| StepRegister (callback : Callback)
| StepStart
| StepStop
| StepTick (data : Alpha.MarketData)
| StepWorker (w : nat).

Definition step (st : AlphaEnginePool Callback * list (Callback * Alpha.AlphaSignal))
  (s : Step) : AlphaEnginePool Callback * list (Callback * Alpha.AlphaSignal) :=
  let '(e, calls) := st in
  match s with
  | StepAddAlpha alpha => (addAlpha e alpha, calls)
  | StepRegister callback => (registerSignalCallback e callback, calls)
  | StepStart => (start e, calls)
  | StepStop => (stop e, calls)
  | StepTick data => (processMarketData e data, calls)
  | StepWorker w =>
      match workers_ e !! w with
      | None => (e, calls)
      | Some worker =>
          let '(e1, worker1, made) := workerThread e worker in
          (mkAlphaEnginePool (alphas_ e1) (signalCallbacks_ e1) (numSignalsGenerated_ e1)
                             (running_ e1) (<[w := worker1]> (workers_ e1)) (tasks_ e1)
                             (stop_ e1),
           calls ++ made)
      end
  end.

Definition run (numThreads : Z) (steps : list Step)
  : AlphaEnginePool Callback * list (Callback * Alpha.AlphaSignal) :=
  fold_left step steps (AlphaEnginePool_new numThreads, []).




(** The calls that deliver a signal to every callback of [callbacks], in
    order. *)
Definition delivery (callbacks : list Callback) (sig : Alpha.AlphaSignal)
  : list (Callback * Alpha.AlphaSignal) :=
  map (fun callback => (callback, sig)) callbacks.

(** The calls that deliver each signal of [sigs], in order, to every
    callback of [callbacks], in order. *)
Definition deliveries (callbacks : list Callback) (sigs : list Alpha.AlphaSignal)
  : list (Callback * Alpha.AlphaSignal) :=
  flat_map (delivery callbacks) sigs.



(** What every pool of a run satisfies: its strategies are active and its
    queued tasks point to strategies of the pool. *)
Definition pool_sound (e : AlphaEnginePool Callback) : Prop :=
  Forall (fun alpha => isActive alpha = true) (alphas_ e) /\
  Forall (fun task => (fst task < length (alphas_ e))%nat) (tasks_ e).

End Pool.

Arguments Step : clear implicits.

End Engine.

(** ** Notions for the further properties *)

(** The idiom of the three bounded buffers (price history, returns,
    per-symbol signals): push at the back, then erase the front if the
    size exceeds the capacity. *)
Definition push_capped {A} (cap : Z) (l : list A) (x : A) : list A :=
  if Cpp.vec_size (l ++ [x]) >? cap then Cpp.erase_begin (l ++ [x]) else l ++ [x].

(** The last [n] elements of a list, all of them if it is shorter. *)
Definition last_n {A} (n : Z) (l : list A) : list A :=
  drop (length l - Z.to_nat n) l.

(** The simple returns [(p - prev) / prev] of consecutive prices, given
    the price held before the first of them, if any. *)
Fixpoint returns_of (prev : option float) (prices : list float) : list float :=
  match prices with
  | [] => []
  | p :: rest =>
      match prev with
      | None => returns_of (Some p) rest
      | Some lastPrice =>
          PrimFloat.div (PrimFloat.sub p lastPrice) lastPrice :: returns_of (Some p) rest
      end
  end.

(** The buffer of a symbol in the aggregator, empty for a symbol it does
    not know. *)
Definition buffer (agg : Aggregator.SignalAggregator) (sym : string)
  : list Aggregator.AlphaSignal :=
  default [] (Aggregator.signalsBySymbol_ agg !! sym).

(** The signals of a symbol among those received. *)
Definition signals_of (sym : string) (sigs : list Aggregator.AlphaSignal)
  : list Aggregator.AlphaSignal :=
  List.filter (fun sig => bool_decide (Aggregator.symbol sig = sym)) sigs.

(** The calls that write the aggregator, and a run of them. *)
Inductive AggregatorCall :=
| CallAddSignal (sig : Aggregator.AlphaSignal)
| CallClearSignalsOlderThan (ts : Z).

Definition aggregator_call (agg : Aggregator.SignalAggregator) (c : AggregatorCall)
  : Aggregator.SignalAggregator :=
  match c with
  | CallAddSignal sig => Aggregator.addSignal agg sig
  | CallClearSignalsOlderThan ts => Aggregator.clearSignalsOlderThan agg ts
  end.

(** An order with another side, and with another quantity. *)
Definition with_side (order : Risk.Order) (s : Risk.OrderSide) : Risk.Order :=
  Risk.mkOrder (Risk.orderId order) (Risk.symbol order) (Risk.quantity order) s
               (Risk.price order) (Risk.timestampNs order).

Definition with_quantity (order : Risk.Order) (q : float) : Risk.Order :=
  Risk.mkOrder (Risk.orderId order) (Risk.symbol order) q (Risk.side order)
               (Risk.price order) (Risk.timestampNs order).

(** [Interleaving ls l]: the list [l] is an interleaving of the lists
    [ls], each of which appears in [l] in its own order.  The last
    element of [l] is the last element of one of the lists, and the order
    in which the lists are given does not count. *)
Inductive Interleaving {A : Type} : list (list A) -> list A -> Prop :=
| interleaving_nil : Interleaving [] []
| interleaving_empty (ls : list (list A)) (l : list A) :
    Interleaving ls l -> Interleaving ([] :: ls) l
| interleaving_snoc (t : list A) (x : A) (ls : list (list A)) (l : list A) :
    Interleaving (t :: ls) l -> Interleaving ((t ++ [x]) :: ls) (l ++ [x])
| interleaving_perm (ls ls' : list (list A)) (l : list A) :
    Permutation ls ls' -> Interleaving ls l -> Interleaving ls' l.

(** A list that has an element. *)
Definition nonempty {A : Type} (l : list A) : bool :=
  match l with
  | [] => false
  | _ => true
  end.


(** Two momentum strategies of lookback 1 on a pool of two workers with
    the callbacks log and forward.  After a first tick has been worked
    off, each worker takes one of the two tasks of a second tick, and the
    two workers then advance in turn. *)
Definition two_workers_in_turn : list (Engine.Step string) :=
  [Engine.StepAddAlpha (Engine.Momentum (Alpha.MomentumAlpha_new "Momentum_0" 1));
   Engine.StepAddAlpha (Engine.Momentum (Alpha.MomentumAlpha_new "Momentum_1" 1));
   Engine.StepStart;
   Engine.StepTick (Alpha.tick 100%float);
   Engine.StepWorker 0; Engine.StepWorker 0; Engine.StepWorker 1; Engine.StepWorker 1;
   Engine.StepTick (Alpha.tick 101%float);
   Engine.StepWorker 0; Engine.StepWorker 1;
   Engine.StepWorker 0; Engine.StepWorker 1;
   Engine.StepWorker 0; Engine.StepWorker 1;
   Engine.StepWorker 0; Engine.StepWorker 1;
   Engine.StepWorker 0; Engine.StepWorker 1;
   Engine.StepWorker 0; Engine.StepWorker 1].

(** A check whose verdict can depend on the side of the order: an
    enabled drawdown check. *)
Definition reads_side (check : Risk.RiskCheck) : bool :=
  match check with
  | Risk.CheckDrawdown _ => Risk.isEnabled check
  | _ => false
  end.

(** The battery of the scenarios without its drawdown check. *)
Definition scenario_sideless_battery : list Risk.RiskCheck :=
  [ Risk.CheckFatFinger scenario_fat_finger;
    Risk.CheckDrawdown (Risk.mkDrawdownCheck false 0.05%float 1000000%float (-60000)%float);
    Risk.CheckConcentration scenario_concentration ].

(** A binary64 value that is NaN or has a clear sign bit. *)
Definition sign_clear (x : spec_float) : Prop :=
  match x with
  | S754_nan => True
  | S754_zero s | S754_infinity s | S754_finite s _ _ => s = false
  end.

(** A double that is neither NaN nor infinite. *)
Definition finite (x : float) : bool :=
  PrimFloat.ltb (PrimFloat.abs x) infinity.

(** A 64-byte frame holding 100, 100, 101 at offsets 0, 8, 16: in the
    NASDAQ layout, last 100, bid 100, ask 101. *)
Definition nasdaq_quote_frame : list byte :=
  DataFeed.nyse_frame 0x4059000000000000 0x4059000000000000 0x4059400000000000.

(** * Theorems *)

(** ** Facts of binary64 arithmetic *)

(** [x < y] gives [x <= y]. *)
Lemma ltb_leb (x y : float) : PrimFloat.ltb x y = true -> PrimFloat.leb x y = true.
Proof.
  rewrite FloatAxioms.ltb_spec, FloatAxioms.leb_spec. unfold SFltb, SFleb.
  destruct (SFcompare (Prim2SF x) (Prim2SF y)) as [[| |]|]; congruence.
Qed.

(** Swapping the operands of a comparison reverses its result. *)
Lemma SFcompare_swap (x y : spec_float) :
  SFcompare y x = option_map CompOpp (SFcompare x y).
Proof.
  destruct x as [sx|sx| |sx mx ex], y as [sy|sy| |sy my ey];
    try destruct sx; try destruct sy; cbn; try reflexivity.
  - rewrite (Z.compare_antisym ex ey).
    destruct (ex ?= ey)%Z; cbn; try reflexivity.
    do 2 f_equal. symmetry. exact (Pos.compare_cont_antisym mx my Eq).
  - rewrite (Z.compare_antisym ex ey).
    destruct (ex ?= ey)%Z; cbn; try reflexivity.
    f_equal. symmetry. exact (Pos.compare_cont_antisym mx my Eq).
Qed.

(** Only a NaN is unordered. *)
Lemma SFcompare_None (x y : spec_float) :
  SFcompare x y = None -> x = S754_nan \/ y = S754_nan.
Proof.
  destruct x as [sx|sx| |sx mx ex], y as [sy|sy| |sy my ey]; cbn; auto; discriminate.
Qed.

(** [x == x] holds of every double but NaN. *)
Lemma eqb_refl_not_nan (x : float) : PrimFloat.eqb x x = true -> Prim2SF x <> S754_nan.
Proof.
  rewrite FloatAxioms.eqb_spec. intros H Hnan. rewrite Hnan in H. discriminate.
Qed.

(** Without NaN, [!(b < a)] is [a <= b]. *)
Lemma not_ltb_leb (a b : float) :
  PrimFloat.eqb a a = true -> PrimFloat.eqb b b = true ->
  PrimFloat.ltb b a = false -> PrimFloat.leb a b = true.
Proof.
  intros Ha Hb. apply eqb_refl_not_nan in Ha, Hb.
  rewrite FloatAxioms.ltb_spec, FloatAxioms.leb_spec. unfold SFltb, SFleb.
  rewrite (SFcompare_swap (Prim2SF a) (Prim2SF b)).
  destruct (SFcompare (Prim2SF a) (Prim2SF b)) as [[| |]|] eqn:Hc; cbn; try congruence.
  apply SFcompare_None in Hc. tauto.
Qed.

(** Rounding a value of positive sign gives NaN or a result that is not
    below zero. *)
Lemma binary_round_aux_nonneg (p e : Z) (mx ex : Z) (lx : location) :
  binary_round_aux p e false mx ex lx = S754_nan \/
  SFleb (S754_zero false) (binary_round_aux p e false mx ex lx) = true.
Proof.
  unfold binary_round_aux.
  destruct (shr_fexp p e mx ex lx) as [mrs' e'].
  destruct (shr_fexp p e _ e' loc_Exact) as [mrs'' e''].
  destruct (shr_m mrs'') as [|m|m]; [right; reflexivity| |left; reflexivity].
  destruct (Z.leb e'' (Z.sub e p)); right; reflexivity.
Qed.

(** [std::abs(z) / 3.0] is NaN or at least zero. *)
Lemma abs_div3_nonneg (z : float) :
  Prim2SF (PrimFloat.div (PrimFloat.abs z) 3.0%float) = S754_nan \/
  PrimFloat.leb 0%float (PrimFloat.div (PrimFloat.abs z) 3.0%float) = true.
Proof.
  rewrite FloatAxioms.leb_spec, FloatAxioms.div_spec, FloatAxioms.abs_spec.
  change (Prim2SF 0%float) with (S754_zero false).
  change (Prim2SF 3.0%float) with (S754_finite false 6755399441055744 (-51)).
  destruct (Prim2SF z) as [s|s| |s m e]; cbn [SFabs].
  - right; reflexivity.
  - right; reflexivity.
  - left; reflexivity.
  - unfold SF64div, SFdiv.
    destruct (SFdiv_core_binary prec emax (Z.pos m) e (Z.pos 6755399441055744) (-51))
      as [[mz ez] lz].
    apply binary_round_aux_nonneg.
Qed.

(** [0.0 + q] is [q], except that [0.0 + -0.0] is [0.0]. *)
Lemma add_zero_l (q : float) : q <> neg_zero -> PrimFloat.add 0%float q = q.
Proof.
  intros Hq. apply Prim2SF_inj. rewrite FloatAxioms.add_spec.
  change (Prim2SF 0%float) with (S754_zero false).
  destruct (Prim2SF q) as [s|s| |s m e] eqn:Hsf; cbn; try reflexivity.
  destruct s; [|reflexivity].
  exfalso. apply Hq. rewrite <- (SF2Prim_Prim2SF q), Hsf. reflexivity.
Qed.

(** [0.0 + q] is [0.0] when [q == 0.0]. *)
Lemma add_zero_zero (q : float) :
  PrimFloat.eqb q 0%float = true -> PrimFloat.add 0%float q = 0%float.
Proof.
  rewrite FloatAxioms.eqb_spec. intros Hq. apply Prim2SF_inj. rewrite FloatAxioms.add_spec.
  change (Prim2SF 0%float) with (S754_zero false) in *.
  destruct (Prim2SF q) as [s|s| |s m e]; cbn in Hq; try discriminate;
    destruct s; try discriminate; reflexivity.
Qed.

(** ** Scenario 1 *)

(** C1, as stated, fails: with the numbers of the scenario (mean 10,
    deviation 1.414, z-score 2.121, confidence 0.707) the property does not
    hold of the code.  The window at the fourth tick is 10, 10, 13, the
    first 10 having been evicted, and its mean is 11. *)
Lemma C1_scenario_numbers_refuted : ~ scenario1_holds 10%float 1.414%float 2.121%float 0.707%float.
Proof.
  unfold scenario1_holds. vm_compute.
  intros [_ [sig [_ [Hmean _]]]]. discriminate Hmean.
Qed.

(** C1, amended: the first three ticks emit nothing (the third because
    the deviation of 10, 10, 10 is zero), and the fourth emits a signal
    computed from mean 11 and population deviation about 1.414: z-score
    about 1.414, signal -1.0 and confidence about 0.471. *)
Theorem C1_scenario_mean_reversion : scenario1_holds 11%float 1.414%float 1.414%float 0.471%float.
Proof.
  unfold scenario1_holds. vm_compute.
  split; [reflexivity|].
  eexists. repeat split; reflexivity.
Qed.

(** The doubles of scenario 1, to the last bit. *)
Lemma scenario1_exact :
  snd (Alpha.MeanReversionAlpha_feed scenario1_start
         (map Alpha.tick [10; 10; 10; 13]%float)) =
  [None; None; None;
   Some (Alpha.mkAlphaSignal "MeanReversion_0" "AAPL" (-1.0)%float
                             0.47140452079103162%float 0)].
Proof. vm_compute. reflexivity. Qed.

(** ** Median aggregation *)

(** Where the zero sentinel cannot collide with a kept signal, the code
    computes the median of the specification. *)
Lemma erase_remove_kept (signals : list Aggregator.AlphaSignal) :
  (forall sig, In sig signals -> Aggregator.confident sig = true ->
               PrimFloat.eqb (Aggregator.signal sig) 0.0%float = false) ->
  Aggregator.erase_remove 0.0%float
    (map (fun sig => if Aggregator.confident sig then Aggregator.signal sig else 0.0%float)
         signals)
  = map Aggregator.signal (List.filter Aggregator.confident signals).
Proof.
  induction signals as [|sig rest IH]; intros Hnz; [reflexivity|].
  cbn [map List.filter Aggregator.erase_remove].
  fold (Aggregator.erase_remove 0.0%float).
  destruct (Aggregator.confident sig) eqn:Hc.
  - rewrite (Hnz sig (or_introl eq_refl) Hc). cbn [negb map].
    f_equal. apply IH. intros s Hs. apply Hnz. now right.
  - change (PrimFloat.eqb 0.0%float 0.0%float) with true. cbn [negb].
    apply IH. intros s Hs. apply Hnz. now right.
Qed.

Lemma median_without_zero_values (signals : list Aggregator.AlphaSignal) :
  (forall sig, In sig signals -> Aggregator.confident sig = true ->
               PrimFloat.eqb (Aggregator.signal sig) 0.0%float = false) ->
  Aggregator.MedianAggregation_aggregate signals = Aggregator.median_as_specified signals.
Proof.
  intros Hnz. unfold Aggregator.MedianAggregation_aggregate, Aggregator.median_as_specified.
  destruct signals as [|sig rest]; [reflexivity|].
  now rewrite erase_remove_kept.
Qed.

(** C2: every signal of [signals_with_zero] passes the confidence filter,
    so the median of the kept values 0, 0.5, 1 is 0.5; the code removes
    the kept zero together with its sentinels and returns the mean of 0.5
    and 1. *)
Theorem C2_median_drops_kept_zero :
  forallb Aggregator.confident signals_with_zero = true /\
  Aggregator.median_as_specified signals_with_zero = 0.5%float /\
  Aggregator.MedianAggregation_aggregate signals_with_zero = 0.75%float.
Proof. vm_compute. repeat split; reflexivity. Qed.

(** ** Target portfolio *)

Lemma portfolio_symbols (agg : Aggregator.SignalAggregator) (clock : nat -> Z) :
  map Aggregator.tp_symbol (Aggregator.generateTargetPortfolio agg clock)
  = (map_to_list (Aggregator.signalsBySymbol_ agg)).*1.
Proof.
  unfold Aggregator.generateTargetPortfolio.
  change (map Aggregator.tp_symbol) with (fmap (M:=list) Aggregator.tp_symbol).
  rewrite fmap_imap. rewrite <- imap_const. apply imap_ext. reflexivity.
Qed.

Lemma portfolio_entry (agg : Aggregator.SignalAggregator) (clock : nat -> Z)
  (pos : Aggregator.TargetPosition) :
  In pos (Aggregator.generateTargetPortfolio agg clock) ->
  entry_of_buffer agg pos.
Proof.
  intros Hin. apply list_elem_of_In in Hin.
  apply elem_of_lookup_imap in Hin as (i & [sym buf] & -> & Hi).
  exists buf. cbn. split; [|split; reflexivity].
  apply elem_of_map_to_list. eapply list_elem_of_lookup_2. exact Hi.
Qed.

Lemma aggregate_empty (s : Aggregator.AggregationStrategy) :
  Aggregator.aggregate s [] = 0%float.
Proof. destruct s; reflexivity. Qed.

(** The entry stays in the map when its buffer is emptied. *)
Lemma clearSignalsOlderThan_keeps_symbols (agg : Aggregator.SignalAggregator) (ts : Z)
  (sym : string) :
  is_Some (Aggregator.signalsBySymbol_ (Aggregator.clearSignalsOlderThan agg ts) !! sym)
  <-> is_Some (Aggregator.signalsBySymbol_ agg !! sym).
Proof. cbn. rewrite lookup_fmap. apply fmap_is_Some. Qed.

(** What [generateTargetPortfolio] returns: exactly one entry for every
    key of the per-symbol map, whether or not its buffer is empty; the
    entry has the scaled aggregate of the buffer as target and zero as
    current quantity, and for an empty buffer the target is 0. *)
Lemma generateTargetPortfolio_entry_per_key (agg : Aggregator.SignalAggregator)
  (clock : nat -> Z) :
  let portfolio := Aggregator.generateTargetPortfolio agg clock in
  NoDup (map Aggregator.tp_symbol portfolio) /\
  (forall sym, has_entry portfolio sym <->
               is_Some (Aggregator.signalsBySymbol_ agg !! sym)) /\
  (forall pos, In pos portfolio -> entry_of_buffer agg pos) /\
  (forall pos, In pos portfolio ->
               Aggregator.signalsBySymbol_ agg !! Aggregator.tp_symbol pos = Some [] ->
               Aggregator.targetQuantity pos = 0%float).
Proof.
  intros portfolio. subst portfolio. repeat split.
  - rewrite portfolio_symbols. apply NoDup_fst_map_to_list.
  - intros (pos & Hin & <-).
    destruct (portfolio_entry agg clock pos Hin) as (buf & Hbuf & _).
    now exists buf.
  - intros [buf Hbuf].
    assert (Hsym : In sym (map Aggregator.tp_symbol
                             (Aggregator.generateTargetPortfolio agg clock))).
    { rewrite portfolio_symbols. apply list_elem_of_In.
      apply list_elem_of_fmap. exists (sym, buf). split; [reflexivity|].
      now apply elem_of_map_to_list. }
    apply in_map_iff in Hsym as (pos & Hpos & Hin). now exists pos.
  - apply portfolio_entry.
  - intros pos Hin Hempty.
    destruct (portfolio_entry agg clock pos Hin) as (buf & Hbuf & Htarget & _).
    rewrite Hempty in Hbuf. injection Hbuf as <-.
    rewrite Htarget, aggregate_empty. reflexivity.
Qed.

(** Where no buffer of the map is empty, the portfolio is the one that
    the specification describes: the two differ on the symbols whose
    buffer was emptied, and on nothing else. *)
Lemma portfolio_as_specified (agg : Aggregator.SignalAggregator) (clock : nat -> Z) :
  (forall sym, Aggregator.signalsBySymbol_ agg !! sym <> Some []) ->
  portfolio_of_nonempty_buffers agg clock.
Proof.
  intros Hfull.
  destruct (generateTargetPortfolio_entry_per_key agg clock) as (_ & Hsyms & Hentries & _).
  split; [|exact Hentries].
  intros sym. rewrite (Hsyms sym). split.
  - intros [buf Hbuf]. exists buf. split; [exact Hbuf|].
    intros ->. exact (Hfull sym Hbuf).
  - intros (buf & Hbuf & _). now exists buf.
Qed.

(** C3, a defect of the code.  The claim: the portfolio has an entry
    exactly for the symbols whose buffer is not empty, and a symbol whose
    signals were all evicted contributes none.  After the only signal of
    AAPL has been evicted, the buffer of AAPL is empty, and
    [generateTargetPortfolio] still returns an entry for AAPL, with a
    target of 0, under either policy: it transforms every entry of the map
    and does not test for an empty buffer, as [getAggregatedSignal] does,
    which returns nothing for the same symbol in the same state. *)
Theorem C3_empty_buffer_has_entry (s : Aggregator.AggregationStrategy) (clock : nat -> Z) :
  Aggregator.signalsBySymbol_ (evicted_state s) !! "AAPL" = Some [] /\
  Aggregator.generateTargetPortfolio (evicted_state s) clock
  = [Aggregator.mkTargetPosition "AAPL" 0%float 0%float (clock 0%nat)] /\
  Aggregator.getAggregatedSignal (evicted_state s) "AAPL" = None /\
  ~ portfolio_of_nonempty_buffers (evicted_state s) clock.
Proof.
  assert (Hbuf : Aggregator.signalsBySymbol_ (evicted_state s) !! "AAPL" = Some [])
    by (destruct s; vm_compute; reflexivity).
  assert (Hportfolio : Aggregator.generateTargetPortfolio (evicted_state s) clock
                       = [Aggregator.mkTargetPosition "AAPL" 0%float 0%float (clock 0%nat)])
    by (destruct s; vm_compute; reflexivity).
  split; [exact Hbuf|]. split; [exact Hportfolio|]. split.
  - unfold Aggregator.getAggregatedSignal. now rewrite Hbuf.
  - intros [Hsyms _].
    destruct (proj1 (Hsyms "AAPL")) as (buf & Hsome & Hne).
    + exists (Aggregator.mkTargetPosition "AAPL" 0%float 0%float (clock 0%nat)).
      split; [|reflexivity]. rewrite Hportfolio. now left.
    + rewrite Hbuf in Hsome. apply Hne. congruence.
Qed.

(** ** The risk battery *)

Section RiskBattery.

Variable to_string : float -> string.

(** The verdict of a check does not depend on the previous content of
    [reason], and neither does the message of a rejection. *)
Lemma validate_verdict (check : Risk.RiskCheck) (order : Risk.Order) (r1 r2 : string) :
  fst (Risk.validate to_string check order r1) = fst (Risk.validate to_string check order r2).
Proof.
  destruct check as [c|c|c]; cbn;
    unfold Risk.FatFingerCheck_validate, Risk.DrawdownCheck_validate,
           Risk.ConcentrationCheck_validate;
    repeat case_match; reflexivity.
Qed.

Lemma validate_message (check : Risk.RiskCheck) (order : Risk.Order) (r1 r2 : string) :
  fst (Risk.validate to_string check order r1) = false ->
  snd (Risk.validate to_string check order r1) = snd (Risk.validate to_string check order r2).
Proof.
  destruct check as [c|c|c]; cbn;
    unfold Risk.FatFingerCheck_validate, Risk.DrawdownCheck_validate,
           Risk.ConcentrationCheck_validate;
    repeat case_match; cbn; intros; congruence.
Qed.

Lemma validateAll_loop_failing (checks : list Risk.RiskCheck) (order : Risk.Order) :
  forall result reason,
    Risk.validateAll_loop to_string checks order result reason
    = fold_left (Risk.record_failure to_string order) (Risk.failing to_string checks order) result.
Proof.
  induction checks as [|check rest IH]; intros result reason; [reflexivity|].
  cbn [Risk.validateAll_loop Risk.failing List.filter].
  fold (Risk.failing to_string rest order).
  destruct (Risk.isEnabled check); cbn [negb andb]; [|apply IH].
  pose proof (validate_verdict check order reason "") as Hv.
  pose proof (validate_message check order reason "") as Hm.
  destruct (Risk.validate to_string check order reason) as [ok reason'].
  cbn [fst snd] in Hv, Hm. rewrite <- Hv.
  destruct ok; cbn [negb fold_left]; [apply IH|].
  unfold Risk.record_failure at 2. rewrite <- Hm by reflexivity. apply IH.
Qed.

(** The result of the battery is the accumulation, from an approved
    result, of one violation per failing enabled check, in order. *)
Lemma validateAll_failing (checks : list Risk.RiskCheck) (order : Risk.Order) :
  Risk.validateAll to_string checks order
  = fold_left (Risk.record_failure to_string order) (Risk.failing to_string checks order)
              Risk.RiskCheckResult_new.
Proof. apply validateAll_loop_failing. Qed.

Lemma fold_record_failure (order : Risk.Order) (fs : list Risk.RiskCheck) :
  forall result,
    Risk.violations (fold_left (Risk.record_failure to_string order) fs result)
    = Risk.violations result ++ map (fun _ => Risk.NONE) fs
    /\ Risk.approved (fold_left (Risk.record_failure to_string order) fs result)
       = Risk.approved result && match fs with [] => true | _ => false end.
Proof.
  induction fs as [|f fs IH]; intros result; cbn [fold_left map].
  - now rewrite app_nil_r, andb_true_r.
  - destruct (IH (Risk.record_failure to_string order result f)) as [Hv Ha].
    rewrite Hv, Ha. cbn. rewrite <- app_assoc. split; [reflexivity|].
    rewrite andb_false_r. now destruct fs.
Qed.

(** Every violation is tagged [NONE], one per failing enabled check, and
    the result is approved exactly when no enabled check fails. *)
Lemma validateAll_tags (checks : list Risk.RiskCheck) (order : Risk.Order) :
  Risk.violations (Risk.validateAll to_string checks order)
  = map (fun _ => Risk.NONE) (Risk.failing to_string checks order)
  /\ Risk.approved (Risk.validateAll to_string checks order)
     = match Risk.failing to_string checks order with [] => true | _ => false end.
Proof.
  rewrite validateAll_failing.
  destruct (fold_record_failure order (Risk.failing to_string checks order)
                                Risk.RiskCheckResult_new) as [Hv Ha].
  now rewrite Hv, Ha.
Qed.

(** C4: on the buy order of 60 000 AAPL at 150 the three checks of the
    battery fail and their kinds are FAT_FINGER, DRAWDOWN and
    CONCENTRATION; the result is not approved and joins the three
    messages, but each of its three violations is tagged NONE, so the
    violations do not name the checks. *)
Theorem C4_violations_tagged_none :
  let result := Risk.validateAll to_string scenario_battery (large_order Risk.BUY) in
  Risk.approved result = false /\
  map Risk.kind_of (Risk.failing to_string scenario_battery (large_order Risk.BUY))
    = [Risk.FAT_FINGER; Risk.DRAWDOWN; Risk.CONCENTRATION] /\
  Risk.violations result = [Risk.NONE; Risk.NONE; Risk.NONE] /\
  Risk.reason result
    = fold_left (fun acc check =>
                   String.append (String.append acc "; ")
                     (snd (Risk.validate to_string check (large_order Risk.BUY) "")))
        [Risk.CheckDrawdown scenario_drawdown; Risk.CheckConcentration scenario_concentration]
        (snd (Risk.validate to_string (Risk.CheckFatFinger scenario_fat_finger)
                (large_order Risk.BUY) "")) /\
  ~ violations_name_checks to_string scenario_battery (large_order Risk.BUY).
Proof.
  unfold violations_name_checks.
  vm_compute. repeat split; try reflexivity.
  intros Heq. discriminate Heq.
Qed.

(** C9: [DrawdownCheck::validate] accepts every order when the
    start-of-day NAV is at most 0; otherwise it rejects exactly the Buy
    orders placed while [-currentPnL / startOfDayNAV] exceeds the limit,
    and it accepts every Sell order. *)
Theorem C9_drawdown_check (c : Risk.DrawdownCheck) (order : Risk.Order) (reason : string) :
  let drawdown :=
    PrimFloat.div (PrimFloat.opp (Risk.currentPnL_ c)) (Risk.startOfDayNAV_ c) in
  let verdict := fst (Risk.DrawdownCheck_validate to_string c order reason) in
  (PrimFloat.leb (Risk.startOfDayNAV_ c) 0%float = true -> verdict = true) /\
  (PrimFloat.leb (Risk.startOfDayNAV_ c) 0%float = false ->
   (verdict = false <->
    Cpp.gtb drawdown (Risk.maxDrawdownPercentage_ c) = true /\ Risk.side order = Risk.BUY)) /\
  (Risk.side order = Risk.SELL -> verdict = true).
Proof.
  cbn zeta. unfold Risk.DrawdownCheck_validate.
  destruct (PrimFloat.leb (Risk.startOfDayNAV_ c) 0%float);
    destruct (Cpp.gtb _ (Risk.maxDrawdownPercentage_ c));
    destruct (Risk.side order); cbn;
    repeat split; intros; try tauto; try discriminate;
    match goal with H : _ /\ _ |- _ => destruct H; discriminate end.
Qed.

End RiskBattery.

(** Scenario 4: at NAV 1 000 000 and PnL -60 000 the Buy is rejected and
    the Sell accepted. *)
Lemma C9_drawdown_check_witness :
  fst (Risk.DrawdownCheck_validate Risk.to_string_opaque
         scenario_drawdown (large_order Risk.BUY) "") = false /\
  fst (Risk.DrawdownCheck_validate Risk.to_string_opaque
         scenario_drawdown (large_order Risk.SELL) "") = true.
Proof.
  split.
  - apply (proj1 (proj2 (C9_drawdown_check Risk.to_string_opaque scenario_drawdown
                           (large_order Risk.BUY) ""))).
    + reflexivity.
    + split; reflexivity.
  - apply (proj2 (proj2 (C9_drawdown_check Risk.to_string_opaque scenario_drawdown
                           (large_order Risk.SELL) ""))).
    reflexivity.
Defined.

(** ** Shutdown of the strategies *)

Lemma MeanReversionAlpha_uninitialized_tick (a : Alpha.MeanReversionAlpha)
  (data : Alpha.MarketData) :
  Alpha.mr_initialized_ a = false ->
  Alpha.MeanReversionAlpha_onMarketData a data = (a, None).
Proof.
  intros Hinit. unfold Alpha.MeanReversionAlpha_onMarketData. now rewrite Hinit.
Qed.

Lemma MeanReversionAlpha_uninitialized_feed (ticks : list Alpha.MarketData) :
  forall a, Alpha.mr_initialized_ a = false ->
            Alpha.MeanReversionAlpha_feed a ticks = (a, repeat None (length ticks)).
Proof.
  induction ticks as [|d rest IH]; intros a Hinit; [reflexivity|].
  cbn [Alpha.MeanReversionAlpha_feed].
  rewrite MeanReversionAlpha_uninitialized_tick by assumption.
  now rewrite IH.
Qed.

Lemma silent_repeat (n : nat) : silent (repeat None n).
Proof. induction n; constructor; auto. Qed.

Lemma vec_size_snoc {A} (l : list A) (x : A) : Cpp.vec_size (l ++ [x]) = Cpp.vec_size l + 1.
Proof. unfold Cpp.vec_size. rewrite length_app. cbn. lia. Qed.

Lemma vec_size_erase_begin {A} (l : list A) :
  Cpp.vec_size (Cpp.erase_begin l) <= Cpp.vec_size l.
Proof. destruct l; unfold Cpp.vec_size; cbn; lia. Qed.

Section MomentumRuns.

Variable tanh : float -> float.

(** One tick adds at most one to what the strategy has seen, keeps the
    lookback, and emits nothing while less than the lookback was seen
    before it. *)
Lemma MomentumAlpha_tick_seen (a : Alpha.MomentumAlpha) (data : Alpha.MarketData) :
  let '(a1, out) := Alpha.MomentumAlpha_onMarketData tanh a data in
  Alpha.mo_lookbackPeriod_ a1 = Alpha.mo_lookbackPeriod_ a /\
  seen a1 <= seen a + 1 /\
  (seen a < Cpp.size_t_of_int (Alpha.mo_lookbackPeriod_ a) -> out = None).
Proof.
  unfold Alpha.MomentumAlpha_onMarketData, seen.
  destruct a as [id L returns lastPrice upd]; cbn [Alpha.mo_lastPrice_ Alpha.mo_returns_
    Alpha.mo_lookbackPeriod_ Alpha.mo_alphaId_ Alpha.mo_lastUpdateTime_].
  destruct lastPrice as [lp|].
  - set (pushed := returns ++ [_]).
    assert (Hpushed : Cpp.vec_size pushed = Cpp.vec_size returns + 1)
      by apply vec_size_snoc.
    pose proof (vec_size_erase_begin pushed) as Herase.
    destruct (Z.gtb_spec (Cpp.vec_size pushed) (Cpp.size_t_of_int L)) as [Hgt|Hle];
      match goal with |- context [Z.ltb ?x ?y] => destruct (Z.ltb_spec x y) end;
      cbn; repeat split; try lia; intros; try reflexivity; lia.
  - match goal with |- context [Z.ltb ?x ?y] => destruct (Z.ltb_spec x y) end;
      cbn; repeat split; try lia; intros; try reflexivity; lia.
Qed.

Lemma MomentumAlpha_feed_silent (ticks : list Alpha.MarketData) :
  forall a,
    seen a + Cpp.vec_size ticks <= Cpp.size_t_of_int (Alpha.mo_lookbackPeriod_ a) ->
    silent (snd (Alpha.MomentumAlpha_feed tanh a ticks)).
Proof.
  induction ticks as [|d rest IH]; intros a Hseen; [constructor|].
  cbn [Alpha.MomentumAlpha_feed].
  pose proof (MomentumAlpha_tick_seen a d) as Hstep.
  destruct (Alpha.MomentumAlpha_onMarketData tanh a d) as [a1 out].
  destruct Hstep as (HL & Hnext & Hnone).
  assert (Hsize : Cpp.vec_size (d :: rest) = Cpp.vec_size rest + 1)
    by (unfold Cpp.vec_size; cbn [length]; lia).
  assert (Hrest : Cpp.vec_size rest >= 0) by (unfold Cpp.vec_size; lia).
  specialize (IH a1). rewrite HL in IH.
  destruct (Alpha.MomentumAlpha_feed tanh a1 rest) as [a2 outs].
  cbn [snd] in *. constructor.
  - apply Hnone. lia.
  - apply IH. lia.
Qed.

End MomentumRuns.

(** C5, as stated, fails: a momentum strategy with lookback 3 that has
    been shut down emits a signal on the fourth tick of scenario 2. *)
Lemma C5_momentum_emits_after_shutdown :
  ~ (shutdown_silences_mean_reversion /\ shutdown_silences_momentum).
Proof.
  intros [_ Hmo].
  specialize (Hmo Alpha.tanh_sign scenario2_start scenario2_ticks).
  vm_compute in Hmo.
  repeat match goal with H : Forall _ (_ :: _) |- _ => inversion H; clear H; subst end.
  discriminate.
Qed.

(** C5, amended: [MeanReversionAlpha::shutdown] clears the history and
    marks the strategy uninitialised, after which no tick emits a signal;
    [MomentumAlpha::shutdown] clears the returns and the last price and is
    the same as its [initialize]: the class has no initialised flag and
    stays active, the ticks that follow emit nothing as long as they are
    no more than the lookback, and later ticks may emit. *)
Theorem C5_shutdown :
  (forall a : Alpha.MeanReversionAlpha,
     Alpha.mr_priceHistory_ (Alpha.MeanReversionAlpha_shutdown a) = [] /\
     Alpha.mr_initialized_ (Alpha.MeanReversionAlpha_shutdown a) = false /\
     Alpha.MeanReversionAlpha_isActive (Alpha.MeanReversionAlpha_shutdown a) = false) /\
  shutdown_silences_mean_reversion /\
  (forall a : Alpha.MomentumAlpha,
     Alpha.mo_returns_ (Alpha.MomentumAlpha_shutdown a) = [] /\
     Alpha.mo_lastPrice_ (Alpha.MomentumAlpha_shutdown a) = None /\
     Alpha.MomentumAlpha_shutdown a = Alpha.MomentumAlpha_initialize a /\
     Alpha.MomentumAlpha_isActive (Alpha.MomentumAlpha_shutdown a) = true) /\
  (forall (tanh : float -> float) (a : Alpha.MomentumAlpha) (ticks : list Alpha.MarketData),
     Cpp.vec_size ticks <= Cpp.size_t_of_int (Alpha.mo_lookbackPeriod_ a) ->
     silent (snd (Alpha.MomentumAlpha_feed tanh (Alpha.MomentumAlpha_shutdown a) ticks))).
Proof.
  split; [|split; [|split]].
  - intros a. repeat split.
  - intros a ticks.
    rewrite MeanReversionAlpha_uninitialized_feed by reflexivity.
    apply silent_repeat.
  - intros a. repeat split.
  - intros tanh a ticks Hticks.
    apply MomentumAlpha_feed_silent. exact Hticks.
Qed.

Lemma C5_shutdown_witness :
  silent (snd (Alpha.MomentumAlpha_feed Alpha.tanh_sign
                 (Alpha.MomentumAlpha_shutdown scenario2_start)
                 (map Alpha.tick [100; 101; 102]%float))).
Proof.
  apply (proj2 (proj2 (proj2 C5_shutdown))).
  vm_compute. discriminate.
Defined.

(** ** Ranges of the emitted signals *)

(** The clamp of [MeanReversionAlpha::onMarketData] and its [std::min]
    return a bound when the z-score is NaN. *)
Lemma clamp_in_range (s : float) :
  let r := Cpp.std_max Alpha.AlphaConfig.MIN_SIGNAL
                       (Cpp.std_min Alpha.AlphaConfig.MAX_SIGNAL s) in
  PrimFloat.leb (-1.0)%float r = true /\ PrimFloat.leb r 1.0%float = true.
Proof.
  unfold Cpp.std_max, Cpp.std_min, Alpha.AlphaConfig.MIN_SIGNAL, Alpha.AlphaConfig.MAX_SIGNAL.
  cbn zeta.
  destruct (PrimFloat.ltb s 1.0%float) eqn:Hhi.
  - destruct (PrimFloat.ltb (-1.0)%float s) eqn:Hlo.
    + split; now apply ltb_leb.
    + split; reflexivity.
  - change (PrimFloat.ltb (-1.0)%float 1.0%float) with true. split; reflexivity.
Qed.

Lemma confidence_of_z_in_range (z : float) :
  let c := Cpp.std_min 1.0%float (PrimFloat.div (PrimFloat.abs z) 3.0%float) in
  PrimFloat.leb 0%float c = true /\ PrimFloat.leb c 1.0%float = true.
Proof.
  unfold Cpp.std_min. cbn zeta.
  destruct (PrimFloat.ltb (PrimFloat.div (PrimFloat.abs z) 3.0%float) 1.0%float) eqn:Hlt.
  - split; [|now apply ltb_leb].
    destruct (abs_div3_nonneg z) as [Hnan|Hle]; [|exact Hle].
    rewrite FloatAxioms.ltb_spec, Hnan in Hlt. discriminate.
  - split; reflexivity.
Qed.

Lemma MeanReversionAlpha_signal_in_range (a a1 : Alpha.MeanReversionAlpha)
  (data : Alpha.MarketData) (sig : Alpha.AlphaSignal) :
  Alpha.MeanReversionAlpha_onMarketData a data = (a1, Some sig) ->
  Alpha.signal_in_range sig = true /\ Alpha.confidence_in_range sig = true.
Proof.
  unfold Alpha.MeanReversionAlpha_onMarketData.
  repeat match goal with
         | |- context [if ?b then (_, None) else _] => destruct b; [discriminate|]
         end.
  intros [= _ <-].
  unfold Alpha.signal_in_range, Alpha.confidence_in_range.
  cbn [Alpha.signal Alpha.confidence].
  set (z := Alpha.zScore _ _).
  destruct (clamp_in_range (PrimFloat.opp z)) as [H1 H2].
  destruct (confidence_of_z_in_range z) as [H3 H4].
  cbn zeta in H1, H2, H3, H4.
  rewrite H1, H2, H3, H4. split; reflexivity.
Qed.

(** C6: every signal emitted by [MeanReversionAlpha::onMarketData] has
    its value in [-1, +1] and its confidence in [0, 1], whatever the state
    and the tick.  Not so for [MomentumAlpha::onMarketData]: with lookback
    1 and two ticks of price zero the return is 0/0, and the signal
    emitted on the second tick has the hyperbolic tangent of NaN as its
    value; with a tangent that maps NaN to NaN, as that of the C library
    does, the value is NaN and lies outside [-1, +1]. *)
Theorem C6_signal_ranges :
  (forall (a a1 : Alpha.MeanReversionAlpha) (data : Alpha.MarketData) (sig : Alpha.AlphaSignal),
     Alpha.MeanReversionAlpha_onMarketData a data = (a1, Some sig) ->
     Alpha.signal_in_range sig = true /\ Alpha.confidence_in_range sig = true) /\
  (forall tanh : float -> float,
     tanh nan = nan ->
     exists sig,
       snd (Alpha.MomentumAlpha_feed tanh zero_price_start zero_price_ticks)
         = [None; Some sig] /\
       Alpha.signal sig = nan /\
       Alpha.signal_in_range sig = false).
Proof.
  split; [exact MeanReversionAlpha_signal_in_range|].
  intros tanh Hnan.
  exists (Alpha.mkAlphaSignal "Momentum_0" "AAPL" (tanh nan) 1%float 0).
  split; [vm_compute; reflexivity|].
  unfold Alpha.signal_in_range. cbn [Alpha.signal]. rewrite Hnan.
  split; reflexivity.
Qed.

Lemma C6_signal_ranges_witness :
  exists sig,
    snd (Alpha.MomentumAlpha_feed Alpha.tanh_sign zero_price_start zero_price_ticks)
      = [None; Some sig] /\
    Alpha.signal sig = nan /\
    Alpha.signal_in_range sig = false.
Proof.
  apply (proj2 C6_signal_ranges Alpha.tanh_sign). reflexivity.
Defined.

(** ** The NYSE normaliser *)

Lemma NYSENormalizer_short_frame (rawData : list byte) (length : Z) :
  length < 64 -> DataFeed.NYSENormalizer_normalize rawData length = None.
Proof.
  intros Hlen. unfold DataFeed.NYSENormalizer_normalize.
  destruct (Z.ltb_spec length 64); [reflexivity|lia].
Qed.

Lemma NYSENormalizer_returns_validated (rawData : list byte) (length : Z)
  (t : DataFeed.MarketData) :
  DataFeed.NYSENormalizer_normalize rawData length = Some t ->
  64 <= length /\ t = DataFeed.NYSENormalizer_parse rawData length /\
  DataFeed.NYSENormalizer_validate t = true.
Proof.
  unfold DataFeed.NYSENormalizer_normalize.
  destruct (Z.ltb_spec length 64); [discriminate|].
  cbn zeta.
  destruct (DataFeed.NYSENormalizer_validate _) eqn:Hv; cbn [negb]; [|discriminate].
  intros [= <-]. auto.
Qed.

Lemma NYSENormalizer_validate_true (t : DataFeed.MarketData) :
  DataFeed.NYSENormalizer_validate t = true <->
  Cpp.gtb (DataFeed.bidPrice t) 0%float = true /\
  Cpp.gtb (DataFeed.askPrice t) 0%float = true /\
  Cpp.geb (DataFeed.askPrice t) (DataFeed.bidPrice t) = true /\
  Cpp.gtb (DataFeed.spread t) (PrimFloat.mul (DataFeed.midPrice t) 0.1%float) = false.
Proof.
  unfold DataFeed.NYSENormalizer_validate, DataFeed.DataNormalizer_validate.
  destruct (Cpp.gtb (DataFeed.bidPrice t) 0%float);
    destruct (Cpp.gtb (DataFeed.askPrice t) 0%float);
    destruct (Cpp.geb (DataFeed.askPrice t) (DataFeed.bidPrice t));
    destruct (Cpp.gtb (DataFeed.spread t) _); cbn; intuition congruence.
Qed.

(** The spread bound, with the mid price and its tenth as binary64
    computes them, can only fail on a returned tick through a NaN: when
    neither the spread nor a tenth of the mid price is NaN, the tick is
    within that bound.  The computed mid price is not always the mid
    price: see [overflowing_quote_is_returned]. *)
Lemma NYSENormalizer_bound_unless_nan (rawData : list byte) (length : Z)
  (t : DataFeed.MarketData) :
  DataFeed.NYSENormalizer_normalize rawData length = Some t ->
  PrimFloat.eqb (DataFeed.spread t) (DataFeed.spread t) = true ->
  PrimFloat.eqb (PrimFloat.mul (DataFeed.midPrice t) 0.1%float)
                (PrimFloat.mul (DataFeed.midPrice t) 0.1%float) = true ->
  tick_invariants t.
Proof.
  intros Hnorm Hs Hm.
  apply NYSENormalizer_returns_validated in Hnorm as (_ & _ & Hv).
  apply NYSENormalizer_validate_true in Hv as (Hb & Ha & Hab & Hsp).
  repeat split; try assumption.
  unfold DataFeed.spread_within_bound. now apply not_ltb_leb.
Qed.

(** C7: a frame shorter than 64 bytes yields none; a returned tick is the
    parsed frame and has [bid > 0], [ask > 0], [ask >= bid] and a spread
    that is not above a tenth of the mid price; a frame of at least 64
    bytes whose parsed fields fail one of these four tests yields none.
    But the frame whose bid and ask are both +infinity is returned as a
    tick: its spread is NaN, no comparison with a NaN holds, and the tick
    is outside the spread bound. *)
Theorem C7_nyse_normalize :
  (forall rawData length,
     length < 64 -> DataFeed.NYSENormalizer_normalize rawData length = None) /\
  (forall rawData length t,
     DataFeed.NYSENormalizer_normalize rawData length = Some t ->
     Cpp.gtb (DataFeed.bidPrice t) 0%float = true /\
     Cpp.gtb (DataFeed.askPrice t) 0%float = true /\
     Cpp.geb (DataFeed.askPrice t) (DataFeed.bidPrice t) = true /\
     Cpp.gtb (DataFeed.spread t) (PrimFloat.mul (DataFeed.midPrice t) 0.1%float) = false) /\
  (forall rawData length,
     DataFeed.NYSENormalizer_validate (DataFeed.NYSENormalizer_parse rawData length) = false ->
     DataFeed.NYSENormalizer_normalize rawData length = None) /\
  (exists t,
     DataFeed.NYSENormalizer_normalize infinite_quote_frame 64 = Some t /\
     DataFeed.bidPrice t = infinity /\ DataFeed.askPrice t = infinity /\
     DataFeed.spread t = nan /\
     DataFeed.spread_within_bound t = false /\
     ~ tick_invariants t).
Proof.
  split; [|split; [|split]].
  - apply NYSENormalizer_short_frame.
  - intros rawData length t Hnorm.
    apply NYSENormalizer_returns_validated in Hnorm as (_ & _ & Hv).
    now apply NYSENormalizer_validate_true.
  - intros rawData length Hv. unfold DataFeed.NYSENormalizer_normalize.
    destruct (length <? 64); [reflexivity|]. cbn zeta. now rewrite Hv.
  - eexists. split; [vm_compute; reflexivity|].
    repeat split; try reflexivity.
    intros (_ & _ & _ & Hbound). vm_compute in Hbound. discriminate.
Qed.

Lemma C7_nyse_normalize_witness :
  Cpp.gtb (DataFeed.spread (DataFeed.NYSENormalizer_parse plain_quote_frame 64))
          (PrimFloat.mul (DataFeed.midPrice (DataFeed.NYSENormalizer_parse plain_quote_frame 64))
                         0.1%float) = false
  /\ DataFeed.NYSENormalizer_normalize plain_quote_frame 63 = None.
Proof.
  split.
  - apply (proj1 (proj2 C7_nyse_normalize) plain_quote_frame 64). reflexivity.
  - apply (proj1 C7_nyse_normalize). reflexivity.
Defined.

(** The defect is not confined to NaN: the sum [bid + ask] of two finite
    prices can overflow, the computed mid price is then +infinity and
    every spread passes the test.  The frame quoting 1e308 / 1.7e308 is
    returned, with a spread above a tenth of the mid price taken as
    [bid / 2 + ask / 2], which does not overflow. *)
Example overflowing_quote_is_returned :
  exists t,
    DataFeed.NYSENormalizer_normalize overflowing_quote_frame 64 = Some t /\
    DataFeed.bidPrice t = 1e308%float /\ DataFeed.askPrice t = 1.7e308%float /\
    DataFeed.midPrice t = infinity /\
    Cpp.gtb (DataFeed.spread t)
            (PrimFloat.mul (PrimFloat.add (PrimFloat.div (DataFeed.bidPrice t) 2%float)
                                          (PrimFloat.div (DataFeed.askPrice t) 2%float))
                           0.1%float) = true.
Proof. eexists. vm_compute. repeat split; reflexivity. Qed.

(** ** Positions *)

Lemma position_after_eq (pm : Guardian.PositionManager) (sym : string) (qty price : float) :
  position_after pm sym qty price
  = Some (Guardian.updated (snd (Guardian.getPosition pm sym)) qty price).
Proof.
  unfold position_after, Guardian.updatePosition, Guardian.getPosition.
  destruct (Guardian.positions_ pm !! sym); cbn; apply lookup_insert_eq.
Qed.

Lemma updatePosition_other (pm : Guardian.PositionManager) (sym other : string)
  (qty price : float) :
  other <> sym ->
  Guardian.positions_ (Guardian.updatePosition pm sym qty price) !! other
  = Guardian.positions_ pm !! other.
Proof.
  intros Hne. unfold Guardian.updatePosition, Guardian.getPosition.
  destruct (Guardian.positions_ pm !! sym); cbn;
    repeat rewrite lookup_insert_ne by congruence; reflexivity.
Qed.

Lemma getPosition_fresh (pm : Guardian.PositionManager) (sym : string) :
  Guardian.positions_ pm !! sym = None ->
  snd (Guardian.getPosition pm sym)
  = Guardian.mkPosition sym 0%float 0%float 0%float 0%float.
Proof. intros Hnone. unfold Guardian.getPosition. now rewrite Hnone. Qed.

(** C8, as stated, fails: an update of quantity 0 at price 150 on a new
    position leaves the average cost at 0, not at 150. *)
Lemma C8_zero_quantity_average_cost : ~ fresh_update_gives_price.
Proof.
  intros Hclaim.
  destruct (Hclaim Guardian.PositionManager_new "AAPL" 0%float 150%float eq_refl)
    as (pos & Hpos & _ & Havg).
  vm_compute in Hpos. injection Hpos as <-. cbn in Havg.
  assert (Heqb : PrimFloat.eqb 0%float 150%float = true) by (rewrite Havg; reflexivity).
  vm_compute in Heqb. discriminate.
Qed.

(** Nor is the average cost the price for every non-zero quantity: the
    quotient is rounded.  Three units at 0.1 give 0.10000000000000002. *)
Lemma fresh_update_rounds :
  option_map Guardian.avgCost
    (position_after Guardian.PositionManager_new "AAPL" 3%float 0.1%float)
  = Some 0.10000000000000002%float
  /\ PrimFloat.eqb 0.10000000000000002%float 0.1%float = false.
Proof. vm_compute. split; reflexivity. Qed.

(** C8, amended: after [updatePosition(symbol, dq, p)] the quantity is
    [q + dq] and the average cost is [(q * avgCost + dq * p) / (q + dq)]
    if [q + dq != 0] and 0 otherwise.  On a new position, a quantity [q]
    with [q != 0] leaves quantity [q] and average cost [(0 + q * p) / q],
    the price up to the rounding of the product and of the quotient, and a
    quantity [q] with [q == 0] leaves quantity 0 and average cost 0. *)
Theorem C8_update_position_average_cost :
  (forall pm sym dq p,
     let position := snd (Guardian.getPosition pm sym) in
     let q := Guardian.quantity position in
     exists pos,
       position_after pm sym dq p = Some pos /\
       Guardian.quantity pos = PrimFloat.add q dq /\
       Guardian.avgCost pos =
         if negb (PrimFloat.eqb (PrimFloat.add q dq) 0%float)
         then PrimFloat.div
                (PrimFloat.add (PrimFloat.mul q (Guardian.avgCost position))
                               (PrimFloat.mul dq p))
                (PrimFloat.add q dq)
         else 0%float) /\
  (forall pm sym q p,
     Guardian.positions_ pm !! sym = None ->
     PrimFloat.eqb q 0%float = false ->
     exists pos,
       position_after pm sym q p = Some pos /\
       Guardian.quantity pos = q /\
       Guardian.avgCost pos = PrimFloat.div (PrimFloat.add 0%float (PrimFloat.mul q p)) q) /\
  (forall pm sym q p,
     Guardian.positions_ pm !! sym = None ->
     PrimFloat.eqb q 0%float = true ->
     exists pos,
       position_after pm sym q p = Some pos /\
       Guardian.quantity pos = 0%float /\
       Guardian.avgCost pos = 0%float).
Proof.
  split; [|split].
  - intros pm sym dq p position q.
    eexists. split; [apply position_after_eq|]. split; reflexivity.
  - intros pm sym q p Hnone Hq.
    assert (Hadd : PrimFloat.add 0%float q = q).
    { apply add_zero_l. intros ->. vm_compute in Hq. discriminate. }
    eexists. split; [apply position_after_eq|].
    rewrite getPosition_fresh by assumption.
    unfold Guardian.updated. cbn [Guardian.quantity Guardian.avgCost].
    rewrite Hadd, Hq. cbn [negb]. split; reflexivity.
  - intros pm sym q p Hnone Hq.
    assert (Hadd : PrimFloat.add 0%float q = 0%float) by now apply add_zero_zero.
    eexists. split; [apply position_after_eq|].
    rewrite getPosition_fresh by assumption.
    unfold Guardian.updated. cbn [Guardian.quantity Guardian.avgCost].
    rewrite Hadd. split; reflexivity.
Qed.

(** One hundred units at 150.37 on a new position: quantity 100 and an
    average cost of (0 + 100 * 150.37) / 100. *)
Lemma C8_update_position_average_cost_witness :
  exists pos,
    position_after Guardian.PositionManager_new "AAPL" 100%float 150.37%float = Some pos /\
    Guardian.quantity pos = 100%float /\
    Guardian.avgCost pos
    = PrimFloat.div (PrimFloat.add 0%float (PrimFloat.mul 100%float 150.37%float)) 100%float.
Proof.
  apply (proj1 (proj2 C8_update_position_average_cost)
           Guardian.PositionManager_new "AAPL" 100%float 150.37%float).
  - reflexivity.
  - reflexivity.
Defined.

Lemma getPosition_pnl_untouched (pm : Guardian.PositionManager) (sym : string) :
  pnl_untouched pm -> pnl_untouched (fst (Guardian.getPosition pm sym)).
Proof.
  intros Hpm. unfold Guardian.getPosition.
  destruct (Guardian.positions_ pm !! sym) eqn:Hsym; [exact Hpm|].
  intros other pos. cbn.
  destruct (decide (other = sym)) as [->|Hne].
  - rewrite lookup_insert_eq. intros [= <-]. cbn. auto.
  - rewrite lookup_insert_ne by congruence. apply Hpm.
Qed.

Lemma updatePosition_pnl_untouched (pm : Guardian.PositionManager) (sym : string)
  (qty price : float) :
  pnl_untouched pm -> pnl_untouched (Guardian.updatePosition pm sym qty price).
Proof.
  intros Hpm other pos.
  destruct (decide (other = sym)) as [->|Hne].
  - fold (position_after pm sym qty price). rewrite position_after_eq.
    intros [= <-]. unfold Guardian.updated. cbn.
    pose proof (getPosition_pnl_untouched pm sym Hpm sym) as Hget.
    unfold Guardian.getPosition in *.
    destruct (Guardian.positions_ pm !! sym) as [position|] eqn:Hsym; cbn in *.
    + apply (Hpm sym position Hsym).
    + auto.
  - rewrite updatePosition_other by assumption. apply Hpm.
Qed.

Lemma run_operations_pnl_untouched (ops : list Guardian.Operation) :
  pnl_untouched (Guardian.run_operations ops).
Proof.
  unfold Guardian.run_operations.
  assert (Hstart : pnl_untouched Guardian.PositionManager_new).
  { intros sym pos Hpos. cbn in Hpos. rewrite lookup_empty in Hpos. discriminate. }
  revert Hstart. generalize Guardian.PositionManager_new.
  induction ops as [|op rest IH]; intros pm Hpm; [exact Hpm|].
  cbn [fold_left]. apply IH.
  destruct op as [sym|sym qty price]; cbn.
  - now apply getPosition_pnl_untouched.
  - now apply updatePosition_pnl_untouched.
Qed.

(** C10: [updatePosition(symbol, dq, p)] leaves the symbol and the two PnL
    fields of the position as they were, leaves the position of every
    other symbol as it was, and in every manager built by the operations
    of the repository each position carries the symbol it is filed under
    and has both PnL fields at 0. *)
Theorem C10_update_position_frame :
  (forall pm sym dq p,
     let position := snd (Guardian.getPosition pm sym) in
     exists pos,
       position_after pm sym dq p = Some pos /\
       Guardian.symbol pos = Guardian.symbol position /\
       Guardian.unrealizedPnL pos = Guardian.unrealizedPnL position /\
       Guardian.realizedPnL pos = Guardian.realizedPnL position) /\
  (forall pm sym dq p other,
     other <> sym ->
     Guardian.positions_ (Guardian.updatePosition pm sym dq p) !! other
     = Guardian.positions_ pm !! other) /\
  (forall ops, pnl_untouched (Guardian.run_operations ops)).
Proof.
  split; [|split].
  - intros pm sym dq p position.
    eexists. split; [apply position_after_eq|]. repeat split.
  - intros pm sym dq p other. apply updatePosition_other.
  - apply run_operations_pnl_untouched.
Qed.

Lemma C10_update_position_frame_witness :
  Guardian.positions_
    (Guardian.updatePosition
       (Guardian.updatePosition Guardian.PositionManager_new "MSFT" 10%float 300%float)
       "AAPL" 100%float 150%float) !! "MSFT"
  = Guardian.positions_
      (Guardian.updatePosition Guardian.PositionManager_new "MSFT" 10%float 300%float)
      !! "MSFT".
Proof.
  apply (proj1 (proj2 C10_update_position_frame)). discriminate.
Defined.

(** ** The remaining scenarios of the specification, on the model *)

(** The sibling of [generateTargetPortfolio] does test for an empty
    buffer: the evicted symbol has no aggregated signal. *)
Example evicted_symbol_has_no_aggregate (s : Aggregator.AggregationStrategy) :
  Aggregator.getAggregatedSignal (evicted_state s) "AAPL" = None.
Proof. destruct s; vm_compute; reflexivity. Qed.

(** Scenario 2: the returns, and a confidence of 1; the signal is the
    tangent of ten times their sum. *)
Example scenario2_momentum (tanh : float -> float) :
  snd (Alpha.MomentumAlpha_feed tanh (Alpha.MomentumAlpha_initialize scenario2_start)
         scenario2_ticks)
  = [None; None; None;
     Some (Alpha.mkAlphaSignal "Momentum_0" "AAPL"
             (tanh (PrimFloat.mul
                      (Cpp.accumulate [0.01; 0.0099009900990099011;
                                       0.0098039215686274508]%float 0%float)
                      10.0%float))
             1.0%float 0)].
Proof. vm_compute. reflexivity. Qed.

(** Scenario 3: 60 000 is rejected and 40 000 accepted at an ADV of
    1 000 000 and a cap of 5%. *)
Example scenario3_fat_finger (to_string : float -> string) :
  fst (Risk.FatFingerCheck_validate to_string scenario_fat_finger
         (order_of 60000%float Risk.BUY) "") = false /\
  fst (Risk.FatFingerCheck_validate to_string scenario_fat_finger
         (order_of 40000%float Risk.BUY) "") = true.
Proof. vm_compute. split; reflexivity. Qed.

(** Scenario 5: buying 1000 at 150 would be 15% of a NAV of 1 000 000. *)
Example scenario5_concentration (to_string : float -> string) :
  fst (Risk.ConcentrationCheck_validate to_string scenario_concentration
         (order_of 1000%float Risk.BUY) "") = false.
Proof. vm_compute. reflexivity. Qed.

(** Scenario 6: the weighted average is 0.52 / 1.4, about 0.371. *)
Example scenario6_weighted_average :
  Cpp.near (Aggregator.WeightedAverageAggregation_aggregate scenario6_signals)
           0.371%float = true.
Proof. vm_compute. reflexivity. Qed.

(** * Further properties *)

(** ** Bounded buffers *)

Lemma last_n_all {A} (n : Z) (l : list A) : Cpp.vec_size l <= n -> last_n n l = l.
Proof.
  unfold last_n, Cpp.vec_size. intros Hle.
  replace (length l - Z.to_nat n)%nat with 0%nat by lia. reflexivity.
Qed.

Lemma vec_size_last_n {A} (n : Z) (l : list A) :
  0 <= n -> Cpp.vec_size (last_n n l) = Z.min n (Cpp.vec_size l).
Proof. unfold last_n, Cpp.vec_size. rewrite length_drop. lia. Qed.

Lemma push_capped_last_n {A} (cap : Z) (l : list A) (x : A) :
  0 <= cap -> Cpp.vec_size l <= cap -> push_capped cap l x = last_n cap (l ++ [x]).
Proof.
  intros Hcap Hle. unfold push_capped.
  pose proof (vec_size_snoc l x) as Hsnoc.
  destruct (Z.gtb_spec (Cpp.vec_size (l ++ [x])) cap) as [Hgt|Hfit].
  - unfold last_n, Cpp.vec_size in *. rewrite length_app in *. cbn [length] in *.
    replace (length l + 1 - Z.to_nat cap)%nat with 1%nat by lia.
    destruct l; reflexivity.
  - symmetry. now apply last_n_all.
Qed.

Lemma last_n_snoc {A} (n : Z) (l : list A) (x : A) :
  0 <= n -> last_n n (last_n n l ++ [x]) = last_n n (l ++ [x]).
Proof.
  intros Hn. unfold last_n. rewrite !length_app, length_drop. cbn [length].
  destruct (decide (length l <= Z.to_nat n)%nat) as [Hshort|Hlong].
  - replace (length l - Z.to_nat n)%nat with 0%nat by lia. cbn [drop].
    now rewrite Nat.sub_0_r.
  - destruct (decide (Z.to_nat n = 0)%nat) as [Hzero|Hpos].
    + rewrite Hzero, !Nat.sub_0_r, Nat.sub_diag.
      change (length l + 1)%nat with (length l + length [x])%nat.
      rewrite <- length_app, !drop_all. reflexivity.
    + rewrite drop_app_le by (rewrite length_drop; lia).
      rewrite drop_drop. rewrite (drop_app_le l) by lia.
      do 2 f_equal. lia.
Qed.

(** Pushing a sequence into a bounded buffer that starts within its
    capacity leaves the last [cap] elements of everything pushed. *)
Lemma fold_push_capped {A} (cap : Z) (xs : list A) :
  0 <= cap ->
  forall l, fold_left (push_capped cap) xs (last_n cap l) = last_n cap (l ++ xs).
Proof.
  intros Hcap. induction xs as [|x xs IH]; intros l; cbn [fold_left].
  - now rewrite app_nil_r.
  - rewrite push_capped_last_n, last_n_snoc by (rewrite ?vec_size_last_n; lia).
    rewrite IH. now rewrite <- app_assoc.
Qed.

Lemma size_t_of_int_nonneg (n : Z) : 0 <= Cpp.size_t_of_int n.
Proof. unfold Cpp.size_t_of_int. apply Z.mod_pos_bound. lia. Qed.

(** ** The windows of the strategies *)

Lemma MeanReversionAlpha_tick_history (a : Alpha.MeanReversionAlpha) (data : Alpha.MarketData) :
  Alpha.mr_initialized_ a = true ->
  let a1 := fst (Alpha.MeanReversionAlpha_onMarketData a data) in
  Alpha.mr_initialized_ a1 = true /\
  Alpha.mr_windowSize_ a1 = Alpha.mr_windowSize_ a /\
  Alpha.mr_priceHistory_ a1
  = push_capped (Cpp.size_t_of_int (Alpha.mr_windowSize_ a))
                (Alpha.mr_priceHistory_ a) (Alpha.md_price data).
Proof.
  intros Hinit. unfold Alpha.MeanReversionAlpha_onMarketData, push_capped.
  rewrite Hinit. cbn [negb].
  repeat match goal with
         | |- context [if ?b then (_, None) else _] => destruct b
         end; cbn; auto.
Qed.

Lemma MeanReversionAlpha_feed_history (ticks : list Alpha.MarketData) :
  forall a,
    Alpha.mr_initialized_ a = true ->
    Alpha.mr_priceHistory_ (fst (Alpha.MeanReversionAlpha_feed a ticks))
    = fold_left (push_capped (Cpp.size_t_of_int (Alpha.mr_windowSize_ a)))
                (map Alpha.md_price ticks) (Alpha.mr_priceHistory_ a).
Proof.
  induction ticks as [|d rest IH]; intros a Hinit; [reflexivity|].
  cbn [Alpha.MeanReversionAlpha_feed map fold_left].
  destruct (MeanReversionAlpha_tick_history a d Hinit) as (Hinit1 & HW & Hhist).
  destruct (Alpha.MeanReversionAlpha_onMarketData a d) as [a1 out]. cbn [fst] in *.
  specialize (IH a1 Hinit1).
  destruct (Alpha.MeanReversionAlpha_feed a1 rest) as [a2 outs]. cbn [fst] in *.
  now rewrite IH, HW, Hhist.
Qed.

(** X1: after [initialize()] and any sequence of ticks, the price history
    of a mean-reversion strategy is the last W prices received, in order
    (all of them while fewer than W were received), W being the window
    size as a [size_t]. *)
Theorem MeanReversionAlpha_sliding_window (a : Alpha.MeanReversionAlpha)
  (ticks : list Alpha.MarketData) :
  Alpha.mr_priceHistory_
    (fst (Alpha.MeanReversionAlpha_feed (Alpha.MeanReversionAlpha_initialize a) ticks))
  = last_n (Cpp.size_t_of_int (Alpha.mr_windowSize_ a)) (map Alpha.md_price ticks).
Proof.
  rewrite MeanReversionAlpha_feed_history by reflexivity.
  cbn [Alpha.MeanReversionAlpha_initialize Alpha.mr_windowSize_ Alpha.mr_priceHistory_].
  pose proof (size_t_of_int_nonneg (Alpha.mr_windowSize_ a)) as Hcap.
  exact (fold_push_capped _ _ Hcap []).
Qed.

Lemma vec_size_push_capped {A} (cap : Z) (l : list A) (x : A) :
  Cpp.vec_size (push_capped cap l x) <= Cpp.vec_size l + 1.
Proof.
  unfold push_capped. pose proof (vec_size_snoc l x).
  pose proof (vec_size_erase_begin (l ++ [x])).
  destruct (_ >? _); lia.
Qed.

Lemma MeanReversionAlpha_feed_warm_up (ticks : list Alpha.MarketData) :
  forall a,
    Cpp.vec_size (Alpha.mr_priceHistory_ a) + Cpp.vec_size ticks
      < Cpp.size_t_of_int (Alpha.mr_windowSize_ a) ->
    silent (snd (Alpha.MeanReversionAlpha_feed a ticks)).
Proof.
  induction ticks as [|d rest IH]; intros a Hsize; [constructor|].
  cbn [Alpha.MeanReversionAlpha_feed].
  assert (Hticks : Cpp.vec_size (d :: rest) = Cpp.vec_size rest + 1)
    by (unfold Cpp.vec_size; cbn [length]; lia).
  assert (Hrest : 0 <= Cpp.vec_size rest) by (unfold Cpp.vec_size; lia).
  destruct (Alpha.mr_initialized_ a) eqn:Hinit.
  - destruct (MeanReversionAlpha_tick_history a d Hinit) as (_ & HW & Hhist).
    pose proof (vec_size_push_capped (Cpp.size_t_of_int (Alpha.mr_windowSize_ a))
                  (Alpha.mr_priceHistory_ a) (Alpha.md_price d)) as Hpush.
    assert (Hout : snd (Alpha.MeanReversionAlpha_onMarketData a d) = None).
    { unfold Alpha.MeanReversionAlpha_onMarketData. rewrite Hinit. cbn [negb].
      fold (push_capped (Cpp.size_t_of_int (Alpha.mr_windowSize_ a))
                        (Alpha.mr_priceHistory_ a) (Alpha.md_price d)).
      destruct (Z.ltb_spec (Cpp.vec_size (push_capped
                  (Cpp.size_t_of_int (Alpha.mr_windowSize_ a))
                  (Alpha.mr_priceHistory_ a) (Alpha.md_price d)))
                  (Cpp.size_t_of_int (Alpha.mr_windowSize_ a))); [reflexivity|lia]. }
    destruct (Alpha.MeanReversionAlpha_onMarketData a d) as [a1 out]. cbn [fst snd] in *.
    specialize (IH a1). rewrite HW, Hhist in IH.
    destruct (Alpha.MeanReversionAlpha_feed a1 rest) as [a2 outs]. cbn [snd] in *.
    constructor; [exact Hout|]. apply IH. lia.
  - rewrite MeanReversionAlpha_uninitialized_tick by assumption.
    rewrite MeanReversionAlpha_uninitialized_feed by assumption.
    apply (silent_repeat (S (length rest))).
Qed.

(** X2: the ticks that follow [initialize()] emit no signal as long as
    fewer than W of them were received. *)
Theorem MeanReversionAlpha_warm_up (a : Alpha.MeanReversionAlpha)
  (ticks : list Alpha.MarketData) :
  Cpp.vec_size ticks < Cpp.size_t_of_int (Alpha.mr_windowSize_ a) ->
  silent (snd (Alpha.MeanReversionAlpha_feed (Alpha.MeanReversionAlpha_initialize a) ticks)).
Proof.
  intros Hticks. apply MeanReversionAlpha_feed_warm_up.
  cbn [Alpha.MeanReversionAlpha_initialize Alpha.mr_priceHistory_ Alpha.mr_windowSize_].
  unfold Cpp.vec_size at 1. cbn [length]. lia.
Qed.

Lemma MeanReversionAlpha_warm_up_witness :
  silent (snd (Alpha.MeanReversionAlpha_feed
                 (Alpha.MeanReversionAlpha_initialize (Alpha.MeanReversionAlpha_new "mr" 20))
                 (map Alpha.tick [150; 151; 149]%float))).
Proof.
  apply MeanReversionAlpha_warm_up. vm_compute. reflexivity.
Defined.

Lemma last_default {A} (l : list A) (y d1 d2 : A) :
  List.last (y :: l) d1 = List.last (y :: l) d2.
Proof.
  revert y. induction l as [|z l IH]; intros y; [reflexivity|].
  change (List.last (z :: l) d1 = List.last (z :: l) d2). apply IH.
Qed.

Lemma last_cons_default {A} (l : list A) (x d : A) :
  List.last (x :: l) d = List.last l x.
Proof.
  destruct l as [|y l]; [reflexivity|].
  change (List.last (y :: l) d = List.last (y :: l) x). apply last_default.
Qed.

Section MomentumWindow.

Variable tanh : float -> float.

Lemma MomentumAlpha_tick_returns (a : Alpha.MomentumAlpha) (data : Alpha.MarketData) :
  let a1 := fst (Alpha.MomentumAlpha_onMarketData tanh a data) in
  Alpha.mo_lookbackPeriod_ a1 = Alpha.mo_lookbackPeriod_ a /\
  Alpha.mo_lastPrice_ a1 = Some (Alpha.md_price data) /\
  Alpha.mo_returns_ a1
  = fold_left (push_capped (Cpp.size_t_of_int (Alpha.mo_lookbackPeriod_ a)))
              (returns_of (Alpha.mo_lastPrice_ a) [Alpha.md_price data])
              (Alpha.mo_returns_ a).
Proof.
  unfold Alpha.MomentumAlpha_onMarketData, push_capped.
  destruct (Alpha.mo_lastPrice_ a) as [lastPrice|]; cbn [returns_of fold_left];
    match goal with
    | |- context [if ?b then (_, None) else _] => destruct b
    end; cbn; auto.
Qed.

Lemma MomentumAlpha_feed_returns (ticks : list Alpha.MarketData) :
  forall a,
    let a1 := fst (Alpha.MomentumAlpha_feed tanh a ticks) in
    Alpha.mo_returns_ a1
    = fold_left (push_capped (Cpp.size_t_of_int (Alpha.mo_lookbackPeriod_ a)))
                (returns_of (Alpha.mo_lastPrice_ a) (map Alpha.md_price ticks))
                (Alpha.mo_returns_ a)
    /\ Alpha.mo_lastPrice_ a1
       = List.last (map Some (map Alpha.md_price ticks)) (Alpha.mo_lastPrice_ a).
Proof.
  induction ticks as [|d rest IH]; intros a; [split; reflexivity|].
  cbn [Alpha.MomentumAlpha_feed].
  destruct (MomentumAlpha_tick_returns a d) as (HL & Hlast & Hret).
  destruct (Alpha.MomentumAlpha_onMarketData tanh a d) as [a1 out]. cbn [fst] in *.
  specialize (IH a1). cbn zeta in IH.
  destruct (Alpha.MomentumAlpha_feed tanh a1 rest) as [a2 outs]. cbn [fst] in *.
  destruct IH as [IHret IHlast]. rewrite IHret, IHlast, HL, Hlast, Hret. split.
  - cbn [map]. destruct (Alpha.mo_lastPrice_ a); reflexivity.
  - cbn [map]. symmetry. apply last_cons_default.
Qed.

(** X3: after [initialize()] and the prices p0, ..., pn, the returns
    buffer of a momentum strategy is the last L of the simple returns
    [(p1 - p0) / p0], ..., [(pn - p(n-1)) / p(n-1)], in order, L being the
    lookback as a [size_t]; the first price gives no return. *)
Theorem MomentumAlpha_returns_window (a : Alpha.MomentumAlpha)
  (ticks : list Alpha.MarketData) :
  Alpha.mo_returns_
    (fst (Alpha.MomentumAlpha_feed tanh (Alpha.MomentumAlpha_initialize a) ticks))
  = last_n (Cpp.size_t_of_int (Alpha.mo_lookbackPeriod_ a))
           (returns_of None (map Alpha.md_price ticks)).
Proof.
  destruct (MomentumAlpha_feed_returns ticks (Alpha.MomentumAlpha_initialize a)) as [Hret _].
  rewrite Hret.
  cbn [Alpha.MomentumAlpha_initialize Alpha.mo_lookbackPeriod_ Alpha.mo_returns_
       Alpha.mo_lastPrice_].
  pose proof (size_t_of_int_nonneg (Alpha.mo_lookbackPeriod_ a)) as Hcap.
  exact (fold_push_capped _ _ Hcap []).
Qed.

End MomentumWindow.

(** X3 continued: the price held is the last one received. *)
Lemma MomentumAlpha_last_price (tanh : float -> float) (a : Alpha.MomentumAlpha)
  (ticks : list Alpha.MarketData) :
  Alpha.mo_lastPrice_
    (fst (Alpha.MomentumAlpha_feed tanh (Alpha.MomentumAlpha_initialize a) ticks))
  = List.last (map Some (map Alpha.md_price ticks)) None.
Proof.
  destruct (MomentumAlpha_feed_returns tanh ticks (Alpha.MomentumAlpha_initialize a))
    as [_ Hlast].
  exact Hlast.
Qed.

(** ** The engine pool *)

Section EnginePool.

Variable tanh : float -> float.
Context {Callback : Type}.

Lemma initialize_isActive (alpha : Engine.IAlphaStrategy) :
  Engine.isActive (Engine.initialize alpha) = true.
Proof. destruct alpha; reflexivity. Qed.

Lemma onMarketData_isActive (alpha : Engine.IAlphaStrategy) (data : Alpha.MarketData) :
  Engine.isActive alpha = true ->
  Engine.isActive (fst (Engine.onMarketData tanh alpha data)) = true.
Proof.
  destruct alpha as [a|a]; unfold Engine.onMarketData, Engine.isActive.
  - unfold Alpha.MeanReversionAlpha_isActive. rewrite andb_true_r. intros Hinit.
    destruct (MeanReversionAlpha_tick_history a data Hinit) as (Hinit1 & _).
    destruct (Alpha.MeanReversionAlpha_onMarketData a data) as [a1 out].
    cbn [fst] in *. now rewrite andb_true_r.
  - intros _. now destruct (Alpha.MomentumAlpha_onMarketData tanh a data).
Qed.

Lemma tasks_for_all_active (alphas : list Engine.IAlphaStrategy) (data : Alpha.MarketData) :
  Forall (fun alpha => Engine.isActive alpha = true) alphas ->
  Engine.tasks_for alphas data = imap (fun i _ => (i, data)) alphas.
Proof.
  unfold Engine.tasks_for. intros Hactive.
  assert (Hfilter : forall (l : list Engine.IAlphaStrategy) (f : nat -> nat),
             Forall (fun alpha => Engine.isActive alpha = true) l ->
             List.filter (fun entry => Engine.isActive (snd entry))
                         (imap (fun i x => (f i, x)) l)
             = imap (fun i x => (f i, x)) l).
  { induction l as [|x l IH]; intros f Hl; [reflexivity|].
    inversion Hl as [|? ? Hx Hrest]; subst. cbn [imap List.filter snd].
    rewrite Hx. f_equal. apply (IH (f ∘ S) Hrest). }
  change (imap pair alphas) with (imap (fun i x => (id i, x)) alphas).
  rewrite (Hfilter alphas id Hactive).
  change (map (fun entry : nat * Engine.IAlphaStrategy => (fst entry, data)))
    with (fmap (M:=list) (fun entry : nat * Engine.IAlphaStrategy => (fst entry, data))).
  rewrite fmap_imap. apply imap_ext. reflexivity.
Qed.

Lemma tasks_for_valid (alphas : list Engine.IAlphaStrategy) (data : Alpha.MarketData) :
  Forall (fun task => (fst task < length alphas)%nat) (Engine.tasks_for alphas data).
Proof.
  unfold Engine.tasks_for. apply Forall_forall. intros task Hin.
  apply list_elem_of_In in Hin.
  apply in_map_iff in Hin as ([i alpha] & <- & Hin).
  apply filter_In in Hin as [Hin _]. apply list_elem_of_In in Hin.
  apply elem_of_lookup_imap in Hin as (j & y & Heq & Hj).
  injection Heq as -> ->. cbn. eapply lookup_lt_Some. exact Hj.
Qed.


Lemma workerThread_sound (e : Engine.AlphaEnginePool Callback)
  (worker : Engine.Worker Callback) :
  Engine.pool_sound e -> Engine.pool_sound (fst (fst (Engine.workerThread tanh e worker))).
Proof.
  intros [Hactive Htasks].
  destruct worker as [|i data|sig|sig pending|]; cbn [Engine.workerThread fst].
  - unfold Engine.workerThread_take.
    destruct (Engine.tasks_ e) as [|[i data] rest] eqn:Hq; cbn [fst].
    + split; [exact Hactive|]. rewrite Hq. constructor.
    + split; cbn; [exact Hactive|]. now inversion Htasks.
  - unfold Engine.processAlpha_call.
    destruct (Engine.alphas_ e !! i) as [alpha|] eqn:Hi; [|now split].
    pose proof (onMarketData_isActive alpha data) as Hstay.
    destruct (Engine.onMarketData tanh alpha data) as [alpha1 out]. cbn [fst] in *.
    split; cbn.
    + apply Forall_insert; [exact Hactive|]. apply Hstay.
      exact (Forall_lookup_1 _ _ _ _ Hactive Hi).
    + now rewrite length_insert.
  - now split.
  - destruct (Engine.notifyCallbacks_next sig pending). now split.
  - now split.
Qed.

Lemma step_sound (st : Engine.AlphaEnginePool Callback * list (Callback * Alpha.AlphaSignal)) (s : Engine.Step Callback) :
  Engine.pool_sound (fst st) -> Engine.pool_sound (fst (Engine.step tanh st s)).
Proof.
  destruct st as [e calls]. intros Hsound. pose proof Hsound as [Hactive Htasks].
  cbn [fst] in *.
  destruct s as [alpha|callback| | |data|w]; cbn [Engine.step fst].
  - split; cbn.
    + apply Forall_app. split; [exact Hactive|].
      constructor; [apply initialize_isActive|constructor].
    + rewrite length_app. eapply Forall_impl; [exact Htasks|]. cbn. intros; lia.
  - now split.
  - now split.
  - now split.
  - unfold Engine.processMarketData. destruct (Engine.running_ e); cbn; [|now split].
    split; cbn; [exact Hactive|].
    apply Forall_app. split; [exact Htasks|apply tasks_for_valid].
  - destruct (Engine.workers_ e !! w) as [worker|]; [|exact Hsound].
    pose proof (workerThread_sound e worker Hsound) as Hstep.
    destruct (Engine.workerThread tanh e worker) as [[e1 worker1] made].
    exact Hstep.
Qed.

Lemma run_sound (numThreads : Z) (steps : list (Engine.Step Callback)) :
  Engine.pool_sound (fst (Engine.run tanh numThreads steps)).
Proof.
  unfold Engine.run.
  assert (Hnew : Engine.pool_sound (fst (Engine.AlphaEnginePool_new (Callback:=Callback) numThreads,
                                  @nil (Callback * Alpha.AlphaSignal))))
    by (split; constructor).
  revert Hnew. generalize (Engine.AlphaEnginePool_new (Callback:=Callback) numThreads,
                           @nil (Callback * Alpha.AlphaSignal)).
  induction steps as [|s rest IH]; intros st Hst; [exact Hst|].
  cbn [fold_left]. apply IH. now apply step_sound.
Qed.

(** X4: in every pool reached by client calls and worker steps, whatever
    the number of workers, each strategy is active and each queued task
    points to a strategy of the pool; there [processMarketData] does
    nothing while the pool is not running, and otherwise it appends
    exactly one task per strategy, in the order of registration, each
    with the tick. *)
Theorem processMarketData_fans_out (numThreads : Z) (steps : list (Engine.Step Callback))
  (data : Alpha.MarketData) :
  let e := fst (Engine.run tanh numThreads steps) in
  Engine.pool_sound e /\
  (Engine.running_ e = false -> Engine.processMarketData e data = e) /\
  (Engine.running_ e = true ->
   Engine.tasks_ (Engine.processMarketData e data)
   = Engine.tasks_ e ++ imap (fun i _ => (i, data)) (Engine.alphas_ e)).
Proof.
  cbn zeta. pose proof (run_sound numThreads steps) as Hsound.
  split; [exact Hsound|]. unfold Engine.processMarketData. split; intros ->; [reflexivity|].
  cbn. f_equal. apply tasks_for_all_active. apply Hsound.
Qed.

(** *** Interleavings *)



Lemma filter_Permutation_list {A : Type} (f : A -> bool) (l l' : list A) :
  Permutation l l' -> Permutation (List.filter f l) (List.filter f l').
Proof.
  induction 1 as [|x l l' _ IH|x y l|l l' l'' _ IH1 _ IH2]; cbn [List.filter].
  - constructor.
  - destruct (f x); [now constructor|exact IH].
  - destruct (f x), (f y); try reflexivity. apply perm_swap.
  - now transitivity (List.filter f l').
Qed.





(** The interleaving of one list is that list: the order of a list is
    kept. *)
Lemma interleaving_single {A : Type} (ls : list (list A)) (l t : list A) :
  Interleaving ls l -> List.filter nonempty ls = List.filter nonempty [t] -> l = t.
Proof.
  intros Hl. revert t.
  enough (Hgen : forall t, Permutation (List.filter nonempty ls) (List.filter nonempty [t]) ->
                           l = t)
    by (intros t Heq; apply Hgen; now rewrite Heq).
  induction Hl as [|ls l _ IH|t0 x ls l _ IH|ls ls' l Hperm _ IH]; intros t Ht.
  - cbn in Ht. destruct t; [reflexivity|]. cbn in Ht. now apply Permutation_nil_cons in Ht.
  - apply IH. exact Ht.
  - cbn [List.filter] in Ht.
    replace (nonempty (t0 ++ [x])) with true in Ht by now destruct t0.
    destruct t as [|y t]; cbn [nonempty] in Ht.
    + symmetry in Ht. now apply Permutation_nil_cons in Ht.
    + pose proof (Permutation_length Ht) as Hlen. cbn [length] in Hlen.
      destruct (List.filter nonempty ls) as [|? ?] eqn:Hrest; [|discriminate Hlen].
      apply Permutation_length_1 in Ht. rewrite <- Ht. f_equal.
      apply IH. cbn [List.filter]. rewrite Hrest.
      destruct t0; cbn [nonempty]; reflexivity.
  - apply IH. rewrite <- Ht. now apply filter_Permutation_list.
Qed.

(** *** The deliveries of a run *)









End EnginePool.

(** The deliveries of two workers do interleave: in the run
    [two_workers_in_turn] the first callback receives both signals before
    the second receives any. *)
Example two_workers_interleave :
  exists s0 s1,
    snd (Engine.run Alpha.tanh_sign 2
           (map Engine.StepRegister ["log"; "forward"] ++ two_workers_in_turn))
    = [("log", s0); ("log", s1); ("forward", s0); ("forward", s1)]
    /\ Alpha.alphaId s0 = "Momentum_0" /\ Alpha.alphaId s1 = "Momentum_1".
Proof. vm_compute. eexists _, _. repeat split; reflexivity. Qed.


Lemma processMarketData_fans_out_witness :
  let e := fst (Engine.run (Callback:=string) Alpha.tanh_sign 8
                  [Engine.StepAddAlpha (Engine.Momentum (Alpha.MomentumAlpha_new "Momentum_0" 1));
                   Engine.StepAddAlpha (Engine.Momentum (Alpha.MomentumAlpha_new "Momentum_1" 2));
                   Engine.StepStart]) in
  Engine.tasks_ (Engine.processMarketData e (Alpha.tick 100%float))
  = Engine.tasks_ e ++ imap (fun i _ => (i, Alpha.tick 100%float)) (Engine.alphas_ e).
Proof.
  apply (processMarketData_fans_out (Callback:=string) Alpha.tanh_sign 8).
  reflexivity.
Defined.

(** ** The signal buffers of the aggregator *)

Lemma addSignal_buffer (agg : Aggregator.SignalAggregator) (sig : Aggregator.AlphaSignal)
  (sym : string) :
  buffer (Aggregator.addSignal agg sig) sym
  = if bool_decide (Aggregator.symbol sig = sym)
    then push_capped 1000 (buffer agg sym) sig
    else buffer agg sym.
Proof.
  unfold buffer, Aggregator.addSignal. cbn [Aggregator.signalsBySymbol_].
  destruct (bool_decide_reflect (Aggregator.symbol sig = sym)) as [->|Hne].
  - rewrite lookup_insert_eq. reflexivity.
  - now rewrite lookup_insert_ne.
Qed.

Lemma addSignals_buffer (sigs : list Aggregator.AlphaSignal) (sym : string) :
  forall agg,
    buffer (fold_left Aggregator.addSignal sigs agg) sym
    = fold_left (push_capped 1000) (signals_of sym sigs) (buffer agg sym).
Proof.
  induction sigs as [|sig rest IH]; intros agg; [reflexivity|].
  cbn [fold_left signals_of List.filter]. rewrite IH, addSignal_buffer.
  fold (signals_of sym rest).
  now destruct (bool_decide (Aggregator.symbol sig = sym)).
Qed.

(** X6: in an aggregator that received the signals [sigs], in this order,
    the buffer of a symbol holds the last 1000 signals of that symbol, in
    the order of arrival: eviction is first in, first out, per symbol. *)
Theorem addSignal_keeps_last_1000 (s : Aggregator.AggregationStrategy)
  (sigs : list Aggregator.AlphaSignal) (sym : string) :
  buffer (fold_left Aggregator.addSignal sigs (Aggregator.SignalAggregator_new s)) sym
  = last_n 1000 (signals_of sym sigs).
Proof.
  rewrite addSignals_buffer.
  change (buffer (Aggregator.SignalAggregator_new s) sym) with (last_n 1000 (@nil Aggregator.AlphaSignal)).
  now rewrite fold_push_capped.
Qed.

Lemma clearSignalsOlderThan_buffer (agg : Aggregator.SignalAggregator) (ts : Z) (sym : string) :
  buffer (Aggregator.clearSignalsOlderThan agg ts) sym
  = List.filter (fun sig => negb (Aggregator.timestampNs sig <? ts)) (buffer agg sym).
Proof.
  unfold buffer, Aggregator.clearSignalsOlderThan. cbn [Aggregator.signalsBySymbol_].
  rewrite lookup_fmap. now destruct (Aggregator.signalsBySymbol_ agg !! sym).
Qed.

Lemma vec_size_filter_le {A} (f : A -> bool) (l : list A) :
  Cpp.vec_size (List.filter f l) <= Cpp.vec_size l.
Proof.
  unfold Cpp.vec_size. induction l as [|x l IH]; cbn; [lia|].
  destruct (f x); cbn [length]; lia.
Qed.

(** X7: whatever signals are added and whatever evictions by age are made,
    no buffer ever holds more than 1000 signals. *)
Theorem buffers_stay_bounded (s : Aggregator.AggregationStrategy)
  (calls : list AggregatorCall) (sym : string) :
  Cpp.vec_size (buffer (fold_left aggregator_call calls (Aggregator.SignalAggregator_new s))
                       sym) <= 1000.
Proof.
  assert (Hnew : Cpp.vec_size (buffer (Aggregator.SignalAggregator_new s) sym) <= 1000)
    by (vm_compute; discriminate).
  revert Hnew. generalize (Aggregator.SignalAggregator_new s).
  induction calls as [|c rest IH]; intros agg Hagg; [exact Hagg|].
  cbn [fold_left]. apply IH. destruct c as [sig|ts]; cbn [aggregator_call].
  - rewrite addSignal_buffer. destruct (bool_decide _); [|exact Hagg].
    rewrite push_capped_last_n, vec_size_last_n by lia. lia.
  - rewrite clearSignalsOlderThan_buffer.
    pose proof (vec_size_filter_le (fun sig => negb (Aggregator.timestampNs sig <? ts))
                  (buffer agg sym)). lia.
Qed.

(** X8: two evictions by age amount to one with the later of the two
    thresholds, in whichever order they are made. *)
Theorem clearSignalsOlderThan_twice (agg : Aggregator.SignalAggregator) (t1 t2 : Z) :
  Aggregator.clearSignalsOlderThan (Aggregator.clearSignalsOlderThan agg t1) t2
  = Aggregator.clearSignalsOlderThan agg (Z.max t1 t2).
Proof.
  unfold Aggregator.clearSignalsOlderThan. cbn [Aggregator.strategy_ Aggregator.signalsBySymbol_].
  f_equal. rewrite <- map_fmap_compose. apply map_fmap_ext. intros sym signals _.
  cbn. induction signals as [|sig rest IH]; [reflexivity|]. cbn [List.filter].
  destruct (Z.ltb_spec (Aggregator.timestampNs sig) t1);
    destruct (Z.ltb_spec (Aggregator.timestampNs sig) (Z.max t1 t2));
    cbn [negb List.filter]; try lia;
    destruct (Z.ltb_spec (Aggregator.timestampNs sig) t2); cbn [negb]; try lia;
    now rewrite IH.
Qed.

Lemma getAggregatedSignal_buffer (agg : Aggregator.SignalAggregator) (sym : string) :
  Aggregator.getAggregatedSignal agg sym
  = match buffer agg sym with
    | [] => None
    | signals => Some (Aggregator.aggregate (Aggregator.strategy_ agg) signals)
    end.
Proof.
  unfold Aggregator.getAggregatedSignal, buffer.
  now destruct (Aggregator.signalsBySymbol_ agg !! sym) as [[|sig rest]|].
Qed.

(** X9: after an eviction at [ts], a symbol has no aggregated signal
    exactly when all the signals that were buffered for it are older than
    [ts]; otherwise its aggregated signal is the aggregate of those that
    are not. *)
Theorem getAggregatedSignal_after_clear (agg : Aggregator.SignalAggregator) (ts : Z)
  (sym : string) :
  let kept := List.filter (fun sig => negb (Aggregator.timestampNs sig <? ts))
                          (buffer agg sym) in
  (Aggregator.getAggregatedSignal (Aggregator.clearSignalsOlderThan agg ts) sym = None
   <-> Forall (fun sig => Aggregator.timestampNs sig < ts) (buffer agg sym)) /\
  (kept <> [] ->
   Aggregator.getAggregatedSignal (Aggregator.clearSignalsOlderThan agg ts) sym
   = Some (Aggregator.aggregate (Aggregator.strategy_ agg) kept)).
Proof.
  cbn zeta. rewrite getAggregatedSignal_buffer, clearSignalsOlderThan_buffer.
  cbn [Aggregator.clearSignalsOlderThan Aggregator.strategy_].
  split.
  - induction (buffer agg sym) as [|sig rest IH]; cbn [List.filter].
    + split; [constructor|reflexivity].
    + destruct (Z.ltb_spec (Aggregator.timestampNs sig) ts); cbn [negb].
      * rewrite IH. split; [now constructor|now inversion 1].
      * split; [discriminate|]. inversion 1; lia.
  - now destruct (List.filter _ (buffer agg sym)).
Qed.

Lemma getAggregatedSignal_after_clear_witness :
  Aggregator.getAggregatedSignal
    (Aggregator.clearSignalsOlderThan
       (Aggregator.addSignal (Aggregator.SignalAggregator_new Aggregator.Median) evicted_signal)
       101) "AAPL" = None.
Proof.
  apply (proj1 (getAggregatedSignal_after_clear _ 101 "AAPL")).
  vm_compute. repeat constructor.
Defined.

(** ** The aggregation policies *)

Lemma filter_confident_idem (signals : list Aggregator.AlphaSignal) :
  List.filter Aggregator.confident (List.filter Aggregator.confident signals)
  = List.filter Aggregator.confident signals.
Proof.
  induction signals as [|sig rest IH]; [reflexivity|]. cbn [List.filter].
  destruct (Aggregator.confident sig) eqn:Hc; [|exact IH].
  cbn [List.filter]. now rewrite Hc, IH.
Qed.

Lemma median_values_filter (signals : list Aggregator.AlphaSignal) :
  Aggregator.erase_remove 0.0%float
    (map (fun sig => if Aggregator.confident sig then Aggregator.signal sig else 0.0%float)
         signals)
  = Aggregator.erase_remove 0.0%float
      (map Aggregator.signal (List.filter Aggregator.confident signals)).
Proof.
  unfold Aggregator.erase_remove.
  induction signals as [|sig rest IH]; [reflexivity|]. cbn [map List.filter].
  destruct (Aggregator.confident sig) eqn:Hc.
  - cbn [map List.filter]. now rewrite IH.
  - change (PrimFloat.eqb 0.0%float 0.0%float) with true. cbn [negb]. exact IH.
Qed.

Lemma MedianAggregation_aggregate_values (signals : list Aggregator.AlphaSignal) :
  Aggregator.MedianAggregation_aggregate signals
  = Aggregator.median_of
      (Aggregator.erase_remove 0.0%float
         (map Aggregator.signal (List.filter Aggregator.confident signals))).
Proof.
  unfold Aggregator.MedianAggregation_aggregate.
  destruct signals as [|sig rest]; [reflexivity|]. now rewrite median_values_filter.
Qed.

(** X10: a signal whose confidence is below the threshold, or is NaN,
    never influences the aggregate: under either policy the aggregate of
    a buffer is the aggregate of its signals of confidence at least 0.3. *)
Theorem aggregate_ignores_low_confidence (s : Aggregator.AggregationStrategy)
  (signals : list Aggregator.AlphaSignal) :
  Aggregator.aggregate s signals
  = Aggregator.aggregate s (List.filter Aggregator.confident signals).
Proof.
  destruct s; cbn [Aggregator.aggregate].
  - unfold Aggregator.WeightedAverageAggregation_aggregate.
    rewrite filter_confident_idem.
    destruct signals as [|sig rest]; [reflexivity|].
    now destruct (List.filter Aggregator.confident (sig :: rest)).
  - now rewrite !MedianAggregation_aggregate_values, filter_confident_idem.
Qed.

Lemma sort_insert_In (x y : float) (v : list float) :
  In y (Aggregator.sort_insert x v) <-> y = x \/ In y v.
Proof.
  induction v as [|z v IH]; cbn [Aggregator.sort_insert].
  - cbn. intuition.
  - destruct (PrimFloat.ltb x z); cbn [In] in *; rewrite ?IH; intuition.
Qed.

Lemma std_sort_In (y : float) (v : list float) : In y (Aggregator.std_sort v) <-> In y v.
Proof.
  unfold Aggregator.std_sort. induction v as [|x v IH]; [reflexivity|].
  cbn [fold_right In]. rewrite sort_insert_In, IH. intuition.
Qed.

(** Without NaN the result is ordered, as that of [std::sort] is. *)
Lemma sort_insert_sorted (x : float) (v : list float) :
  PrimFloat.eqb x x = true ->
  Forall (fun y => PrimFloat.eqb y y = true) v ->
  Sorted (fun a b => PrimFloat.leb a b = true) v ->
  Sorted (fun a b => PrimFloat.leb a b = true) (Aggregator.sort_insert x v).
Proof.
  intros Hx Hv Hsorted. induction v as [|y rest IH]; cbn [Aggregator.sort_insert].
  - repeat constructor.
  - inversion Hv as [|? ? Hy Hrest]; subst.
    apply Sorted_inv in Hsorted as [Htail Hhead].
    destruct (PrimFloat.ltb x y) eqn:Hlt.
    + constructor; [now constructor|]. constructor. now apply ltb_leb.
    + constructor; [now apply IH|].
      destruct rest as [|z rest]; cbn [Aggregator.sort_insert].
      * constructor. now apply not_ltb_leb.
      * destruct (PrimFloat.ltb x z); constructor.
        -- now apply not_ltb_leb.
        -- now inversion Hhead.
Qed.

Lemma std_sort_sorted (v : list float) :
  Forall (fun y => PrimFloat.eqb y y = true) v ->
  Sorted (fun a b => PrimFloat.leb a b = true) (Aggregator.std_sort v).
Proof.
  unfold Aggregator.std_sort. induction 1 as [|x v Hx Hv IH]; cbn [fold_right].
  - constructor.
  - apply sort_insert_sorted; [exact Hx| |exact IH].
    apply Forall_forall. intros y Hy.
    apply (proj1 (Forall_forall _ _) Hv y). apply list_elem_of_In.
    apply (proj1 (std_sort_In y v)). apply list_elem_of_In. exact Hy.
Qed.

Lemma std_sort_length (v : list float) : length (Aggregator.std_sort v) = length v.
Proof.
  unfold Aggregator.std_sort. induction v as [|x v IH]; [reflexivity|].
  cbn [fold_right length]. rewrite <- IH.
  generalize (fold_right Aggregator.sort_insert [] v). intros w.
  induction w as [|z w IHw]; [reflexivity|]. cbn [Aggregator.sort_insert].
  destruct (PrimFloat.ltb x z); cbn [length]; [reflexivity|now rewrite IHw].
Qed.

Lemma erase_remove_In (y : float) (v : list float) :
  In y (Aggregator.erase_remove 0.0%float v) -> In y v.
Proof. unfold Aggregator.erase_remove. intros Hin. now apply filter_In in Hin. Qed.

(** X11: when the number of values that the Median policy keeps (the
    non-zero values of the signals of confidence at least 0.3) is odd, its
    result is the value of one of those signals. *)
Theorem median_is_a_kept_value (signals : list Aggregator.AlphaSignal) :
  let values :=
    Aggregator.erase_remove 0.0%float
      (map Aggregator.signal (List.filter Aggregator.confident signals)) in
  Z.odd (Cpp.vec_size values) = true ->
  exists sig,
    In sig signals /\ Aggregator.confident sig = true /\
    Aggregator.signal sig = Aggregator.MedianAggregation_aggregate signals.
Proof.
  intros values Hodd. rewrite MedianAggregation_aggregate_values. fold values.
  assert (Hin : In (Aggregator.median_of values) values).
  { unfold Aggregator.median_of.
    destruct values as [|v0 rest] eqn:Hvalues; [discriminate Hodd|].
    rewrite <- Hvalues in *.
    assert (Hlen : Cpp.vec_size (Aggregator.std_sort values) = Cpp.vec_size values)
      by (unfold Cpp.vec_size; now rewrite std_sort_length).
    rewrite Hlen.
    assert (Hmod : Cpp.vec_size values mod 2 = 1)
      by (rewrite Zmod_odd, Hodd; reflexivity).
    rewrite Hmod. cbn [Z.eqb].
    apply std_sort_In. apply nth_In. rewrite std_sort_length.
    assert (Hpos : 0 < Cpp.vec_size values)
      by (rewrite Hvalues; unfold Cpp.vec_size; cbn [length]; lia).
    unfold Cpp.vec_size in *.
    apply Nat2Z.inj_lt. rewrite Z2Nat.id by (apply Z.div_pos; lia).
    apply Z.div_lt; lia. }
  apply erase_remove_In in Hin. apply in_map_iff in Hin as (sig & Hsig & Hin).
  apply filter_In in Hin as [Hin Hc]. now exists sig.
Qed.

Lemma median_is_a_kept_value_witness :
  exists sig,
    In sig signals_with_zero /\ Aggregator.confident sig = true /\
    Aggregator.signal sig
    = Aggregator.MedianAggregation_aggregate
        (Aggregator.mkAlphaSignal "Alpha_3" "AAPL" 0.25%float 0.9%float 4 :: signals_with_zero).
Proof.
  destruct (median_is_a_kept_value
              (Aggregator.mkAlphaSignal "Alpha_3" "AAPL" 0.25%float 0.9%float 4
               :: signals_with_zero)) as (sig & Hin & Hc & Hsig); [reflexivity|].
  exists sig. split; [|now split].
  destruct Hin as [<-|Hin]; [|exact Hin].
  vm_compute in Hsig.
  assert (Heqb : PrimFloat.eqb 0.25%float 0.5%float = true) by (rewrite Hsig; reflexivity).
  vm_compute in Heqb. discriminate.
Defined.

(** ** The checks and their aggregation *)

Lemma string_append_assoc (a b c : string) :
  String.append (String.append a b) c = String.append a (String.append b c).
Proof.
  induction a as [|x a IH]; [reflexivity|].
  change (String x (String.append (String.append a b) c)
          = String x (String.append a (String.append b c))).
  now rewrite IH.
Qed.

Lemma string_append_nil_r (a : string) : String.append a "" = a.
Proof.
  induction a as [|x a IH]; [reflexivity|].
  change (String x (String.append a "") = String x a). now rewrite IH.
Qed.

Lemma concat_separator (m : string) (ms : list string) :
  String.concat "; " (m :: ms)
  = String.append m
      (fold_right (fun x acc => String.append "; " (String.append x acc)) "" ms).
Proof.
  revert m. induction ms as [|x xs IH]; intros m.
  - cbn [String.concat fold_right]. now rewrite string_append_nil_r.
  - change (String.concat "; " (m :: x :: xs))
      with (String.append m (String.append "; " (String.concat "; " (x :: xs)))).
    now rewrite IH.
Qed.

Lemma abs_opp (x : float) : PrimFloat.abs (PrimFloat.opp x) = PrimFloat.abs x.
Proof.
  apply Prim2SF_inj. rewrite !FloatAxioms.abs_spec, FloatAxioms.opp_spec.
  now destruct (Prim2SF x).
Qed.

Section RiskChecks.

Variable to_string : float -> string.

(** X12: every violation of a result is tagged NONE, there is one per
    enabled check that rejects the order, in the order of the checks, and
    the result is approved exactly when no enabled check rejects. *)
Theorem validateAll_one_violation_per_failure (checks : list Risk.RiskCheck)
  (order : Risk.Order) :
  Risk.violations (Risk.validateAll to_string checks order)
  = map (fun _ => Risk.NONE) (Risk.failing to_string checks order)
  /\ Risk.approved (Risk.validateAll to_string checks order)
     = match Risk.failing to_string checks order with [] => true | _ => false end.
Proof. apply validateAll_tags. Qed.

Lemma failing_enabled (checks : list Risk.RiskCheck) (order : Risk.Order) :
  Risk.failing to_string (List.filter Risk.isEnabled checks) order
  = Risk.failing to_string checks order.
Proof.
  unfold Risk.failing. induction checks as [|check rest IH]; [reflexivity|].
  cbn [List.filter]. destruct (Risk.isEnabled check) eqn:He; cbn [List.filter andb].
  - rewrite He. cbn [andb]. now rewrite IH.
  - exact IH.
Qed.

(** X13: a disabled check takes no part: the result of the battery is
    the result of its enabled checks alone, and a battery in which every
    check was disabled approves every order with no violation and an
    empty reason. *)
Theorem validateAll_skips_disabled (checks : list Risk.RiskCheck) (order : Risk.Order) :
  Risk.validateAll to_string checks order
  = Risk.validateAll to_string (List.filter Risk.isEnabled checks) order
  /\ Risk.validateAll to_string (map (fun check => Risk.setEnabled check false) checks) order
     = Risk.RiskCheckResult_new.
Proof.
  split.
  - now rewrite !validateAll_failing, failing_enabled.
  - rewrite validateAll_failing.
    assert (Hnone : Risk.failing to_string
                      (map (fun check => Risk.setEnabled check false) checks) order = []).
    { unfold Risk.failing. induction checks as [|check rest IH]; [reflexivity|].
      cbn [map List.filter].
      assert (He : Risk.isEnabled (Risk.setEnabled check false) = false)
        by now destruct check.
      rewrite He. exact IH. }
    now rewrite Hnone.
Qed.

(** X14: the approval, and the number of violations, do not depend on
    the order in which the checks were added. *)
Theorem validateAll_approval_order_free (checks checks' : list Risk.RiskCheck)
  (order : Risk.Order) :
  Permutation checks checks' ->
  Risk.approved (Risk.validateAll to_string checks order)
  = Risk.approved (Risk.validateAll to_string checks' order)
  /\ length (Risk.violations (Risk.validateAll to_string checks order))
     = length (Risk.violations (Risk.validateAll to_string checks' order)).
Proof.
  intros Hperm.
  assert (Hfail : Permutation (Risk.failing to_string checks order)
                              (Risk.failing to_string checks' order)).
  { unfold Risk.failing. induction Hperm as [|x l l' _ IH|x y l|l l' l'' _ IH1 _ IH2].
    - constructor.
    - cbn [List.filter]. destruct (_ && _); [now constructor|exact IH].
    - cbn [List.filter]. repeat destruct (_ && _); try reflexivity. apply perm_swap.
    - now transitivity (List.filter
        (fun check => Risk.isEnabled check && negb (fst (Risk.validate to_string check order "")))
        l'). }
  destruct (validateAll_tags to_string checks order) as [Hv Ha].
  destruct (validateAll_tags to_string checks' order) as [Hv' Ha'].
  rewrite Hv, Hv', Ha, Ha', !length_map. split.
  - destruct (Risk.failing to_string checks order) as [|f fs] eqn:Hf.
    + apply Permutation_nil in Hfail. now rewrite Hfail.
    + destruct (Risk.failing to_string checks' order); [|reflexivity].
      symmetry in Hfail. now apply Permutation_nil in Hfail.
  - now apply Permutation_length.
Qed.

(** The message of a rejection begins with fixed text. *)
Lemma validate_message_nonempty (check : Risk.RiskCheck) (order : Risk.Order) :
  fst (Risk.validate to_string check order "") = false ->
  snd (Risk.validate to_string check order "") <> "".
Proof.
  destruct check as [c|c|c]; cbn;
    unfold Risk.FatFingerCheck_validate, Risk.DrawdownCheck_validate,
           Risk.ConcentrationCheck_validate;
    repeat case_match; cbn; intros; discriminate.
Qed.

Lemma fold_record_failure_reason (order : Risk.Order) (fs : list Risk.RiskCheck) :
  forall result,
    Risk.reason result <> "" ->
    Risk.reason (fold_left (Risk.record_failure to_string order) fs result)
    = String.append (Risk.reason result)
        (fold_right (fun check acc =>
                       String.append "; "
                         (String.append (snd (Risk.validate to_string check order "")) acc))
                    "" fs).
Proof.
  induction fs as [|f fs IH]; intros result Hne; cbn [fold_left fold_right].
  - now rewrite string_append_nil_r.
  - rewrite IH.
    + unfold Risk.record_failure, Risk.addViolation. cbn [Risk.reason].
      destruct (Risk.reason result) as [|x r] eqn:Hr; [congruence|].
      now rewrite !string_append_assoc.
    + unfold Risk.record_failure, Risk.addViolation. cbn [Risk.reason].
      destruct (Risk.reason result); [congruence|]. discriminate.
Qed.

(** X15: the reason of a result is the messages of the enabled checks
    that reject the order, in the order of the checks, joined by "; ". *)
Theorem validateAll_reason_joined (checks : list Risk.RiskCheck) (order : Risk.Order) :
  Risk.reason (Risk.validateAll to_string checks order)
  = String.concat "; "
      (map (fun check => snd (Risk.validate to_string check order ""))
           (Risk.failing to_string checks order)).
Proof.
  rewrite validateAll_failing.
  assert (Hfail : Forall (fun check => fst (Risk.validate to_string check order "") = false)
                         (Risk.failing to_string checks order)).
  { unfold Risk.failing. apply Forall_forall. intros check Hin.
    apply list_elem_of_In, filter_In in Hin as [_ Hin].
    apply andb_true_iff in Hin as [_ Hin]. now destruct (fst _). }
  destruct (Risk.failing to_string checks order) as [|f fs]; [reflexivity|].
  inversion Hfail as [|? ? Hf Hfs]; subst. cbn [fold_left map].
  rewrite fold_record_failure_reason.
  - unfold Risk.record_failure at 1, Risk.addViolation.
    cbn [Risk.reason Risk.RiskCheckResult_new]. cbn [String.append].
    rewrite concat_separator. f_equal.
    clear. induction fs as [|g gs IH]; [reflexivity|].
    cbn [fold_right map]. now rewrite IH.
  - unfold Risk.record_failure, Risk.addViolation. cbn. now apply validate_message_nonempty.
Qed.

(** X16: the fat-finger check looks at the symbol and at the magnitude of
    the quantity only: it accepts an order on a symbol without ADV, and
    its verdict is unchanged when the quantity is negated or the side is
    changed. *)
Theorem FatFingerCheck_magnitude_only (c : Risk.FatFingerCheck) (order : Risk.Order)
  (s : Risk.OrderSide) :
  (Risk.advMap_ c !! Risk.symbol order = None ->
   fst (Risk.FatFingerCheck_validate to_string c order "") = true) /\
  fst (Risk.FatFingerCheck_validate to_string c
         (with_quantity order (PrimFloat.opp (Risk.quantity order))) "")
  = fst (Risk.FatFingerCheck_validate to_string c order "") /\
  fst (Risk.FatFingerCheck_validate to_string c (with_side order s) "")
  = fst (Risk.FatFingerCheck_validate to_string c order "").
Proof.
  unfold Risk.FatFingerCheck_validate. cbn [with_quantity with_side Risk.symbol Risk.quantity].
  rewrite abs_opp.
  destruct (Risk.advMap_ c !! Risk.symbol order); repeat split; try discriminate;
    now destruct (Cpp.gtb _ _).
Qed.

(** X17: the side of an order is read by the drawdown check only: when
    no enabled drawdown check is among the checks, [validateAll] returns
    the same result, violations and reason included, whatever the side of
    the order; a Sell is judged as the Buy of the same quantity and
    price. *)
Theorem validateAll_side_read_by_drawdown_only (checks : list Risk.RiskCheck)
  (order : Risk.Order) (s : Risk.OrderSide) :
  Forall (fun check => reads_side check = false) checks ->
  Risk.validateAll to_string checks (with_side order s)
  = Risk.validateAll to_string checks order.
Proof.
  intros Hchecks. unfold Risk.validateAll.
  generalize Risk.RiskCheckResult_new, ""%string.
  induction Hchecks as [|check rest Hcheck _ IH]; intros result reason; [reflexivity|].
  cbn [Risk.validateAll_loop].
  destruct (Risk.isEnabled check) eqn:Henabled; cbn [negb]; [|apply IH].
  assert (Hsame : Risk.validate to_string check (with_side order s) reason
                  = Risk.validate to_string check order reason).
  { destruct check as [c|c|c]; cbn [Risk.validate].
    - reflexivity.
    - cbn [reads_side] in Hcheck. congruence.
    - reflexivity. }
  rewrite Hsame. destruct (Risk.validate to_string check order reason) as [ok reason'].
  destruct (negb ok); apply IH.
Qed.

End RiskChecks.

Lemma validateAll_approval_order_free_witness :
  Risk.approved (Risk.validateAll Risk.to_string_opaque scenario_battery (large_order Risk.BUY))
  = Risk.approved (Risk.validateAll Risk.to_string_opaque (rev scenario_battery)
                     (large_order Risk.BUY))
  /\ length (Risk.violations
               (Risk.validateAll Risk.to_string_opaque scenario_battery (large_order Risk.BUY)))
     = length (Risk.violations
                 (Risk.validateAll Risk.to_string_opaque (rev scenario_battery)
                    (large_order Risk.BUY))).
Proof.
  apply (validateAll_approval_order_free Risk.to_string_opaque).
  apply Permutation_rev.
Defined.

Lemma FatFingerCheck_magnitude_only_witness :
  fst (Risk.FatFingerCheck_validate Risk.to_string_opaque (Risk.FatFingerCheck_new 0.05%float)
         (large_order Risk.BUY) "") = true.
Proof.
  destruct (FatFingerCheck_magnitude_only Risk.to_string_opaque
              (Risk.FatFingerCheck_new 0.05%float) (large_order Risk.BUY) Risk.SELL)
    as [Hunknown _].
  apply Hunknown. reflexivity.
Defined.

Lemma validateAll_side_read_by_drawdown_only_witness :
  Risk.validateAll Risk.to_string_opaque scenario_sideless_battery
    (with_side (large_order Risk.BUY) Risk.SELL)
  = Risk.validateAll Risk.to_string_opaque scenario_sideless_battery (large_order Risk.BUY).
Proof.
  apply (validateAll_side_read_by_drawdown_only Risk.to_string_opaque).
  repeat constructor.
Defined.

(** ** The guardian *)

Section GuardianRuns.

Variable to_string : float -> string.

Lemma validate_without_data (check : Risk.RiskCheck) (order : Risk.Order) (reason : string) :
  Guardian.without_data check ->
  Risk.validate to_string check order reason = (true, reason).
Proof.
  destruct check as [c|c|c]; cbn; intros Hdata.
  - unfold Risk.FatFingerCheck_validate. now rewrite Hdata, lookup_empty.
  - unfold Risk.DrawdownCheck_validate. now rewrite Hdata.
  - unfold Risk.ConcentrationCheck_validate. now rewrite Hdata.
Qed.

Lemma validateAll_without_data (checks : list Risk.RiskCheck) (order : Risk.Order) :
  Forall Guardian.without_data checks ->
  Risk.validateAll to_string checks order = Risk.RiskCheckResult_new.
Proof.
  intros Hdata. rewrite validateAll_failing.
  assert (Hnone : Risk.failing to_string checks order = []).
  { unfold Risk.failing. induction Hdata as [|check rest Hcheck _ IH]; [reflexivity|].
    cbn [List.filter]. rewrite (validate_without_data check order "" Hcheck).
    cbn [fst negb]. rewrite andb_false_r. exact IH. }
  now rewrite Hnone.
Qed.

Lemma build_without_data (b : Guardian.RiskGuardianBuilder) :
  Forall Guardian.without_data (Guardian.checkAggregator_ (Guardian.build b)).
Proof.
  unfold Guardian.build. cbn [Guardian.checkAggregator_].
  destruct (Guardian.fatFingerEnabled_ b), (Guardian.drawdownEnabled_ b),
    (Guardian.concentrationEnabled_ b); repeat constructor.
Qed.

(** The state of a run that has approved everything so far. *)
Lemma call_approves (st : Guardian.RiskGuardian * list Risk.RiskCheckResult)
  (c : Guardian.Call) :
  let good (st : Guardian.RiskGuardian * list Risk.RiskCheckResult) :=
    Forall Guardian.without_data (Guardian.checkAggregator_ (fst st)) /\
    Forall (fun result => result = Risk.RiskCheckResult_new) (snd st) /\
    Guardian.rejectedCount_ (fst st) = 0 /\
    Guardian.approvedCount_ (fst st) = Z.of_nat (length (snd st)) mod 2 ^ 64 /\
    Guardian.validationCount_ (fst st) = Z.of_nat (length (snd st)) mod 2 ^ 64 in
  good st -> good (Guardian.call to_string st c).
Proof.
  destruct st as [g results]. cbn zeta. cbn [fst snd].
  intros (Hdata & Hres & Hrej & Happ & Hval).
  destruct c as [order|sym qty price|sym price]; cbn [Guardian.call]; [|now repeat split..].
  unfold Guardian.validateOrder. rewrite (validateAll_without_data _ order Hdata).
  cbn [Risk.approved Risk.RiskCheckResult_new fst snd Guardian.checkAggregator_
       Guardian.rejectedCount_ Guardian.approvedCount_ Guardian.validationCount_].
  rewrite length_app, Nat2Z.inj_add. cbn [length].
  repeat split; try assumption.
  - apply Forall_app. split; [exact Hres|now constructor].
  - now rewrite Happ, Zplus_mod_idemp_l.
  - now rewrite Hval, Zplus_mod_idemp_l.
Qed.

(** X18: a guardian made by the builder never rejects.  Whatever checks
    and thresholds the builder was given and whatever calls follow, every
    [validateOrder] returns approved with no violation and an empty
    reason, [rejectedCount_] stays 0, and [approvedCount_] and
    [validationCount_] are the number of validations modulo 2^64: [build]
    constructs the checks without ADV or NAV data and no call of the
    guardian reaches them. *)
Theorem built_guardian_never_rejects (b : Guardian.RiskGuardianBuilder)
  (calls : list Guardian.Call) :
  let '(g, results) := Guardian.run_calls to_string b calls in
  Forall (fun result => result = Risk.RiskCheckResult_new) results /\
  length results = length (List.filter Guardian.is_validation calls) /\
  Guardian.rejectedCount_ g = 0 /\
  Guardian.approvedCount_ g = Z.of_nat (length results) mod 2 ^ 64 /\
  Guardian.validationCount_ g = Z.of_nat (length results) mod 2 ^ 64.
Proof.
  unfold Guardian.run_calls.
  assert (Hgen : forall calls st,
             (Forall Guardian.without_data (Guardian.checkAggregator_ (fst st)) /\
              Forall (fun result => result = Risk.RiskCheckResult_new) (snd st) /\
              Guardian.rejectedCount_ (fst st) = 0 /\
              Guardian.approvedCount_ (fst st) = Z.of_nat (length (snd st)) mod 2 ^ 64 /\
              Guardian.validationCount_ (fst st) = Z.of_nat (length (snd st)) mod 2 ^ 64) ->
             let st' := fold_left (Guardian.call to_string) calls st in
             (Forall (fun result => result = Risk.RiskCheckResult_new) (snd st') /\
              Guardian.rejectedCount_ (fst st') = 0 /\
              Guardian.approvedCount_ (fst st') = Z.of_nat (length (snd st')) mod 2 ^ 64 /\
              Guardian.validationCount_ (fst st') = Z.of_nat (length (snd st')) mod 2 ^ 64) /\
             length (snd st')
             = (length (snd st) + length (List.filter Guardian.is_validation calls))%nat).
  { clear calls. induction calls as [|c rest IH]; intros st Hst.
    - cbn. split; [tauto|lia].
    - cbn [fold_left List.filter].
      destruct (IH (Guardian.call to_string st c) (call_approves st c Hst)) as [Hgood Hlen].
      split; [exact Hgood|]. cbn zeta in Hlen. rewrite Hlen.
      destruct st as [g results].
      destruct c as [order|sym qty price|sym price]; cbn [Guardian.call Guardian.is_validation snd].
      + destruct (Guardian.validateOrder to_string g order) as [g1 result].
        cbn [snd length]. rewrite length_app. cbn [length]. lia.
      + lia.
      + lia. }
  destruct (Hgen calls (Guardian.build b, [])) as [(Hres & Hrej & Happ & Hval) Hlen].
  - cbn [fst snd]. split; [apply build_without_data|]. repeat split; constructor.
  - destruct (fold_left _ calls _) as [g results]. cbn [fst snd length] in *.
    repeat split; assumption.
Qed.

End GuardianRuns.

(** ** The position manager *)

Set Warnings "-clear-no-such-hyp".

(** X19: [getPosition] creates the position of a symbol on first access,
    with the symbol and zero quantity, cost and PnL, and files it; a
    position that exists is returned as it is, and the manager is
    unchanged; either way a second access changes nothing and returns the
    same position. *)
Theorem getPosition_lazy (pm : Guardian.PositionManager) (sym : string) :
  let '(pm1, position) := Guardian.getPosition pm sym in
  Guardian.positions_ pm1 !! sym = Some position /\
  (Guardian.positions_ pm !! sym = None ->
   position = Guardian.mkPosition sym 0%float 0%float 0%float 0%float) /\
  (forall existing, Guardian.positions_ pm !! sym = Some existing ->
                    position = existing /\ pm1 = pm) /\
  Guardian.getPosition pm1 sym = (pm1, position).
Proof.
  unfold Guardian.getPosition at 1.
  destruct (Guardian.positions_ pm !! sym) as [existing|] eqn:Hsym.
  - split; [exact Hsym|]. split; [discriminate|]. split.
    + intros e [= <-]. now split.
    + unfold Guardian.getPosition. now rewrite Hsym.
  - cbn [Guardian.positions_]. split; [apply lookup_insert_eq|].
    split; [reflexivity|]. split; [discriminate|].
    unfold Guardian.getPosition. cbn [Guardian.positions_].
    now rewrite lookup_insert_eq.
Qed.

Lemma getPosition_lazy_witness :
  snd (Guardian.getPosition Guardian.PositionManager_new "AAPL")
  = Guardian.mkPosition "AAPL" 0%float 0%float 0%float 0%float.
Proof.
  pose proof (getPosition_lazy Guardian.PositionManager_new "AAPL") as Hlazy.
  destruct (Guardian.getPosition Guardian.PositionManager_new "AAPL") as [pm1 position].
  destruct Hlazy as (_ & Hnew & _). apply Hnew. reflexivity.
Defined.

Lemma run_operation_dom (pm : Guardian.PositionManager) (op : Guardian.Operation) :
  dom (Guardian.positions_ (Guardian.run_operation pm op))
  = dom (Guardian.positions_ pm) ∪ {[ Guardian.operation_symbol op ]}.
Proof.
  destruct op as [sym|sym qty price]; cbn [Guardian.run_operation Guardian.operation_symbol].
  - unfold Guardian.getPosition.
    destruct (Guardian.positions_ pm !! sym) as [position|] eqn:Hsym; cbn.
    + apply elem_of_dom_2 in Hsym. set_solver.
    + rewrite dom_insert_L. set_solver.
  - unfold Guardian.updatePosition, Guardian.getPosition.
    destruct (Guardian.positions_ pm !! sym) as [position|] eqn:Hsym; cbn.
    + rewrite dom_insert_L. apply elem_of_dom_2 in Hsym. set_solver.
    + rewrite !dom_insert_L. set_solver.
Qed.

(** X20: no operation removes a position: the symbols of the positions
    held are exactly the symbols ever named in a [getPosition] or an
    [updatePosition], and the count reported by [getStats] is the number of
    distinct symbols among them. *)
Theorem positions_are_the_symbols_named (ops : list Guardian.Operation) :
  dom (Guardian.positions_ (Guardian.run_operations ops))
  = list_to_set (map Guardian.operation_symbol ops) /\
  fst (Guardian.getStats (Guardian.run_operations ops))
  = Z.of_nat (size (list_to_set (C:=gset string) (map Guardian.operation_symbol ops))).
Proof.
  assert (Hdom : dom (Guardian.positions_ (Guardian.run_operations ops))
                 = list_to_set (map Guardian.operation_symbol ops)).
  { unfold Guardian.run_operations.
    assert (Hgen : forall ops pm,
               dom (Guardian.positions_ (fold_left Guardian.run_operation ops pm))
               = dom (Guardian.positions_ pm)
                 ∪ list_to_set (map Guardian.operation_symbol ops)).
    { clear ops. induction ops as [|op rest IH]; intros pm; cbn [fold_left map list_to_set].
      - set_solver.
      - rewrite IH, run_operation_dom. set_solver. }
    rewrite Hgen. cbn. rewrite dom_empty_L. set_solver. }
  split; [exact Hdom|].
  unfold Guardian.getStats. cbn [fst]. now rewrite <- Hdom, size_dom.
Qed.

Lemma binary_round_aux_sign_clear (p e mx ex : Z) (lx : location) :
  sign_clear (binary_round_aux p e false mx ex lx).
Proof.
  unfold binary_round_aux.
  destruct (shr_fexp p e mx ex lx) as [mrs' e'].
  destruct (shr_fexp p e _ e' loc_Exact) as [mrs'' e''].
  destruct (shr_m mrs'') as [|m|m]; cbn; auto.
  destruct (Z.leb e'' (Z.sub e p)); cbn; auto.
Qed.

Lemma SFadd_sign_clear (x y : spec_float) :
  sign_clear x -> sign_clear y -> sign_clear (SFadd prec emax x y).
Proof.
  destruct x as [sx|sx| |sx mx ex], y as [sy|sy| |sy my ey]; cbn [sign_clear];
    intros Hx Hy; subst; try (cbn; auto; fail).
  unfold SFadd. cbn [cond_Zopp].
  set (a := fst (shl_align mx ex (Z.min ex ey))).
  set (b := fst (shl_align my ey (Z.min ex ey))).
  change (Z.add (Zpos a) (Zpos b)) with (Zpos (a + b)).
  unfold binary_normalize, binary_round.
  destruct (shl_align (a + b) _ _) as [mz ez]. apply binary_round_aux_sign_clear.
Qed.

Lemma SFabs_sign_clear (x : spec_float) : sign_clear (SFabs x).
Proof. now destruct x. Qed.

Lemma sign_clear_not_negative (x : float) :
  sign_clear (Prim2SF x) -> PrimFloat.ltb x 0%float = false.
Proof.
  rewrite FloatAxioms.ltb_spec. change (Prim2SF 0%float) with (S754_zero false).
  destruct (Prim2SF x) as [s|s| |s m e]; cbn; intros Hs; subst; reflexivity.
Qed.

(** X21: the total exposure is never below zero, whatever the positions
    hold; it is 0 for a manager without positions. *)
Theorem calculateTotalExposure_not_negative (pm : Guardian.PositionManager) :
  PrimFloat.ltb (Guardian.calculateTotalExposure pm) 0%float = false /\
  Guardian.calculateTotalExposure Guardian.PositionManager_new = 0%float.
Proof.
  split; [|reflexivity].
  apply sign_clear_not_negative. unfold Guardian.calculateTotalExposure.
  assert (Hstart : sign_clear (Prim2SF 0.0%float)) by reflexivity.
  revert Hstart. generalize 0.0%float.
  induction (map_to_list (Guardian.positions_ pm)) as [|pair rest IH]; intros acc Hacc;
    [exact Hacc|].
  cbn [fold_left]. apply IH.
  rewrite FloatAxioms.add_spec. apply SFadd_sign_clear; [exact Hacc|].
  rewrite FloatAxioms.abs_spec. apply SFabs_sign_clear.
Qed.

Lemma finite_cases (q : float) :
  finite q = true ->
  (exists s, Prim2SF q = S754_zero s) \/ (exists s m e, Prim2SF q = S754_finite s m e).
Proof.
  unfold finite. rewrite FloatAxioms.ltb_spec, FloatAxioms.abs_spec.
  change (Prim2SF infinity) with (S754_infinity false).
  destruct (Prim2SF q) as [s|s| |s m e]; cbn; try discriminate; eauto.
Qed.

(** A finite double and its opposite add up to [0.0]. *)
Lemma add_opp_finite (q : float) :
  finite q = true -> PrimFloat.add q (PrimFloat.opp q) = 0%float.
Proof.
  intros Hq. apply Prim2SF_inj. rewrite FloatAxioms.add_spec, FloatAxioms.opp_spec.
  change (Prim2SF 0%float) with (S754_zero false).
  destruct (finite_cases q Hq) as [[s ->]|(s & m & e & ->)].
  - now destruct s.
  - cbn [SFopp]. unfold SF64add, SFadd.
    replace (Z.add (cond_Zopp s (Zpos (fst (shl_align m e (Z.min e e)))))
                   (cond_Zopp (negb s) (Zpos (fst (shl_align m e (Z.min e e))))))
      with Z0 by (destruct s; cbn [cond_Zopp negb]; lia).
    reflexivity.
Qed.

Lemma finite_not_nan_zero_sum (q : float) :
  finite q = true ->
  PrimFloat.add (PrimFloat.add 0%float q) (PrimFloat.opp q) = 0%float.
Proof.
  intros Hq. destruct (finite_cases q Hq) as [[s Hs]|(s & m & e & Hs)].
  - assert (Hz : PrimFloat.add 0%float q = 0%float).
    { apply add_zero_zero. rewrite FloatAxioms.eqb_spec, Hs. now destruct s. }
    rewrite Hz. apply Prim2SF_inj.
    rewrite FloatAxioms.add_spec, FloatAxioms.opp_spec, Hs.
    change (Prim2SF 0%float) with (S754_zero false). now destruct s.
  - rewrite add_zero_l; [now apply add_opp_finite|].
    intros ->. discriminate Hs.
Qed.

(** X22: on a symbol without a position, an execution of a finite
    quantity followed by the execution of the opposite quantity, at any
    prices, leaves the position flat: quantity 0 and average cost 0, with
    both PnL fields 0. *)
Theorem round_trip_leaves_flat (pm : Guardian.PositionManager) (sym : string)
  (q p p' : float) :
  Guardian.positions_ pm !! sym = None ->
  finite q = true ->
  position_after (Guardian.updatePosition pm sym q p) sym (PrimFloat.opp q) p'
  = Some (Guardian.mkPosition sym 0%float 0%float 0%float 0%float).
Proof.
  intros Hnone Hq. rewrite position_after_eq.
  assert (Hfirst : snd (Guardian.getPosition (Guardian.updatePosition pm sym q p) sym)
                   = Guardian.updated (snd (Guardian.getPosition pm sym)) q p).
  { pose proof (position_after_eq pm sym q p) as Hafter. unfold position_after in Hafter.
    unfold Guardian.getPosition at 1. now rewrite Hafter. }
  rewrite Hfirst, getPosition_fresh by assumption.
  unfold Guardian.updated. cbn [Guardian.quantity Guardian.avgCost Guardian.symbol
                                  Guardian.unrealizedPnL Guardian.realizedPnL].
  rewrite finite_not_nan_zero_sum by assumption. reflexivity.
Qed.

Lemma round_trip_leaves_flat_witness :
  position_after (Guardian.updatePosition Guardian.PositionManager_new "AAPL"
                    100%float 150.37%float)
                 "AAPL" (PrimFloat.opp 100%float) 151.2%float
  = Some (Guardian.mkPosition "AAPL" 0%float 0%float 0%float 0%float).
Proof.
  apply round_trip_leaves_flat; reflexivity.
Defined.

(** ** The normalisers and the frame *)

Lemma nth_take_lt {A} (n i : nat) (l : list A) (d : A) :
  (i < n)%nat -> nth i (take n l) d = nth i l d.
Proof.
  revert i l. induction n as [|n IH]; intros i l Hi; [lia|].
  destruct l as [|x l]; [now destruct i|].
  destruct i as [|i]; [reflexivity|]. cbn. apply IH. lia.
Qed.

Lemma byte_at_take (rawData : list byte) (length i : Z) :
  0 <= i < length ->
  DataFeed.byte_at (take (Z.to_nat length) rawData) i = DataFeed.byte_at rawData i.
Proof.
  intros Hi. unfold DataFeed.byte_at. rewrite nth_take_lt by lia. reflexivity.
Qed.

Lemma load64_take (rawData : list byte) (length offset : Z) :
  0 <= offset -> offset + 8 <= length ->
  DataFeed.load64 (take (Z.to_nat length) rawData) offset = DataFeed.load64 rawData offset.
Proof.
  intros Hoff Hlen. unfold DataFeed.load64. cbn [fold_right].
  rewrite !byte_at_take by lia. reflexivity.
Qed.

Lemma parse_symbol_take (rawData : list byte) (length : Z) :
  DataFeed.parse_symbol (take (Z.to_nat length) rawData) length
  = DataFeed.parse_symbol rawData length.
Proof.
  unfold DataFeed.parse_symbol. f_equal. apply map_ext_in. intros i Hi.
  apply in_seq in Hi. apply nth_take_lt. lia.
Qed.

Lemma normalize_take (n : DataFeed.Normalizer) (rawData : list byte) (length : Z) :
  DataFeed.normalize n (take (Z.to_nat length) rawData) length
  = DataFeed.normalize n rawData length.
Proof.
  destruct n; cbn [DataFeed.normalize];
    unfold DataFeed.NYSENormalizer_normalize, DataFeed.NASDAQNormalizer_normalize;
    destruct (Z.ltb_spec length 64); try reflexivity;
    unfold DataFeed.NYSENormalizer_parse, DataFeed.NASDAQNormalizer_parse,
           DataFeed.parseField_double, DataFeed.parseField_int64;
    rewrite parse_symbol_take, !load64_take by lia; reflexivity.
Qed.

(** X23: a normalizer reads the first [length] bytes of the buffer and
    nothing else: two buffers that agree on these bytes give the same
    result, whatever follows them. *)
Theorem normalize_reads_length_bytes (n : DataFeed.Normalizer)
  (rawData rawData' : list byte) (length : Z) :
  take (Z.to_nat length) rawData = take (Z.to_nat length) rawData' ->
  DataFeed.normalize n rawData length = DataFeed.normalize n rawData' length.
Proof.
  intros Hsame.
  rewrite <- (normalize_take n rawData), <- (normalize_take n rawData'). now rewrite Hsame.
Qed.

Lemma normalize_reads_length_bytes_witness :
  DataFeed.normalize DataFeed.NYSENormalizer (plain_quote_frame ++ infinite_quote_frame) 64
  = DataFeed.normalize DataFeed.NYSENormalizer plain_quote_frame 64.
Proof.
  apply normalize_reads_length_bytes. reflexivity.
Defined.

Lemma NASDAQNormalizer_returns_parsed (rawData : list byte) (length : Z)
  (t : DataFeed.MarketData) :
  DataFeed.NASDAQNormalizer_normalize rawData length = Some t ->
  64 <= length /\ t = DataFeed.NASDAQNormalizer_parse rawData length.
Proof.
  unfold DataFeed.NASDAQNormalizer_normalize.
  destruct (Z.ltb_spec length 64); [discriminate|].
  destruct (DataFeed.DataNormalizer_validate _); [|discriminate].
  intros [= <-]. now split.
Qed.

(** X24: the NASDAQ normalizer returns a tick exactly for a frame of at
    least 64 bytes whose fields, read in the NASDAQ layout (last price at
    offset 0, bid at 8, ask at 16), have [bid > 0], [ask > 0] and
    [ask >= bid]; the tick is those fields, tagged EQUITY and NASDAQ, and
    no bound is put on its spread. *)
Theorem NASDAQNormalizer_contract (rawData : list byte) (length : Z) (t : DataFeed.MarketData) :
  DataFeed.NASDAQNormalizer_normalize rawData length = Some t <->
  64 <= length /\
  t = DataFeed.NASDAQNormalizer_parse rawData length /\
  Cpp.gtb (DataFeed.parseField_double rawData 8) 0%float = true /\
  Cpp.gtb (DataFeed.parseField_double rawData 16) 0%float = true /\
  Cpp.geb (DataFeed.parseField_double rawData 16) (DataFeed.parseField_double rawData 8) = true.
Proof.
  unfold DataFeed.NASDAQNormalizer_normalize, DataFeed.DataNormalizer_validate.
  cbn [DataFeed.NASDAQNormalizer_parse DataFeed.bidPrice DataFeed.askPrice].
  destruct (Z.ltb_spec length 64).
  - split; [discriminate|]. intros [? _]. lia.
  - destruct (Cpp.gtb (DataFeed.parseField_double rawData 8) 0%float);
      destruct (Cpp.gtb (DataFeed.parseField_double rawData 16) 0%float);
      destruct (Cpp.geb _ _); cbn; split; try discriminate;
      try (intros (_ & _ & ? & ? & ?); discriminate).
    + intros [= <-]. auto.
    + intros (_ & -> & _). reflexivity.
Qed.

Lemma NASDAQNormalizer_contract_witness :
  exists t, DataFeed.NASDAQNormalizer_normalize nasdaq_quote_frame 64 = Some t /\
            DataFeed.exchange t = DataFeed.NASDAQ /\
            DataFeed.lastPrice t = 100%float /\ DataFeed.askPrice t = 101%float.
Proof.
  eexists. split.
  - apply (proj2 (NASDAQNormalizer_contract nasdaq_quote_frame 64 _)).
    split; [discriminate|]. split; [reflexivity|]. repeat split; reflexivity.
  - repeat split; reflexivity.
Defined.

Lemma c_string_length (buf : list byte) :
  (String.length (DataFeed.c_string buf) <= length buf)%nat.
Proof.
  induction buf as [|b rest IH]; [reflexivity|].
  cbn [DataFeed.c_string length]. destruct b; cbn [String.length]; lia.
Qed.

Lemma c_string_no_nul (buf : list byte) :
  Forall (fun c => c <> Ascii.zero) (String.list_ascii_of_string (DataFeed.c_string buf)).
Proof.
  induction buf as [|b rest IH]; [constructor|].
  cbn [DataFeed.c_string].
  destruct b; try constructor; try exact IH; try (vm_compute; discriminate).
Qed.

(** X25: the symbol of a tick has at most 15 characters, no more than the
    frame has bytes after offset 56, and holds no NUL character, whichever
    normalizer returned the tick. *)
Theorem symbol_is_short (n : DataFeed.Normalizer) (rawData : list byte) (length : Z)
  (t : DataFeed.MarketData) :
  DataFeed.normalize n rawData length = Some t ->
  Z.of_nat (String.length (DataFeed.symbol t)) <= Z.min (length - 56) 15 /\
  Forall (fun c => c <> Ascii.zero) (String.list_ascii_of_string (DataFeed.symbol t)).
Proof.
  intros Hnorm.
  assert (Hsym : 64 <= length /\ DataFeed.symbol t = DataFeed.parse_symbol rawData length).
  { destruct n; cbn [DataFeed.normalize] in Hnorm.
    - apply NYSENormalizer_returns_validated in Hnorm as (Hlen & -> & _). now split.
    - apply NASDAQNormalizer_returns_parsed in Hnorm as (Hlen & ->). now split. }
  destruct Hsym as [Hlen ->]. unfold DataFeed.parse_symbol. split.
  - pose proof (c_string_length
                  (map (fun i => nth (56 + i)%nat rawData x00)
                       (seq 0 (Z.to_nat (Z.min (length - 56) (16 - 1)))))) as Hc.
    rewrite length_map, length_seq in Hc. lia.
  - apply c_string_no_nul.
Qed.

Lemma symbol_is_short_witness :
  exists t, DataFeed.normalize DataFeed.NYSENormalizer plain_quote_frame 64 = Some t /\
            Z.of_nat (String.length (DataFeed.symbol t)) <= Z.min (64 - 56) 15.
Proof.
  eexists. split; [vm_compute; reflexivity|].
  apply (symbol_is_short DataFeed.NYSENormalizer plain_quote_frame 64). vm_compute. reflexivity.
Defined.

(** ** The fields of a frame *)

Lemma byte_at_range (rawData : list byte) (i : Z) : 0 <= DataFeed.byte_at rawData i < 256.
Proof.
  unfold DataFeed.byte_at. pose proof (Byte.to_N_bounded (nth (Z.to_nat i) rawData x00)). lia.
Qed.

Lemma load64_range (rawData : list byte) (offset : Z) : 0 <= DataFeed.load64 rawData offset < 2 ^ 64.
Proof.
  unfold DataFeed.load64. cbn [fold_right].
  pose proof (byte_at_range rawData (offset + 0)).
  pose proof (byte_at_range rawData (offset + 1)).
  pose proof (byte_at_range rawData (offset + 2)).
  pose proof (byte_at_range rawData (offset + 3)).
  pose proof (byte_at_range rawData (offset + 4)).
  pose proof (byte_at_range rawData (offset + 5)).
  pose proof (byte_at_range rawData (offset + 6)).
  pose proof (byte_at_range rawData (offset + 7)).
  lia.
Qed.

Lemma byte_of_bits (bits i : Z) :
  0 <= i ->
  Z.of_N (Byte.to_N (default x00 (Byte.of_N (Z.to_N (Z.land (Z.shiftr bits (8 * i)) 255)))))
  = (bits / 2 ^ (8 * i)) mod 256.
Proof.
  intros Hi. change 255 with (Z.ones 8). rewrite Z.land_ones by lia.
  rewrite Z.shiftr_div_pow2 by lia. change (2 ^ 8) with 256.
  pose proof (Z.mod_pos_bound (bits / 2 ^ (8 * i)) 256 eq_refl) as Hbyte.
  destruct (Byte.of_N (Z.to_N ((bits / 2 ^ (8 * i)) mod 256))) as [b|] eqn:Hb.
  - apply Byte.to_of_N in Hb. change (default x00 (Some b)) with b. rewrite Hb. lia.
  - apply Byte.of_N_None_iff in Hb. lia.
Qed.

Lemma byte_at_app (pre field post : list byte) (i : Z) :
  0 <= i < Z.of_nat (length field) ->
  DataFeed.byte_at (pre ++ field ++ post) (Z.of_nat (length pre) + i)
  = Z.of_N (Byte.to_N (nth (Z.to_nat i) field x00)).
Proof.
  intros Hi. unfold DataFeed.byte_at. f_equal. f_equal.
  replace (Z.to_nat (Z.of_nat (length pre) + i)) with (length pre + Z.to_nat i)%nat by lia.
  rewrite List.app_nth2_plus. apply List.app_nth1. lia.
Qed.

Lemma load64_bytes_of_bits (pre post : list byte) (bits : Z) :
  0 <= bits < 2 ^ 64 ->
  DataFeed.load64 (pre ++ DataFeed.bytes_of_bits bits ++ post) (Z.of_nat (length pre)) = bits.
Proof.
  intros Hbits. unfold DataFeed.load64. cbn [fold_right].
  rewrite (byte_at_app pre (DataFeed.bytes_of_bits bits) post 0) by (cbn; lia).
  rewrite (byte_at_app pre (DataFeed.bytes_of_bits bits) post 1) by (cbn; lia).
  rewrite (byte_at_app pre (DataFeed.bytes_of_bits bits) post 2) by (cbn; lia).
  rewrite (byte_at_app pre (DataFeed.bytes_of_bits bits) post 3) by (cbn; lia).
  rewrite (byte_at_app pre (DataFeed.bytes_of_bits bits) post 4) by (cbn; lia).
  rewrite (byte_at_app pre (DataFeed.bytes_of_bits bits) post 5) by (cbn; lia).
  rewrite (byte_at_app pre (DataFeed.bytes_of_bits bits) post 6) by (cbn; lia).
  rewrite (byte_at_app pre (DataFeed.bytes_of_bits bits) post 7) by (cbn; lia).
  change (Z.to_nat 0) with 0%nat. change (Z.to_nat 1) with 1%nat.
  change (Z.to_nat 2) with 2%nat. change (Z.to_nat 3) with 3%nat.
  change (Z.to_nat 4) with 4%nat. change (Z.to_nat 5) with 5%nat.
  change (Z.to_nat 6) with 6%nat. change (Z.to_nat 7) with 7%nat.
  unfold DataFeed.bytes_of_bits. cbn [map nth].
  rewrite !byte_of_bits by lia.
  change (2 ^ (8 * 0)) with 1. change (2 ^ (8 * 1)) with (2 ^ 8).
  change (2 ^ (8 * 2)) with (2 ^ 16). change (2 ^ (8 * 3)) with (2 ^ 24).
  change (2 ^ (8 * 4)) with (2 ^ 32). change (2 ^ (8 * 5)) with (2 ^ 40).
  change (2 ^ (8 * 6)) with (2 ^ 48). change (2 ^ (8 * 7)) with (2 ^ 56).
  rewrite Z.div_1_r.
  pose proof (Z.div_mod bits 256 ltac:(lia)) as H0.
  assert (Hstep : forall k, 0 <= k -> bits / 2 ^ (k + 8) = bits / 2 ^ k / 256).
  { intros k Hk. rewrite Z.pow_add_r by lia. rewrite Z.div_div by lia.
    reflexivity. }
  pose proof (Hstep 0 ltac:(lia)) as S0. change (2 ^ (0 + 8)) with (2 ^ 8) in S0.
  change (2 ^ 0) with 1 in S0. rewrite Z.div_1_r in S0.
  pose proof (Hstep 8 ltac:(lia)) as S1. change (2 ^ (8 + 8)) with (2 ^ 16) in S1.
  pose proof (Hstep 16 ltac:(lia)) as S2. change (2 ^ (16 + 8)) with (2 ^ 24) in S2.
  pose proof (Hstep 24 ltac:(lia)) as S3. change (2 ^ (24 + 8)) with (2 ^ 32) in S3.
  pose proof (Hstep 32 ltac:(lia)) as S4. change (2 ^ (32 + 8)) with (2 ^ 40) in S4.
  pose proof (Hstep 40 ltac:(lia)) as S5. change (2 ^ (40 + 8)) with (2 ^ 48) in S5.
  pose proof (Hstep 48 ltac:(lia)) as S6. change (2 ^ (48 + 8)) with (2 ^ 56) in S6.
  pose proof (Z.div_mod (bits / 2 ^ 8) 256 ltac:(lia)) as H1.
  pose proof (Z.div_mod (bits / 2 ^ 16) 256 ltac:(lia)) as H2.
  pose proof (Z.div_mod (bits / 2 ^ 24) 256 ltac:(lia)) as H3.
  pose proof (Z.div_mod (bits / 2 ^ 32) 256 ltac:(lia)) as H4.
  pose proof (Z.div_mod (bits / 2 ^ 40) 256 ltac:(lia)) as H5.
  pose proof (Z.div_mod (bits / 2 ^ 48) 256 ltac:(lia)) as H6.
  assert (H7 : (bits / 2 ^ 56) mod 256 = bits / 2 ^ 56).
  { apply Z.mod_small. split; [apply Z.div_pos; lia|].
    apply Z.div_lt_upper_bound; lia. }
  rewrite <- S0 in H0. rewrite <- S1 in H1. rewrite <- S2 in H2. rewrite <- S3 in H3.
  rewrite <- S4 in H4. rewrite <- S5 in H5. rewrite <- S6 in H6.
  lia.
Qed.

(** X26: [parseField<int64_t>] reads the eight bytes at the offset as a
    little-endian two's-complement number: its value is always within the
    range of [int64_t], and the eight bytes of a number of that range, put
    at any offset of a frame, are read back as that number. *)
Theorem parseField_int64_reads_little_endian (rawData pre post : list byte) (offset n : Z) :
  - 2 ^ 63 <= DataFeed.parseField_int64 rawData offset < 2 ^ 63 /\
  (- 2 ^ 63 <= n < 2 ^ 63 ->
   DataFeed.parseField_int64 (pre ++ DataFeed.bytes_of_bits (n mod 2 ^ 64) ++ post)
     (Z.of_nat (length pre)) = n).
Proof.
  unfold DataFeed.parseField_int64. split.
  - pose proof (load64_range rawData offset) as Hbits. unfold DataFeed.int64_of_bits.
    destruct (Z.ltb_spec (DataFeed.load64 rawData offset) (2 ^ 63)); lia.
  - intros Hn.
    rewrite load64_bytes_of_bits by (apply Z.mod_pos_bound; lia).
    unfold DataFeed.int64_of_bits.
    destruct (Z.ltb_spec (n mod 2 ^ 64) (2 ^ 63)) as [Hlow|Hhigh].
    + destruct (Z.le_gt_cases 0 n) as [Hpos|Hneg].
      * apply Z.mod_small. lia.
      * rewrite <- (Z.mod_add n 1) in Hlow by lia.
        rewrite Z.mod_small in Hlow by lia. lia.
    + destruct (Z.le_gt_cases 0 n) as [Hpos|Hneg].
      * rewrite Z.mod_small in Hhigh by lia. lia.
      * rewrite <- (Z.mod_add n 1) by lia. rewrite Z.mod_small by lia. lia.
Qed.

Lemma parseField_int64_reads_little_endian_witness :
  DataFeed.parseField_int64
    (DataFeed.bytes_of_bits 1 ++ DataFeed.bytes_of_bits ((- 250) mod 2 ^ 64) ++ [])
    (Z.of_nat (length (DataFeed.bytes_of_bits 1))) = - 250.
Proof.
  destruct (parseField_int64_reads_little_endian [] (DataFeed.bytes_of_bits 1) [] 0 (- 250))
    as [_ Hback].
  apply Hback. lia.
Defined.

(** ** The feed handler *)

Section FeedHandler.

Context {Callback : Type}.

Lemma first_tick_take (objects : DataFeed.Objects) (normalizers : list nat)
  (data data' : list byte) (length : Z) :
  take (Z.to_nat length) data = take (Z.to_nat length) data' ->
  DataFeed.first_tick objects normalizers data length
  = DataFeed.first_tick objects normalizers data' length.
Proof.
  intros Hsame. induction normalizers as [|p rest IH]; [reflexivity|].
  cbn [DataFeed.first_tick]. destruct (DataFeed.lock objects p) as [n|]; [|exact IH].
  rewrite <- (normalize_take n data), <- (normalize_take n data'), Hsame, IH.
  reflexivity.
Qed.

Lemma recvfrom_stored (buffer datagram : list byte) :
  let '(buffer1, recvLen) := DataFeed.recvfrom buffer datagram in
  take (Z.to_nat recvLen) buffer1
  = take (Z.to_nat DataFeed.Config.MAX_PACKET_SIZE) datagram /\
  recvLen = Z.of_nat (length (take (Z.to_nat DataFeed.Config.MAX_PACKET_SIZE) datagram)).
Proof.
  unfold DataFeed.recvfrom. split; [|reflexivity].
  rewrite Nat2Z.id. rewrite take_app_length. reflexivity.
Qed.

(** X27: what a datagram makes the handler do does not depend on what
    the reused receive buffer held before: the bytes that earlier
    datagrams left behind the new one are never read. *)
Theorem stale_bytes_are_not_read (h : DataFeed.DataFeedHandler Callback)
  (objects : DataFeed.Objects) (buffer buffer' datagram : list byte) :
  let '(h1, _, calls) := DataFeed.listenerLoop_turn h objects buffer datagram in
  let '(h1', _, calls') := DataFeed.listenerLoop_turn h objects buffer' datagram in
  h1 = h1' /\ calls = calls'.
Proof.
  unfold DataFeed.listenerLoop_turn.
  pose proof (recvfrom_stored buffer datagram) as Hb.
  pose proof (recvfrom_stored buffer' datagram) as Hb'.
  destruct (DataFeed.recvfrom buffer datagram) as [buffer1 recvLen].
  destruct (DataFeed.recvfrom buffer' datagram) as [buffer1' recvLen'].
  destruct Hb as [Htake ->], Hb' as [Htake' ->].
  destruct (_ >? 0); [|now split].
  unfold DataFeed.processPacket. cbn [DataFeed.normalizers_ DataFeed.callbacks_].
  rewrite (first_tick_take objects (DataFeed.normalizers_ h) buffer1 buffer1' _)
    by now rewrite Htake, Htake'.
  destruct (DataFeed.first_tick _ _ buffer1' _); now split.
Qed.

Lemma int64_incr_small (n : Z) : 0 <= n < 2 ^ 63 - 1 -> DataFeed.int64_incr n = n + 1.
Proof.
  intros Hn. unfold DataFeed.int64_incr.
  rewrite Z.mod_small by lia. lia.
Qed.

Lemma vec_size_carrying_cons (datagram : list byte) (rest : list (list byte)) :
  Cpp.vec_size (DataFeed.carrying (datagram :: rest))
  = Cpp.vec_size (DataFeed.carrying rest) + (if Cpp.vec_size datagram >? 0 then 1 else 0).
Proof.
  unfold Cpp.vec_size, DataFeed.carrying.
  destruct datagram as [|b datagram]; cbn [List.filter length].
  - change (Z.of_nat 0 >? 0) with false. lia.
  - destruct (Z.gtb_spec (Z.of_nat (S (length datagram))) 0); lia.
Qed.

Lemma first_tick_head (objects : DataFeed.Objects) (normalizers : list nat)
  (data : list byte) (length : Z) :
  DataFeed.first_tick objects normalizers data length
  = head (omap (fun p => match DataFeed.lock objects p with
                         | Some n => DataFeed.normalize n data length
                         | None => None
                         end)
               normalizers).
Proof.
  induction normalizers as [|p rest IH]; [reflexivity|].
  cbn [DataFeed.first_tick]. simpl omap.
  destruct (DataFeed.lock objects p) as [n|]; [|exact IH].
  destruct (DataFeed.normalize n data length); [reflexivity|exact IH].
Qed.

(** What [processPacket] finds in the buffer after [recvfrom] is the tick
    of the datagram. *)
Lemma first_tick_received (objects : DataFeed.Objects) (normalizers : list nat)
  (buffer datagram : list byte) :
  let '(buffer1, recvLen) := DataFeed.recvfrom buffer datagram in
  DataFeed.first_tick objects normalizers buffer1 recvLen
  = DataFeed.tick_of_datagram objects normalizers datagram.
Proof.
  unfold DataFeed.recvfrom, DataFeed.tick_of_datagram. cbn zeta.
  generalize (take (Z.to_nat DataFeed.Config.MAX_PACKET_SIZE) datagram).
  intros received. unfold Cpp.vec_size.
  rewrite <- (first_tick_head objects normalizers received (Z.of_nat (length received))).
  apply first_tick_take.
  rewrite Nat2Z.id, take_app_length. symmetry. apply firstn_all.
Qed.

Lemma ticks_of_cons (objects : DataFeed.Objects) (normalizers : list nat)
  (datagram : list byte) (rest : list (list byte)) :
  DataFeed.ticks_of objects normalizers (datagram :: rest)
  = (if Cpp.vec_size datagram >? 0
     then match DataFeed.tick_of_datagram objects normalizers datagram with
          | Some tick => [tick]
          | None => []
          end
     else [])
    ++ DataFeed.ticks_of objects normalizers rest.
Proof.
  unfold DataFeed.ticks_of, DataFeed.carrying, Cpp.vec_size.
  destruct datagram as [|b datagram]; cbn [List.filter length].
  - reflexivity.
  - replace (Z.of_nat (S (length datagram)) >? 0) with true
      by (symmetry; apply Z.gtb_lt; lia).
    simpl omap. now destruct (DataFeed.tick_of_datagram objects normalizers (b :: datagram)).
Qed.

Lemma vec_size_ticks_of (objects : DataFeed.Objects) (normalizers : list nat)
  (datagrams : list (list byte)) :
  0 <= Cpp.vec_size (DataFeed.ticks_of objects normalizers datagrams)
    <= Cpp.vec_size (DataFeed.carrying datagrams).
Proof.
  unfold DataFeed.ticks_of, Cpp.vec_size.
  induction (DataFeed.carrying datagrams) as [|datagram rest IH]; [cbn; lia|].
  simpl omap.
  change (list_omap _ _ (DataFeed.tick_of_datagram objects normalizers) rest)
    with (omap (DataFeed.tick_of_datagram objects normalizers) rest).
  destruct (DataFeed.tick_of_datagram objects normalizers datagram); cbn [length]; lia.
Qed.

Lemma listen_counts (objects : DataFeed.Objects) (datagrams : list (list byte)) :
  forall (h : DataFeed.DataFeedHandler Callback) (buffer : list byte),
    0 <= DataFeed.packetsProcessed_ h <= DataFeed.packetsReceived_ h ->
    DataFeed.packetsReceived_ h + Cpp.vec_size datagrams < 2 ^ 63 ->
    let '(h1, calls) := DataFeed.listen h objects buffer datagrams in
    let ticks := DataFeed.ticks_of objects (DataFeed.normalizers_ h) datagrams in
    DataFeed.packetsReceived_ h1
    = DataFeed.packetsReceived_ h + Cpp.vec_size (DataFeed.carrying datagrams) /\
    DataFeed.packetsProcessed_ h1 = DataFeed.packetsProcessed_ h + Cpp.vec_size ticks /\
    calls = DataFeed.deliveries (DataFeed.callbacks_ h) ticks.
Proof.
  induction datagrams as [|datagram rest IH]; intros h buffer Hcount Hroom.
  - cbn [DataFeed.listen]. unfold DataFeed.ticks_of, DataFeed.carrying. cbn.
    unfold Cpp.vec_size. cbn [length]. repeat split; lia.
  - cbn [DataFeed.listen]. cbn zeta.
    assert (Hsize : Cpp.vec_size (datagram :: rest) = Cpp.vec_size rest + 1)
      by (unfold Cpp.vec_size; cbn [length]; lia).
    assert (Hrest : 0 <= Cpp.vec_size rest) by (unfold Cpp.vec_size; lia).
    assert (Hcarry : 0 <= Cpp.vec_size (DataFeed.carrying rest)
                     <= Cpp.vec_size rest).
    { unfold DataFeed.carrying. pose proof (vec_size_filter_le
        (fun datagram : list byte => match datagram with [] => false | _ => true end) rest).
      unfold Cpp.vec_size in *. lia. }
    rewrite vec_size_carrying_cons, ticks_of_cons.
    unfold DataFeed.listenerLoop_turn.
    pose proof (recvfrom_stored buffer datagram) as Hrecv.
    pose proof (first_tick_received objects (DataFeed.normalizers_ h) buffer datagram)
      as Htick.
    destruct (DataFeed.recvfrom buffer datagram) as [buffer1 recvLen].
    destruct Hrecv as [_ Hlen].
    assert (Hsame : (recvLen >? 0) = (Cpp.vec_size datagram >? 0)).
    { subst recvLen. unfold Cpp.vec_size. rewrite length_take.
      assert (Hmax : (0 < Z.to_nat DataFeed.Config.MAX_PACKET_SIZE)%nat)
        by (unfold DataFeed.Config.MAX_PACKET_SIZE; lia).
      generalize dependent (Z.to_nat DataFeed.Config.MAX_PACKET_SIZE). intros n _ Hmax.
      destruct (Z.gtb_spec (Z.of_nat (n `min` length datagram)) 0);
        destruct (Z.gtb_spec (Z.of_nat (length datagram)) 0); lia. }
    rewrite Hsame. destruct (Cpp.vec_size datagram >? 0).
    + unfold DataFeed.processPacket.
      cbn [DataFeed.normalizers_ DataFeed.callbacks_ DataFeed.packetsReceived_
           DataFeed.packetsProcessed_].
      rewrite int64_incr_small by lia. rewrite Htick.
      destruct (DataFeed.tick_of_datagram objects (DataFeed.normalizers_ h) datagram)
        as [tick|].
      * rewrite int64_incr_small by lia.
        match goal with
        | |- context [DataFeed.listen ?h2 objects buffer1 rest] =>
            specialize (IH h2 buffer1); destruct (DataFeed.listen h2 objects buffer1 rest)
              as [h3 calls']
        end.
        cbn [DataFeed.normalizers_ DataFeed.callbacks_ DataFeed.packetsReceived_
             DataFeed.packetsProcessed_] in IH.
        destruct IH as (Hr & Hp & Hcalls); try lia.
        rewrite Hr, Hp, Hcalls. unfold DataFeed.deliveries, Cpp.vec_size.
        cbn [app flat_map length]. repeat split; lia.
      * match goal with
        | |- context [DataFeed.listen ?h2 objects buffer1 rest] =>
            specialize (IH h2 buffer1); destruct (DataFeed.listen h2 objects buffer1 rest)
              as [h3 calls']
        end.
        cbn [DataFeed.normalizers_ DataFeed.callbacks_ DataFeed.packetsReceived_
             DataFeed.packetsProcessed_] in IH.
        destruct IH as (Hr & Hp & Hcalls); try lia.
        rewrite Hr, Hp, Hcalls. cbn [app]. repeat split; lia.
    + specialize (IH h buffer1).
      destruct (DataFeed.listen h objects buffer1 rest) as [h3 calls'].
      destruct IH as (Hr & Hp & Hcalls); try lia.
      rewrite Hr, Hp, Hcalls. cbn [app]. repeat split; lia.
Qed.

(** X28: a handler that starts with its counters at zero and receives
    fewer than 2^63 datagrams counts in [packetsReceived_] the datagrams
    that carry at least one byte and in [packetsProcessed_] those among
    them that give a tick, the tick of a datagram being that of the first
    normalizer, in the order of registration, that is alive and returns
    one for the bytes of the datagram that fit the buffer; so the second
    counter never exceeds the first; and the callback calls made are each
    of those ticks, in the order of arrival, delivered once to every
    callback, in the order of registration. *)
Theorem handler_counts_and_delivers (h : DataFeed.DataFeedHandler Callback)
  (objects : DataFeed.Objects) (buffer : list byte) (datagrams : list (list byte)) :
  DataFeed.packetsReceived_ h = 0 -> DataFeed.packetsProcessed_ h = 0 ->
  Cpp.vec_size datagrams < 2 ^ 63 ->
  let '(h1, calls) := DataFeed.listen h objects buffer datagrams in
  let ticks := DataFeed.ticks_of objects (DataFeed.normalizers_ h) datagrams in
  DataFeed.packetsReceived_ h1 = Cpp.vec_size (DataFeed.carrying datagrams) /\
  DataFeed.packetsProcessed_ h1 = Cpp.vec_size ticks /\
  0 <= DataFeed.packetsProcessed_ h1 <= DataFeed.packetsReceived_ h1 /\
  calls = DataFeed.deliveries (DataFeed.callbacks_ h) ticks.
Proof.
  intros Hr Hp Hroom.
  pose proof (listen_counts objects datagrams h buffer) as Hcounts.
  pose proof (vec_size_ticks_of objects (DataFeed.normalizers_ h) datagrams) as Hticks.
  destruct (DataFeed.listen h objects buffer datagrams) as [h1 calls].
  cbn zeta in *.
  destruct Hcounts as (Hrecv & Hproc & Hcalls); try lia.
  repeat split; try assumption; lia.
Qed.

Lemma main_handler_locks (callback : Callback) :
  let '(h, objects) := DataFeed.main_handler callback in
  Forall (fun p => DataFeed.lock objects p = None) (DataFeed.normalizers_ h).
Proof. cbn. repeat constructor. Qed.

Lemma first_tick_expired (objects : DataFeed.Objects) (normalizers : list nat)
  (data : list byte) (length : Z) :
  Forall (fun p => DataFeed.lock objects p = None) normalizers ->
  DataFeed.first_tick objects normalizers data length = None.
Proof.
  induction 1 as [|p rest Hp _ IH]; [reflexivity|].
  cbn [DataFeed.first_tick]. now rewrite Hp.
Qed.

(** X29: the handler that [main] sets up processes nothing.  Both
    normalizers are created by [std::make_shared] in the call of
    [registerNormalizer], which keeps a weak pointer only, so both are
    destroyed when the call returns; whatever datagrams arrive afterwards,
    no normalizer can be locked, [packetsProcessed_] stays 0 and the
    callback is never called. *)
Theorem main_handler_drops_every_packet (callback : Callback) (buffer : list byte)
  (datagrams : list (list byte)) :
  let '(h, objects) := DataFeed.main_handler callback in
  let '(h1, calls) := DataFeed.listen h objects buffer datagrams in
  DataFeed.packetsProcessed_ h1 = 0 /\ calls = [].
Proof.
  pose proof (main_handler_locks callback) as Hlocks.
  destruct (DataFeed.main_handler callback) as [h objects] eqn:Hmain.
  assert (Hzero : DataFeed.packetsProcessed_ h = 0)
    by (cbn in Hmain; injection Hmain as <- _; reflexivity).
  clear Hmain. revert h buffer Hlocks Hzero.
  induction datagrams as [|datagram rest IH]; intros h buffer Hlocks Hzero.
  - now split.
  - cbn [DataFeed.listen]. unfold DataFeed.listenerLoop_turn.
    destruct (DataFeed.recvfrom buffer datagram) as [buffer1 recvLen].
    destruct (recvLen >? 0).
    + unfold DataFeed.processPacket. cbn [DataFeed.normalizers_].
      rewrite first_tick_expired by exact Hlocks.
      match goal with
      | |- context [DataFeed.listen ?h2 objects buffer1 rest] =>
          specialize (IH h2 buffer1 Hlocks Hzero);
          destruct (DataFeed.listen h2 objects buffer1 rest) as [h3 calls']
      end.
      exact IH.
    + specialize (IH h buffer1 Hlocks Hzero).
      destruct (DataFeed.listen h objects buffer1 rest) as [h3 calls']. exact IH.
Qed.

End FeedHandler.

Lemma handler_counts_and_delivers_witness :
  let objects := fst (DataFeed.make_shared [] DataFeed.NYSENormalizer) in
  let h := DataFeed.registerNormalizer
             (DataFeed.registerCallback
                (DataFeed.registerCallback DataFeed.createHandler "log") "store")
             DataFeed.NYSE 0 in
  let datagrams := [[]; plain_quote_frame; ["A"%byte]] in
  let '(h1, calls) := DataFeed.listen h objects DataFeed.fresh_buffer datagrams in
  let ticks := DataFeed.ticks_of objects (DataFeed.normalizers_ h) datagrams in
  DataFeed.packetsReceived_ h1 = Cpp.vec_size (DataFeed.carrying datagrams) /\
  DataFeed.packetsProcessed_ h1 = Cpp.vec_size ticks /\
  0 <= DataFeed.packetsProcessed_ h1 <= DataFeed.packetsReceived_ h1 /\
  calls = DataFeed.deliveries (DataFeed.callbacks_ h) ticks.
Proof.
  cbn zeta.
  apply (handler_counts_and_delivers
           (DataFeed.registerNormalizer
              (DataFeed.registerCallback
                 (DataFeed.registerCallback DataFeed.createHandler "log") "store")
              DataFeed.NYSE 0)
           (fst (DataFeed.make_shared [] DataFeed.NYSENormalizer))
           DataFeed.fresh_buffer [[]; plain_quote_frame; ["A"%byte]]).
  - reflexivity.
  - reflexivity.
  - reflexivity.
Defined.

(** In that run the frame of the second datagram is the one tick: two
    datagrams are counted as received, one as processed, and each of the
    two callbacks is called once, with that tick. *)
Example handler_delivers_the_quote :
  let objects := fst (DataFeed.make_shared [] DataFeed.NYSENormalizer) in
  let h := DataFeed.registerNormalizer
             (DataFeed.registerCallback
                (DataFeed.registerCallback DataFeed.createHandler "log") "store")
             DataFeed.NYSE 0 in
  let '(h1, calls) :=
    DataFeed.listen h objects DataFeed.fresh_buffer [[]; plain_quote_frame; ["A"%byte]] in
  DataFeed.packetsReceived_ h1 = 2 /\ DataFeed.packetsProcessed_ h1 = 1 /\
  map fst calls = ["log"; "store"] /\
  map (fun call => DataFeed.symbol (snd call)) calls = ["AAPL"; "AAPL"] /\
  map (fun call => DataFeed.bidPrice (snd call)) calls = [100%float; 100%float].
Proof. vm_compute. repeat split; reflexivity. Qed.
